(** * WSI patch extraction (patch_extraction/extract_patches_split.py)

    A shallow embedding of the patch-extraction module and the properties
    of its sampler, annotation parser, serializer and driver.

    Conventions of the embedding.
    - Python integers are [Z]; NumPy int64 values are [Z] too, for values
      in the int64 range.  A float is the rational [Q] that it denotes; the
      one float operation of the module that rounds, the true division of
      parse_annotation, rounds to the nearest float ([round_float]).
    - A call either returns or raises: [result A].  Code that also touches
      the disk or the slide runs in [io], which threads a [world].
    - [print] calls have no effect on any value studied here and are left
      out. *)

From Stdlib Require Import ZArith QArith Qabs Qround Lia Ascii String.
From stdpp Require Import base option list sorting strings gmap pretty.

Local Open Scope Z_scope.

(** ** Exceptions and results *)

Inductive exn : Type :=
  | OpenSlideUnsupportedFormatError
  | OpenSlideError
  | NameError (name : string)
  | UnboundLocalError (name : string)
  | AttributeError
  | IndexError
  | KeyError
  | ValueError
  | ZeroDivisionError
  | OverflowError
  | cv2_error
  | OSError.

Inductive result (A : Type) : Type :=
  | Ok (a : A)
  | Raise (e : exn).
Arguments Ok {A} a.
Arguments Raise {A} e.

#[global] Instance result_ret : MRet result := fun A a => Ok a.
#[global] Instance result_bind : MBind result := fun A B f m =>
  match m with
  | Ok a => f a
  | Raise e => Raise e
  end.

#[global] Instance result_fmap : FMap result := fun A B f m =>
  match m with
  | Ok a => Ok (f a)
  | Raise e => Raise e
  end.

(** [for x in l: acc = body(acc, x)], stopping at the first exception. *)
Fixpoint foldM {A B : Type} (body : A -> B -> result A) (acc : A) (l : list B)
  : result A :=
  match l with
  | [] => Ok acc
  | x :: l' => acc' ← body acc x; foldM body acc' l'
  end.

(** NameError and its subclass UnboundLocalError. *)
Definition is_unbound_name_error (e : exn) : bool :=
  match e with
  | NameError _ | UnboundLocalError _ => true
  | _ => false
  end.

(** ** Python sequences *)

(** [l[i]]: negative indices count from the end. *)
Definition py_index {A : Type} (l : list A) (i : Z) : result A :=
  let n := Z.of_nat (length l) in
  let j := if i <? 0 then i + n else i in
  if (j <? 0) || (n <=? j) then Raise IndexError
  else match l !! Z.to_nat j with
       | Some a => Ok a
       | None => Raise IndexError
       end.

(** [int(c)] for a one-character string. *)
Definition int_of_char (c : ascii) : result Z :=
  let n := Z.of_N (N_of_ascii c) in
  if (48 <=? n) && (n <=? 57) then Ok (n - 48) else Raise ValueError.

(** [int(s[i])] *)
Definition int_at (s : string) (i : Z) : result Z :=
  c ← py_index (list_ascii_of_string s) i; int_of_char c.

(** The bounds of the slice [lo:hi] on an axis of length [n]. *)
Definition slice_index (n i : Z) : Z :=
  if i <? 0 then Z.max (i + n) 0 else Z.min i n.

Definition slice_start (n : nat) (lo : Z) : nat :=
  Z.to_nat (slice_index (Z.of_nat n) lo).

Definition slice_len (n : nat) (lo hi : Z) : nat :=
  Z.to_nat (slice_index (Z.of_nat n) hi - slice_index (Z.of_nat n) lo).

(** [s.split(sep)] for a one-character separator. *)
Fixpoint py_split (sep : ascii) (s : string) : list string :=
  match s with
  | EmptyString => [EmptyString]
  | String c s' =>
      if Ascii.eqb c sep then EmptyString :: py_split sep s'
      else match py_split sep s' with
           | [] => [String c EmptyString]
           | w :: ws => String c w :: ws
           end
  end.

(** [sorted(l, key=key, reverse=True)]: descending by key, and stable
    (elements with equal keys keep their order). *)
Section sorted.
Context {A : Type} (key : A -> Q).

Fixpoint insert_desc (a : A) (l : list A) : list A :=
  match l with
  | [] => [a]
  | b :: l' =>
      if Qle_bool (key b) (key a) then a :: b :: l'
      else b :: insert_desc a l'
  end.

Definition sorted_reverse (l : list A) : list A := foldr insert_desc [] l.
End sorted.

(** [np.arange(start, stop, step)] on integers of the int64 range. *)
Definition np_arange (start stop step : Z) : result (list Z) :=
  if step =? 0 then Raise ZeroDivisionError
  else
    let n := Z.max 0 (- ((start - stop) `div` step)) in
    Ok ((fun i : nat => start + Z.of_nat i * step) <$> seq 0 (Z.to_nat n)).

(** ** Global variables / constants of the module *)

Definition PATCH_SIZE : Z := 500.
Definition CHANNEL : Z := 3.
Definition PIXEL_WHITE : Z := 255.
Definition SPLIT : Z := 4.

(** Every name bound at module level: the imports, the constants and the
    functions. *)
Definition module_names : list string :=
  [ "time"; "random"; "os"; "cv2"; "np"; "pd"; "Image"; "OpenSlide";
    "OpenSlideUnsupportedFormatError"; "ET"; "box"; "Point"; "Polygon"; "gc";
    "PATCH_SIZE"; "CHANNEL"; "CLASS_NUM"; "DROPOUT"; "THRESH"; "PIXEL_WHITE";
    "PIXEL_TH"; "PIXEL_BLACK"; "SPLIT"; "level"; "mag_factor";
    "openSlide_init"; "read_wsi"; "construct_colored_wsi"; "get_contours";
    "segmentation_hsv"; "construct_bags"; "parse_annotation"; "save_to_disk";
    "extract_all" ]%string.

(** Reading a global name: NameError when the module does not bind it. *)
Definition load_global (name : string) : result unit :=
  if bool_decide (name ∈ module_names) then Ok tt else Raise (NameError name).

(** ** NumPy image arrays *)

(** A two-dimensional array of pixels of type [A], shape
    (HEIGHT, WIDTH, channels of [A]). *)
Record ndarray (A : Type) : Type := mk_ndarray {
  height : nat;
  width : nat;
  px : nat -> nat -> A
}.
Arguments mk_ndarray {A} _ _ _.
Arguments height {A} _.
Arguments width {A} _.
Arguments px {A} _ _ _.

Definition pixel : Type := Z * Z * Z.
Definition rgba_pixel : Type := Z * Z * Z * Z.

(** [a.shape] of a three-channel array. *)
Definition shape (a : ndarray pixel) : Z * Z * Z :=
  (Z.of_nat (height a), Z.of_nat (width a), 3).

Definition shape_eqb (s t : Z * Z * Z) : bool :=
  let '(h, w, c) := s in
  let '(h', w', c') := t in
  (h =? h') && (w =? w') && (c =? c').

(** [a[r0:r1, c0:c1]] *)
Definition slice2 {A : Type} (a : ndarray A) (r0 r1 c0 c1 : Z) : ndarray A :=
  let i0 := slice_start (height a) r0 in
  let j0 := slice_start (width a) c0 in
  mk_ndarray (slice_len (height a) r0 r1) (slice_len (width a) c0 c1)
             (fun i j => px a (i0 + i)%nat (j0 + j)%nat).

Definition is_empty {A : Type} (a : ndarray A) : bool :=
  (Nat.eqb (height a) 0) || (Nat.eqb (width a) 0).

(** The number of positions of [a] whose element satisfies [f]. *)
Definition count_px {A : Type} (f : A -> bool) (a : ndarray A) : Z :=
  Z.of_nat
    (sum_list_with
       (fun i => sum_list_with (fun j => if f (px a i j) then 1%nat else 0%nat)
                               (seq 0 (width a)))
       (seq 0 (height a))).

(** ** OpenCV array operations *)

Definition pixel_and (p q : pixel) : pixel :=
  let '(r, g, b) := p in
  let '(r', g', b') := q in
  (Z.land r r', Z.land g g', Z.land b b').

(** 8-bit RGB to gray, Y = 0.299 R + 0.587 G + 0.114 B in OpenCV's
    fixed-point arithmetic (14 fractional bits, rounded). *)
Definition rgb2gray (p : pixel) : Z :=
  let '(r, g, b) := p in
  Z.shiftr (4899 * r + 9617 * g + 1868 * b + 8192) 14.

(** [cv2.cvtColor(a, cv2.COLOR_RGB2GRAY)]: an empty source is an error. *)
Definition cv2_cvtColor_RGB2GRAY (a : ndarray pixel) : result (ndarray Z) :=
  if is_empty a then Raise cv2_error
  else Ok (mk_ndarray (height a) (width a) (fun i j => rgb2gray (px a i j))).

Definition nonzero (z : Z) : bool := negb (z =? 0).

(** [cv2.countNonZero(g)] *)
Definition cv2_countNonZero (g : ndarray Z) : Z := count_px nonzero g.

(** ** The slide and OpenCV's contour primitives *)

(** An opened OpenSlide object. *)
Record slide : Type := mk_slide {
  level_dimensions : list (Z * Z);
  read_region : Z * Z -> Z -> Z * Z -> result (ndarray rgba_pixel)
}.

(** [wsi_obj.level_dimensions[level]]; [wsi_obj] is None when the slide
    could not be opened. *)
Definition wsi_level_dimensions (wsi_obj : option slide) (level : Z)
  : result (Z * Z) :=
  match wsi_obj with
  | None => Raise AttributeError
  | Some s => py_index (level_dimensions s) level
  end.

(** A bounding box (x, y, w, h). *)
Definition rect : Type := Z * Z * Z * Z.

Inductive morph_op : Type := MORPH_CLOSE | MORPH_OPEN.

(** The OpenCV and NumPy primitives on contours and masks that the module
    calls and does not define.  [contour] is an int32 array of points.
    [cv2_bitwise_and_unequal] is [cv2.bitwise_and] on operands of different
    sizes: OpenCV takes an operand of one pixel, or of as many elements as
    the other has channels, for a scalar, and raises otherwise. *)
Class OpenCV : Type := {
  contour : Type;
  np_squeeze : contour -> contour;
  cv2_contourArea : contour -> Q;
  cv2_boundingRect : contour -> result rect;
  cv2_RGB2HSV : pixel -> pixel;
  cv2_morphologyEx : ndarray Z -> morph_op -> nat -> ndarray Z;
  cv2_findContours : ndarray Z -> list contour;
  cv2_drawContours : ndarray pixel -> list contour -> pixel -> ndarray pixel;
  cv2_bitwise_and_unequal : ndarray pixel -> ndarray pixel
                            -> result (ndarray pixel)
}.

(** [cv2.bitwise_and(a, b)]: on operands of the same size, the AND of the
    pixels at each position.  (On empty operands the binding returns no
    array; the embedding returns the empty array and lets the conversion
    that follows fail.) *)
Definition cv2_bitwise_and `{OpenCV} (a b : ndarray pixel)
  : result (ndarray pixel) :=
  if (Nat.eqb (height a) (height b)) && (Nat.eqb (width a) (width b))
  then Ok (mk_ndarray (height a) (width a)
                      (fun i j => pixel_and (px a i j) (px b i j)))
  else cv2_bitwise_and_unequal a b.

(** ** Section offsets (lines 122-130, 317-324 and 463-470)

    The section size after the split and the offset of section [sect],
    whose first character is the column and whose second is the row. *)
Definition section_delta (wsi_obj : option slide) (level : Z) (sect : string)
  : result (Z * Z * Z * Z) :=
  '(width_whole, height_whole) ← wsi_level_dimensions wsi_obj level;
  let width_split := width_whole `div` SPLIT in
  let height_split := height_whole `div` SPLIT in
  sx ← int_at sect 0;
  let delta_x := sx * width_split in
  sy ← int_at sect 1;
  let delta_y := sy * height_split in
  Ok (width_split, height_split, delta_x, delta_y).

(** ** construct_bags: extract valid patches *)

(** The three lists that construct_bags fills and returns. *)
Record bags : Type := mk_bags {
  patches : list (ndarray pixel);
  patches_coords : list (Z * Z);
  patches_coords_local : list (Z * Z)
}.

Definition bags_empty : bags := mk_bags [] [] [].

Definition bags_append (acc : bags) (patch_arr : ndarray pixel)
    (coord coord_local : Z * Z) : bags :=
  mk_bags (patches acc ++ [patch_arr])
          (patches_coords acc ++ [coord])
          (patches_coords_local acc ++ [coord_local]).

(** [white_pixel_cnt >= (PATCH_SIZE ** 2) * 0.5] *)
Definition enough_white (white_pixel_cnt PATCH_SIZE : Z) : bool :=
  Qle_bool (inject_Z (PATCH_SIZE ^ 2) * (1 # 2)) (inject_Z white_pixel_cnt).

(** The body of the loops over [Y] and [X] (lines 381-433). *)
Definition sample_window `{OpenCV} (wsi_rgb mask : ndarray pixel)
    (PATCH_SIZE delta_x delta_y : Z) (acc : bags) (y_height_ x_width_ : Z)
  : result bags :=
  let patch_arr := slice2 wsi_rgb y_height_ (y_height_ + PATCH_SIZE)
                                  x_width_ (x_width_ + PATCH_SIZE) in
  let width_mask := x_width_ in
  let height_mask := y_height_ in
  let patch_mask_arr := slice2 mask height_mask (height_mask + PATCH_SIZE)
                                    width_mask (width_mask + PATCH_SIZE) in
  match cv2_bitwise_and patch_arr patch_mask_arr with
  | Raise _ => Ok acc
  | Ok bitwise_ =>
      bitwise_grey ← cv2_cvtColor_RGB2GRAY bitwise_;
      let white_pixel_cnt := cv2_countNonZero bitwise_grey in
      if enough_white white_pixel_cnt PATCH_SIZE then
        if shape_eqb (shape patch_arr) (PATCH_SIZE, PATCH_SIZE, CHANNEL) then
          Ok (bags_append acc patch_arr
                (x_width_ + delta_x, y_height_ + delta_y)
                (x_width_, y_height_))
        else Ok acc
      else Ok acc
  end.

(** The body of the loop over the kept regions (lines 341-433). *)
Definition sample_region `{OpenCV} (wsi_rgb mask : ndarray pixel)
    (PATCH_SIZE delta_x delta_y : Z) (acc : bags) (box_ : contour)
  : result bags :=
  '(b0, b1, b2, b3) ← cv2_boundingRect (np_squeeze box_);
  let b_x_start := b0 in
  let b_y_start := b1 in
  let b_x_end := b0 + b2 in
  let b_y_end := b1 + b3 in
  X ← np_arange b_x_start b_x_end (PATCH_SIZE `div` 2);
  Y ← np_arange b_y_start b_y_end (PATCH_SIZE `div` 2);
  foldM (fun acc y_height_ =>
           foldM (fun acc x_width_ =>
                    sample_window wsi_rgb mask PATCH_SIZE delta_x delta_y
                                  acc y_height_ x_width_)
                 acc X)
        acc Y.

Definition construct_bags `{OpenCV} (wsi_obj : option slide)
    (wsi_rgb : ndarray pixel) (contours : list contour) (mask : ndarray pixel)
    (level mag_factor PATCH_SIZE : Z) (sect : string) : result bags :=
  '(_, _, delta_x, delta_y) ← section_delta wsi_obj level sect;
  let contours_ := sorted_reverse cv2_contourArea contours in
  let contours_ := take 5 contours_ in
  foldM (sample_region wsi_rgb mask PATCH_SIZE delta_x delta_y)
        bags_empty contours_.

(** ** parse_annotation *)

(** An attribute of a coordinate element: absent, text that [float] refuses,
    text that [float] reads as an infinity or as a NaN, or the number that
    [float] returns. *)
Inductive attribute : Type :=
  | Absent
  | NotNumeric
  | Infinite
  | NotANumber
  | Numeric (q : Q).

(** A child element of a Coordinates group, with its attributes X and Y. *)
Record coor : Type := mk_coor {
  attrib_X : attribute;
  attrib_Y : attribute
}.

(** What is on disk: the slide files that OpenSlide opens and the annotation
    documents, each as the sequence of its Coordinates groups in document
    order ([tree.iter(tag='Coordinates')]). *)
Class Files : Type := {
  OpenSlide : string -> result slide;
  ET_ElementTree : string -> result (list (list coor))
}.

(** [float(coor.attrib[...])], for the [int(...)] around it: [int] refuses
    an infinity with OverflowError and a NaN with ValueError. *)
Definition float_attrib (a : attribute) : result Q :=
  match a with
  | Absent => Raise KeyError
  | NotNumeric => Raise ValueError
  | Infinite => Raise OverflowError
  | NotANumber => Raise ValueError
  | Numeric q => Ok q
  end.

(** [int(q)] truncates towards zero. *)
Definition int_of_float (q : Q) : Z := Z.quot (Qnum q) (Z.pos (Qden q)).

(** The integer nearest to [n / d], the even one of two ([0 <= n],
    [0 < d]). *)
Definition round_half_even (n d : Z) : Z :=
  let q := n `div` d in
  let r := n `mod` d in
  if 2 * r <? d then q
  else if d <? 2 * r then q + 1
  else if Z.even q then q else q + 1.

(** The float (binary64) nearest to [n / d] for [0 < n] and [0 < d]: a
    multiple of 2 ^ (c - 1074) with a factor of at most 53 bits, where
    2 ^ -1074 is the smallest positive float. *)
Definition round_float_pos (n d : Z) : Q :=
  let n' := n * 2 ^ 1074 in
  let c := Z.max 0 (Z.log2 (n' `div` d) - 52) in
  Qmake (round_half_even n' (d * 2 ^ c) * 2 ^ c) (Z.to_pos (2 ^ 1074)).

(** The float nearest to [q], ties to even. *)
Definition round_float (q : Q) : Q :=
  match Qnum q with
  | 0 => 0%Q
  | Z.pos n => round_float_pos (Z.pos n) (Z.pos (Qden q))
  | Z.neg n => (- round_float_pos (Z.pos n) (Z.pos (Qden q)))%Q
  end.

(** [x / y] on integers is the float nearest to the quotient.  (The module
    divides the integer part of a float by an integer: such a quotient
    never leaves the float range, where Python raises OverflowError.) *)
Definition true_div (x y : Z) : result Q :=
  if y =? 0 then Raise ZeroDivisionError
  else Ok (round_float (inject_Z x / inject_Z y)).

(** A shapely polygon, given by its shell. *)
Inductive polygon : Type := Polygon (shell : list (Z * Z)).

(** The body of the loop over the points of a group (lines 484-510):
    the point in the chosen level and in the section. *)
Definition parse_coor (mag_factor delta_x delta_y : Z) (c : coor)
  : result ((Z * Z) * (Z * Z)) :=
  fx ← float_attrib (attrib_X c);
  let x := int_of_float fx in
  fy ← float_attrib (attrib_Y c);
  let y := int_of_float fy in
  x ← true_div x mag_factor;
  y ← true_div y mag_factor;
  let x := int_of_float x in
  let y := int_of_float y in
  let local_x := x - delta_x in
  let local_x := if local_x <? 0 then -1 else local_x in
  let local_y := y - delta_y in
  let local_y := if local_y <? 0 then -1 else local_y in
  Ok ((x, y), (local_x, local_y)).

(** The three lists that parse_annotation fills and returns. *)
Record annotation : Type := mk_annotation {
  polygon_list : list polygon;
  anno_list : list (list (Z * Z));
  anno_local_list : list (list (Z * Z))
}.

(** The body of the loop over the groups (lines 473-517). *)
Definition parse_group (mag_factor delta_x delta_y : Z) (acc : annotation)
    (crds : list coor) : result annotation :=
  '(node_list_, node_local_list_) ←
    foldM (fun '(node_list_, node_local_list_) c =>
             '(p, p_local) ← parse_coor mag_factor delta_x delta_y c;
             Ok (node_list_ ++ [p], node_local_list_ ++ [p_local]))
          ([], []) crds;
  let anno_list := anno_list acc ++ [node_list_] in
  let anno_local_list := anno_local_list acc ++ [node_local_list_] in
  let polygon_list :=
    if (2 <? Z.of_nat (length node_list_))
    then polygon_list acc ++ [Polygon node_list_]
    else polygon_list acc in
  Ok (mk_annotation polygon_list anno_list anno_local_list).

Definition parse_annotation `{Files} (anno_path : string)
    (wsi_obj : option slide) (sect : string) (level mag_factor : Z)
  : result annotation :=
  tree ← ET_ElementTree anno_path;
  '(_, _, delta_x, delta_y) ← section_delta wsi_obj level sect;
  foldM (parse_group mag_factor delta_x delta_y) (mk_annotation [] [] []) tree.

(** ** The disk and the slide reads *)

(** A row of the coordinate table. *)
Record csv_row : Type := mk_csv_row {
  coord_x : Z;
  coord_y : Z;
  tumor_area : Q;
  tumor_pct : Q
}.

Inductive file_data : Type :=
  | Csv (rows : list csv_row)
  | Npy (arrays : list (ndarray pixel))
  | Jpeg (im : ndarray pixel).

(** The directories that exist, the files written so far (oldest first) and
    the regions read from the slide so far (offset in level 0, level, size). *)
Record world : Type := mk_world {
  dirs : gset string;
  files : list (string * file_data);
  region_reads : list ((Z * Z) * Z * (Z * Z))
}.

Definition io (A : Type) : Type := world -> result A * world.

#[global] Instance io_ret : MRet io := fun A a w => (Ok a, w).
#[global] Instance io_bind : MBind io := fun A B f m w =>
  match m w with
  | (Ok a, w') => f a w'
  | (Raise e, w') => (Raise e, w')
  end.

Definition lift {A : Type} (r : result A) : io A := fun w => (r, w).

Fixpoint foldM_io {A B : Type} (body : A -> B -> io A) (acc : A) (l : list B)
  : io A :=
  match l with
  | [] => mret acc
  | x :: l' => acc' ← body acc x; foldM_io body acc' l'
  end.

(** The prefixes of a path that end with a slash: the directory and its
    ancestors. *)
Fixpoint dir_prefixes (p : string) : list string :=
  match p with
  | EmptyString => []
  | String c p' =>
      (if Ascii.eqb c "/" then [String c EmptyString] else [])
      ++ (String c <$> dir_prefixes p')
  end.

Definition os_path_exists (p : string) : io bool :=
  fun w => (Ok (bool_decide (p ∈ dirs w)), w).

Definition os_makedirs (p : string) : io unit :=
  fun w => (Ok tt, mk_world (dirs w ∪ list_to_set (dir_prefixes p))
                            (files w) (region_reads w)).

Definition write_file (name : string) (d : file_data) : io unit :=
  fun w => (Ok tt, mk_world (dirs w) (files w ++ [(name, d)]) (region_reads w)).

Definition log_read (r : (Z * Z) * Z * (Z * Z)) : io unit :=
  fun w => (Ok tt, mk_world (dirs w) (files w) (region_reads w ++ [r])).

(** ** openSlide_init, read_wsi and the colour and segmentation steps *)

(** Identifies the slide and initializes the OpenSlide object; None when the
    format is unsupported. *)
Definition openSlide_init `{Files} (tif_file_path : string) (level : Z)
  : result (option slide) :=
  match OpenSlide tif_file_path with
  | Raise OpenSlideUnsupportedFormatError => Ok None
  | Raise e => Raise e
  | Ok wsi_obj =>
      '(slide_w_, slide_h_) ← py_index (level_dimensions wsi_obj) level;
      Ok (Some wsi_obj)
  end.

(** Loads section [sect] of the slide into memory. *)
Definition read_wsi (wsi_obj : option slide) (level mag_factor : Z)
    (sect : string) : io (ndarray rgba_pixel) :=
  '(width_split, height_split, delta_x, delta_y) ←
    lift (section_delta wsi_obj level sect);
  match wsi_obj with
  | None => lift (Raise AttributeError)
  | Some s =>
      let location := (delta_x * mag_factor, delta_y * mag_factor) in
      let size := (width_split, height_split) in
      _ ← log_read (location, level, size);
      lift (read_region s location level size)
  end.

(** [cv2.cvtColor(a, cv2.COLOR_RGB2HSV)] *)
Definition cv2_cvtColor_RGB2HSV `{OpenCV} (a : ndarray pixel)
  : result (ndarray pixel) :=
  if is_empty a then Raise cv2_error
  else Ok (mk_ndarray (height a) (width a) (fun i j => cv2_RGB2HSV (px a i j))).

(** [cv2.split(a)]: the channels of a four-channel image, none for an empty
    image. *)
Definition cv2_split (a : ndarray rgba_pixel) : list (ndarray Z) :=
  if is_empty a then []
  else [ mk_ndarray (height a) (width a) (fun i j => (px a i j).1.1.1);
         mk_ndarray (height a) (width a) (fun i j => (px a i j).1.1.2);
         mk_ndarray (height a) (width a) (fun i j => (px a i j).1.2);
         mk_ndarray (height a) (width a) (fun i j => (px a i j).2) ].

(** [cv2.merge((r_, g_, b_))] of channels of the same size. *)
Definition cv2_merge (r_ g_ b_ : ndarray Z) : ndarray pixel :=
  mk_ndarray (height r_) (width r_) (fun i j => (px r_ i j, px g_ i j, px b_ i j)).

(** Converts RGBA to RGB, GRAY and HSV.  Unpacking the channels into four
    names raises ValueError when there are not four. *)
Definition construct_colored_wsi `{OpenCV} (rgba_ : ndarray rgba_pixel)
  : result (ndarray pixel * ndarray Z * ndarray pixel) :=
  match cv2_split rgba_ with
  | [r_; g_; b_; a_] =>
      let wsi_rgb_ := cv2_merge r_ g_ b_ in
      wsi_gray_ ← cv2_cvtColor_RGB2GRAY wsi_rgb_;
      wsi_hsv_ ← cv2_cvtColor_RGB2HSV wsi_rgb_;
      Ok (wsi_rgb_, wsi_gray_, wsi_hsv_)
  | _ => Raise ValueError
  end.

(** [cv2.inRange(a, lower_, upper_)] *)
Definition cv2_inRange (a : ndarray pixel) (lower_ upper_ : pixel) : ndarray Z :=
  let '(l0, l1, l2) := lower_ in
  let '(u0, u1, u2) := upper_ in
  mk_ndarray (height a) (width a)
    (fun i j =>
       let '(h, s, v) := px a i j in
       if (l0 <=? h) && (h <=? u0) && (l1 <=? s) && (s <=? u1)
          && (l2 <=? v) && (v <=? u2)
       then 255 else 0).

(** [np.zeros(shape, np.uint8)] for a three-channel shape. *)
Definition np_zeros (shp : Z * Z * Z) : ndarray pixel :=
  let '(h, w, _) := shp in
  mk_ndarray (Z.to_nat h) (Z.to_nat w) (fun _ _ => (0, 0, 0)).

Definition get_contours `{OpenCV} (cont_img : ndarray Z)
    (rgb_image_shape : Z * Z * Z)
  : result (list rect * list contour * list contour * ndarray pixel) :=
  let contours := cv2_findContours cont_img in
  boundingBoxes ← mapM cv2_boundingRect contours;
  let contour_coords := np_squeeze <$> contours in
  let mask := np_zeros rgb_image_shape in
  let mask := cv2_drawContours mask contours
                (PIXEL_WHITE, PIXEL_WHITE, PIXEL_WHITE) in
  Ok (boundingBoxes, contour_coords, contours, mask).

(** Performs the segmentation and gets the contours. *)
Definition segmentation_hsv `{OpenCV} (wsi_hsv_ wsi_rgb_ : ndarray pixel)
  : result (list rect * list contour * list contour * ndarray pixel) :=
  let lower_ := (20, 20, 20) in
  let upper_ := (200, 200, 200) in
  let thresh := cv2_inRange wsi_hsv_ lower_ upper_ in
  let image_close := cv2_morphologyEx thresh MORPH_CLOSE 15 in
  let image_open := cv2_morphologyEx image_close MORPH_OPEN 5 in
  get_contours image_open (shape wsi_rgb_).

(** ** save_to_disk *)

(** [tumor_dict[coord]] *)
Definition dict_get (tumor_dict : gmap (Z * Z) Q) (coord : Z * Z) : result Q :=
  match tumor_dict !! coord with
  | Some v => Ok v
  | None => Raise KeyError
  end.

(** The table with columns coord_x, coord_y, tumor_area and tumor_%. *)
Fixpoint data_frame (xs ys : list Z) (areas pcts : list Q) : list csv_row :=
  match xs, ys, areas, pcts with
  | x :: xs', y :: ys', a :: areas', p :: pcts' =>
      mk_csv_row x y a p :: data_frame xs' ys' areas' pcts'
  | _, _, _, _ => []
  end.

(** [enumerate(l)] *)
Definition enumerate {A : Type} (l : list A) : list (Z * A) :=
  zip (Z.of_nat <$> seq 0 (length l)) l.

Definition save_to_disk (patches : list (ndarray pixel))
    (patches_coords : list (Z * Z)) (tumor_dict : option (gmap (Z * Z) Q))
    (mask : ndarray pixel) (slide_ : string) (level : Z)
    (current_section : string) : io unit :=
  let case_name :=
    List.hd "" (py_split "." (List.last (py_split "/" slide_) "")) in
  let prefix_dir := "./dataset_patches/" +:+ case_name
                    +:+ "/level" +:+ pretty level +:+ "/" +:+ current_section +:+ "/" in
  let patch_array_dst := "./dataset_patches/" +:+ case_name
                    +:+ "/level" +:+ pretty level +:+ "/" +:+ current_section
                    +:+ "/patches/" in
  let patch_coords_dst := "./dataset_patches/" +:+ case_name
                    +:+ "/level" +:+ pretty level +:+ "/" +:+ current_section +:+ "/" in
  let array_file := patch_array_dst +:+ "patch_" in
  let coords_file := patch_coords_dst +:+ "patch_coords" +:+ current_section
                     +:+ ".csv" in
  let mask_file := patch_coords_dst +:+ "mask" in
  e ← os_path_exists patch_array_dst;
  _ ← (if negb e then os_makedirs patch_array_dst else mret tt);
  e ← os_path_exists prefix_dir;
  _ ← (if negb e then os_makedirs prefix_dir else mret tt);
  let coord_x := fst <$> patches_coords in
  let coord_y := snd <$> patches_coords in
  '(tumor_area, tumor_pct) ←
    lift (match tumor_dict with
          | None =>
              Ok ((fun _ => 0%Q) <$> patches_coords,
                  (fun _ => 0%Q) <$> patches_coords)
          | Some tumor_dict =>
              tumor_area ← mapM (dict_get tumor_dict) patches_coords;
              tumor_pct ←
                mapM (fun coord =>
                        v ← dict_get tumor_dict coord;
                        Ok (v / inject_Z (PATCH_SIZE * PATCH_SIZE))%Q)
                     patches_coords;
              Ok (tumor_area, tumor_pct)
          end);
  _ ← write_file coords_file
        (Csv (data_frame coord_x coord_y tumor_area tumor_pct));
  _ ← foldM_io (fun _ '(i, patch_) =>
                  '(x_, y_) ← lift (py_index patches_coords i);
                  let patch_name := array_file +:+ pretty i +:+ "_"
                                    +:+ pretty x_ +:+ "_" +:+ pretty y_ in
                  _ ← write_file (patch_name +:+ ".npy") (Npy [patch_]);
                  write_file (patch_name +:+ ".jpeg") (Jpeg patch_))
               tt (enumerate patches);
  let patch_whole := prefix_dir +:+ "patch_whole" +:+ current_section in
  _ ← write_file (patch_whole +:+ ".npy") (Npy patches);
  write_file (mask_file +:+ ".npy") (Npy [mask]).

(** ** extract_all: the whole pipeline *)

Definition section_list : list string :=
  [ "00"; "01"; "02"; "03";
    "10"; "11"; "12"; "13";
    "20"; "21"; "22"; "23";
    "30"; "31"; "32"; "33" ]%string.

(** Evaluating the call
    [parse_annotation(anno_path + anno_sample, wsi_obj, sect, level, mag_factor)]
    inside extract_all (lines 633-635): the function and the arguments are
    read from left to right; [sect] is a local of extract_all that only the
    loop further down assigns. *)
Definition extract_all_parse_annotation : result annotation :=
  _ ← load_global "parse_annotation";
  _ ← load_global "anno_path";
  _ ← load_global "anno_sample";
  Raise (UnboundLocalError "sect").

(** Evaluating the call [calc_tumorArea(polygon_list, patches_coords)]
    (line 668): the module binds no such name. *)
Definition extract_all_calc_tumorArea : result (gmap (Z * Z) Q) :=
  _ ← load_global "calc_tumorArea";
  Raise (NameError "calc_tumorArea").

Definition extract_all `{OpenCV} `{Files} (slide_path : string)
    (level mag_factor : Z) (pnflag : bool) : io (list (list (ndarray pixel))) :=
  let patches_all := [] in
  wsi_obj ← lift (openSlide_init slide_path level);
  polygons ← (if pnflag then lift (Some <$> extract_all_parse_annotation)
              else mret None);
  foldM_io
    (fun patches_all sect =>
       rgba_image ← read_wsi wsi_obj level mag_factor sect;
       '(wsi_rgb_, wsi_gray_, wsi_hsv_) ← lift (construct_colored_wsi rgba_image);
       '(bounding_boxes, contour_coords, contours, mask) ←
         lift (segmentation_hsv wsi_hsv_ wsi_rgb_);
       b ← lift (construct_bags wsi_obj wsi_rgb_ contours mask
                                level mag_factor PATCH_SIZE sect);
       if negb (Nat.eqb (length (patches b)) 0) then
         let patches_all := patches_all ++ [patches b] in
         tumor_dict ← (if pnflag then lift (Some <$> extract_all_calc_tumorArea)
                       else mret None);
         _ ← save_to_disk (patches b) (patches_coords b) tumor_dict mask
                          slide_path level sect;
         mret patches_all
       else mret patches_all)
    patches_all section_list.

(** ** Vocabulary of the statements *)

(** The PATCH_SIZE-by-PATCH_SIZE block sliced at corner (x, y). *)
Definition window {A : Type} (a : ndarray A) (PATCH_SIZE x y : Z) : ndarray A :=
  slice2 a y (y + PATCH_SIZE) x (x + PATCH_SIZE).

(** The number of pixels of a mask block that the mask covers. *)
Definition mask_covered (m : ndarray pixel) : Z :=
  count_px (fun '(r, g, b) => negb ((r =? 0) && (g =? 0) && (b =? 0))) m.

(** The acceptance rule: the AND of the two blocks exists, its gray
    conversion has at least half of PATCH_SIZE squared non-zero pixels, and
    the RGB block has the full shape. *)
Definition accepted `{OpenCV} (wsi_rgb mask : ndarray pixel)
    (PATCH_SIZE x y : Z) : Prop :=
  exists bitwise_ bitwise_grey,
    cv2_bitwise_and (window wsi_rgb PATCH_SIZE x y) (window mask PATCH_SIZE x y)
      = Ok bitwise_
    /\ cv2_cvtColor_RGB2GRAY bitwise_ = Ok bitwise_grey
    /\ PATCH_SIZE * PATCH_SIZE <= 2 * cv2_countNonZero bitwise_grey
    /\ shape (window wsi_rgb PATCH_SIZE x y) = (PATCH_SIZE, PATCH_SIZE, 3).

(** The same rule as a test. *)
Definition accepts `{OpenCV} (wsi_rgb mask : ndarray pixel) (PATCH_SIZE : Z)
    (c : Z * Z) : bool :=
  match cv2_bitwise_and (window wsi_rgb PATCH_SIZE c.1 c.2)
                        (window mask PATCH_SIZE c.1 c.2) with
  | Raise _ => false
  | Ok bitwise_ =>
      match cv2_cvtColor_RGB2GRAY bitwise_ with
      | Raise _ => false
      | Ok bitwise_grey =>
          enough_white (cv2_countNonZero bitwise_grey) PATCH_SIZE
          && shape_eqb (shape (window wsi_rgb PATCH_SIZE c.1 c.2))
                       (PATCH_SIZE, PATCH_SIZE, CHANNEL)
      end
  end.

(** A block is clipped when the RGB block or the mask block lacks the full
    shape. *)
Definition clipped (wsi_rgb mask : ndarray pixel) (PATCH_SIZE x y : Z) : Prop :=
  shape (window wsi_rgb PATCH_SIZE x y) <> (PATCH_SIZE, PATCH_SIZE, 3)
  \/ shape (window mask PATCH_SIZE x y) <> (PATCH_SIZE, PATCH_SIZE, 3).

(** The corners (x, y) in the order of the loops: [y] outside, [x] inside. *)
Definition corners (X Y : list Z) : list (Z * Z) :=
  y ← Y; x ← X; [(x, y)].

(** The corners that construct_bags enumerates for one region, and for a
    list of regions. *)
Definition region_corners `{OpenCV} (PATCH_SIZE : Z) (box_ : contour)
  : result (list (Z * Z)) :=
  '(b0, b1, b2, b3) ← cv2_boundingRect (np_squeeze box_);
  X ← np_arange b0 (b0 + b2) (PATCH_SIZE `div` 2);
  Y ← np_arange b1 (b1 + b3) (PATCH_SIZE `div` 2);
  Ok (corners X Y).

Fixpoint regions_corners `{OpenCV} (PATCH_SIZE : Z) (regions : list contour)
  : result (list (Z * Z)) :=
  match regions with
  | [] => Ok []
  | box_ :: regions' =>
      cs ← region_corners PATCH_SIZE box_;
      cs' ← regions_corners PATCH_SIZE regions';
      Ok (cs ++ cs')
  end.

(** The regions that construct_bags keeps. *)
Definition kept_regions `{OpenCV} (contours : list contour) : list contour :=
  take 5 (sorted_reverse cv2_contourArea contours).

Definition shift (delta_x delta_y : Z) (c : Z * Z) : Z * Z :=
  (c.1 + delta_x, c.2 + delta_y).

(** The bags made of the blocks at the corners [ls]. *)
Definition bags_of (wsi_rgb : ndarray pixel) (PATCH_SIZE delta_x delta_y : Z)
    (ls : list (Z * Z)) : bags :=
  mk_bags ((fun c => window wsi_rgb PATCH_SIZE c.1 c.2) <$> ls)
          (shift delta_x delta_y <$> ls)
          ls.

Definition bags_app (b1 b2 : bags) : bags :=
  mk_bags (patches b1 ++ patches b2)
          (patches_coords b1 ++ patches_coords b2)
          (patches_coords_local b1 ++ patches_coords_local b2).

(** The number of contours that the ranking puts before [c], when [c]
    stands between [l1] and [l2] in the list of contours. *)
Definition rank_before `{OpenCV} (l1 : list contour) (c : contour)
    (l2 : list contour) : nat :=
  length (List.filter (fun a => Qle_bool (cv2_contourArea c) (cv2_contourArea a)) l1)
  + length (List.filter (fun a => negb (Qle_bool (cv2_contourArea a) (cv2_contourArea c))) l2).

(** ** Example data

    A slide whose level 1 is 2000 by 2000 (sections of 500 by 500), a
    section image with tissue in its bottom-right corner, contours given as
    point lists, and an annotation document. *)

Definition ex_polygon_sum (c : list (Z * Z)) : Z :=
  match c with
  | [] => 0
  | p0 :: _ =>
      (fix go (l : list (Z * Z)) : Z :=
         match l with
         | [] => 0
         | [p] => p.1 * p0.2 - p0.1 * p.2
         | p :: ((q :: _) as l') => p.1 * q.2 - q.1 * p.2 + go l'
         end) c
  end.

Definition ex_boundingRect (c : list (Z * Z)) : result rect :=
  match c with
  | [] => Ok (0, 0, 0, 0)
  | p0 :: c' =>
      let xmin := foldr (fun p m => Z.min p.1 m) p0.1 c' in
      let ymin := foldr (fun p m => Z.min p.2 m) p0.2 c' in
      let xmax := foldr (fun p m => Z.max p.1 m) p0.1 c' in
      let ymax := foldr (fun p m => Z.max p.2 m) p0.2 c' in
      Ok (xmin, ymin, xmax - xmin + 1, ymax - ymin + 1)
  end.

Definition ex_cv : OpenCV := {|
  contour := list (Z * Z);
  np_squeeze := fun c => c;
  cv2_contourArea := fun c => Qabs (ex_polygon_sum c # 2);
  cv2_boundingRect := ex_boundingRect;
  cv2_RGB2HSV := fun p => p;
  cv2_morphologyEx := fun a _ _ => a;
  cv2_findContours := fun _ => [];
  cv2_drawContours := fun m _ _ => m;
  cv2_bitwise_and_unequal := fun _ _ => Raise cv2_error
|}.

(** The square contour with corner (x, y) and side [s]. *)
Definition ex_square (x y s : Z) : list (Z * Z) :=
  [(x, y); (x, y + s - 1); (x + s - 1, y + s - 1); (x + s - 1, y)].

Definition ex_slide : slide :=
  mk_slide [(4000, 4000); (2000, 2000)]
           (fun _ _ size =>
              Ok (mk_ndarray (Z.to_nat size.2) (Z.to_nat size.1)
                             (fun _ _ => (200, 180, 160, 255)))).

Definition ex_rgb : ndarray pixel :=
  mk_ndarray 500 500 (fun _ _ => (200, 180, 160)).

Definition ex_mask : ndarray pixel :=
  mk_ndarray 500 500
    (fun i j => if (494 <=? Z.of_nat i) && (494 <=? Z.of_nat j)
                then (255, 255, 255) else (0, 0, 0)).

Definition ex_contours : list (list (Z * Z)) := [ex_square 494 494 6].


Definition ex_five_contours : list (list (Z * Z)) :=
  [ ex_square 10 10 9; ex_square 30 10 8; ex_square 50 10 7;
    ex_square 70 10 6; ex_square 90 10 5 ].

Definition ex_six_contours : list (list (Z * Z)) :=
  ex_five_contours ++ [ex_square 494 494 4].

Definition ex_doc : list (list coor) :=
  [ [ mk_coor (Numeric (800 # 1)) (Numeric (800 # 1));
      mk_coor (Numeric (2401 # 2)) (Numeric (801 # 1));
      mk_coor (Numeric (1000 # 1)) (Numeric (1300 # 1)) ];
    [ mk_coor (Numeric (10 # 1)) (Numeric (10 # 1));
      mk_coor (Numeric (1500 # 1)) (Numeric (20 # 1)) ] ].

Definition ex_files : Files := {|
  OpenSlide := fun path =>
    if String.eqb path "slide.tif" then Ok ex_slide
    else Raise OpenSlideUnsupportedFormatError;
  ET_ElementTree := fun path =>
    if String.eqb path "anno.xml" then Ok ex_doc else Raise OSError
|}.

Definition ex_world : world := mk_world ∅ [] [].

(** A window raises exactly when the AND succeeds and gives no array: the
    gray conversion then has no source. *)
Definition window_raises `{OpenCV} (wsi_rgb mask : ndarray pixel)
    (PATCH_SIZE : Z) (c : Z * Z) : bool :=
  match cv2_bitwise_and (window wsi_rgb PATCH_SIZE c.1 c.2)
                        (window mask PATCH_SIZE c.1 c.2) with
  | Raise _ => false
  | Ok bitwise_ => is_empty bitwise_
  end.

(** The count of the acceptance rule written out for aligned blocks: the
    positions of the block at which the AND of the RGB pixel and the mask
    pixel has a gray value other than zero. *)
Definition covered_count (wsi_rgb mask : ndarray pixel) (PATCH_SIZE x y : Z)
  : Z :=
  let patch_arr := window wsi_rgb PATCH_SIZE x y in
  let patch_mask_arr := window mask PATCH_SIZE x y in
  count_px (fun p => negb (rgb2gray p =? 0))
           (mk_ndarray (height patch_arr) (width patch_arr)
              (fun i j => pixel_and (px patch_arr i j) (px patch_mask_arr i j))).


(** The grid of a bounding box: the points of [X] and [Y] are those of step
    [PATCH_SIZE // 2] from the corner of the box to its far sides. *)
Definition grid_of (PATCH_SIZE : Z) (box : rect) (X Y : list Z) : Prop :=
  let '(bx, by_, bw, bh) := box in
  np_arange bx (bx + bw) (PATCH_SIZE `div` 2) = Ok X
  /\ np_arange by_ (by_ + bh) (PATCH_SIZE `div` 2) = Ok Y
  /\ NoDup X /\ NoDup Y
  /\ (forall x, x ∈ X <->
         exists k, 0 <= k /\ x = bx + k * (PATCH_SIZE `div` 2) /\ x < bx + bw)
  /\ (forall y, y ∈ Y <->
         exists k, 0 <= k /\ y = by_ + k * (PATCH_SIZE `div` 2) /\ y < by_ + bh).

(** A list ranked by descending key. *)
Definition descending {A : Type} (key : A -> Q) (l : list A) : Prop :=
  StronglySorted (fun a b => Qle_bool (key b) (key a) = true) l.

(** A document whose attributes are all numeric, from the (X, Y) pairs of
    its groups. *)
Definition numeric_doc (pts : list (list (Q * Q))) : list (list coor) :=
  (fun group : list (Q * Q) =>
     (fun p : Q * Q => mk_coor (Numeric p.1) (Numeric p.2)) <$> group) <$> pts.

(** A point in the chosen level: each coordinate truncated, divided by the
    magnification factor and truncated again. *)
Definition level_point (mag_factor : Z) (p : Q * Q) : Z * Z :=
  (Z.quot (int_of_float p.1) mag_factor, Z.quot (int_of_float p.2) mag_factor).

(** An integer that is a float: at most 53 significant bits.  The integer
    part of every float is one. *)
Definition float_integer (z : Z) : Prop :=
  exists m e, Z.abs m < 2 ^ 53 /\ 0 <= e /\ z = m * 2 ^ e.

(** The float division of [x] by the scale factor loses nothing that the
    truncation after it keeps: [x] is below 2 ^ 53, or [x] is a float and
    the scale factor is a power of two, 2 ^ level. *)
Definition exact_quotient (x mag_factor : Z) : Prop :=
  Z.abs x < 2 ^ 53
  \/ (float_integer x /\ exists level, 0 <= level /\ mag_factor = 2 ^ level).

(** A component that falls before the section becomes -1. *)
Definition sentinel (v : Z) : Z := if v <? 0 then -1 else v.

Definition local_point (delta_x delta_y : Z) (g : Z * Z) : Z * Z :=
  (sentinel (g.1 - delta_x), sentinel (g.2 - delta_y)).

(** A group has more than two points. *)
Definition more_than_two (group : list (Z * Z)) : bool :=
  2 <? Z.of_nat (length group).

(** The points of parsed groups in the chosen level, and in the section. *)
Definition globals_of (groups : list (list ((Z * Z) * (Z * Z))))
  : list (list (Z * Z)) :=
  (fun prs : list ((Z * Z) * (Z * Z)) => prs.*1) <$> groups.

Definition locals_of (groups : list (list ((Z * Z) * (Z * Z))))
  : list (list (Z * Z)) :=
  (fun prs : list ((Z * Z) * (Z * Z)) => prs.*2) <$> groups.

(** The (X, Y) pairs of a numeric document in the chosen level, and in the
    section of offset (delta_x, delta_y). *)
Definition level_points (mag_factor : Z) (pts : list (list (Q * Q)))
  : list (list (Z * Z)) :=
  (fun group : list (Q * Q) => level_point mag_factor <$> group) <$> pts.

Definition local_points (mag_factor delta_x delta_y : Z)
    (pts : list (list (Q * Q))) : list (list (Z * Z)) :=
  (fun group : list (Q * Q) =>
     (fun p => local_point delta_x delta_y (level_point mag_factor p)) <$> group)
    <$> pts.

(** The coordinate tables written so far, oldest first. *)
Definition csv_written (w : world) : list (list csv_row) :=
  omap (fun f : string * file_data =>
          match f.2 with
          | Csv rows => Some rows
          | _ => None
          end) (files w).

(** The record of a patch coordinate when an absent entry of the mapping
    counts as zero overlap. *)
Definition record_with_default (tumor_dict : gmap (Z * Z) Q) (coord : Z * Z)
  : csv_row :=
  let area := default 0%Q (tumor_dict !! coord) in
  mk_csv_row coord.1 coord.2 area (area / inject_Z (PATCH_SIZE * PATCH_SIZE))%Q.

(** The record of a patch coordinate of a slide without annotation. *)
Definition record_without_annotation (coord : Z * Z) : csv_row :=
  mk_csv_row coord.1 coord.2 0%Q 0%Q.


(** ** Vocabulary of the further properties *)

(** The name of the section in column [col] and row [row] of the grid. *)
Definition sect_of (col row : Z) : string :=
  String (ascii_of_N (Z.to_N (48 + col)))
         (String (ascii_of_N (Z.to_N (48 + row))) EmptyString).

(** The pixel (x, y) of the level lies in the section of size (ws, hs) and
    offset (dx, dy). *)
Definition in_section (ws hs dx dy x y : Z) : Prop :=
  dx <= x < dx + ws /\ dy <= y < dy + hs.

(** An 8-bit channel value, and a pixel of 8-bit channels. *)
Definition is_byte (z : Z) : Prop := 0 <= z <= 255.

Definition byte_pixel (p : pixel) : Prop :=
  is_byte p.1.1 /\ is_byte p.1.2 /\ is_byte p.2.

(** A mask of black and white pixels only, as drawContours fills it. *)
Definition binary_mask (mask : ndarray pixel) : Prop :=
  forall i j, px mask i j = (0, 0, 0)
              \/ px mask i j = (PIXEL_WHITE, PIXEL_WHITE, PIXEL_WHITE).

(** Both attributes of a coordinate element are numbers. *)
Definition numeric_coor (c : coor) : Prop :=
  exists qx qy, attrib_X c = Numeric qx /\ attrib_Y c = Numeric qy.

(** The names that save_to_disk builds from its arguments. *)
Definition case_name (slide_ : string) : string :=
  List.hd "" (py_split "." (List.last (py_split "/" slide_) "")).

Definition prefix_dir (slide_ : string) (level : Z) (current_section : string)
  : string :=
  "./dataset_patches/" +:+ case_name slide_
  +:+ "/level" +:+ pretty level +:+ "/" +:+ current_section +:+ "/".

Definition patch_array_dst (slide_ : string) (level : Z)
    (current_section : string) : string :=
  "./dataset_patches/" +:+ case_name slide_
  +:+ "/level" +:+ pretty level +:+ "/" +:+ current_section +:+ "/patches/".

(** The two files of patch number [i] at coordinate [c]. *)
Definition patch_files (array_file : string) (i : nat) (patch_ : ndarray pixel)
    (c : Z * Z) : list (string * file_data) :=
  let patch_name := array_file +:+ pretty (Z.of_nat i) +:+ "_"
                    +:+ pretty c.1 +:+ "_" +:+ pretty c.2 in
  [(patch_name +:+ ".npy", Npy [patch_]); (patch_name +:+ ".jpeg", Jpeg patch_)].

(** The files of the patches that have a coordinate, numbered from [i]. *)
Fixpoint saved_patches (array_file : string) (i : nat)
    (patches : list (ndarray pixel)) (coords : list (Z * Z))
  : list (string * file_data) :=
  match patches, coords with
  | patch_ :: patches', c :: coords' =>
      patch_files array_file i patch_ c
      ++ saved_patches array_file (S i) patches' coords'
  | _, _ => []
  end.

(** The table that save_to_disk writes when every lookup succeeds. *)
Definition table_of (tumor_dict : option (gmap (Z * Z) Q))
    (coords : list (Z * Z)) : list csv_row :=
  match tumor_dict with
  | None => record_without_annotation <$> coords
  | Some d => record_with_default d <$> coords
  end.

(** File [name] lies under directory [dir]. *)
Definition under (dir : string) (name : string) : Prop :=
  exists rest, name = dir +:+ rest.

(** Character [c] occurs in string [s]. *)
Fixpoint has_char (c : ascii) (s : string) : bool :=
  match s with
  | EmptyString => false
  | String c' s' => Ascii.eqb c' c || has_char c s'
  end.

(** Computation [m] keeps the property [I] of the world, whether it returns
    or raises. *)
Definition keeps {A : Type} (I : world -> Prop) (m : io A) : Prop :=
  forall w, I w -> I (m w).2.

(** What save_to_disk leaves of the world [w] it started in: the
    directories of [w], the two output directories, the files of [w]
    followed by files under the output directory, and the same slide
    reads. *)
Definition saved_from (slide_ : string) (level : Z) (current_section : string)
    (w w' : world) : Prop :=
  dirs w ⊆ dirs w'
  /\ prefix_dir slide_ level current_section ∈ dirs w'
  /\ patch_array_dst slide_ level current_section ∈ dirs w'
  /\ region_reads w' = region_reads w
  /\ exists new,
       files w' = files w ++ new
       /\ Forall (fun f => under (prefix_dir slide_ level current_section) f.1)
                 new.

(** The body of the loop of extract_all over the sections (lines 639-681),
    for the slide object [wsi_obj] that openSlide_init returned. *)
Definition section_step `{OpenCV} (wsi_obj : option slide) (slide_path : string)
    (level mag_factor : Z) (pnflag : bool)
    (patches_all : list (list (ndarray pixel))) (sect : string)
  : io (list (list (ndarray pixel))) :=
  rgba_image ← read_wsi wsi_obj level mag_factor sect;
  '(wsi_rgb_, wsi_gray_, wsi_hsv_) ← lift (construct_colored_wsi rgba_image);
  '(bounding_boxes, contour_coords, contours, mask) ←
    lift (segmentation_hsv wsi_hsv_ wsi_rgb_);
  b ← lift (construct_bags wsi_obj wsi_rgb_ contours mask
                           level mag_factor PATCH_SIZE sect);
  if negb (Nat.eqb (length (patches b)) 0) then
    let patches_all := patches_all ++ [patches b] in
    tumor_dict ← (if pnflag then lift (Some <$> extract_all_calc_tumorArea)
                  else mret None);
    _ ← save_to_disk (patches b) (patches_coords b) tumor_dict mask
                     slide_path level sect;
    mret patches_all
  else mret patches_all.

(** The region of the section in column [col] and row [row] of a level of
    dimensions ([Wd], [Ht]): location in level 0, level, size. *)
Definition section_region (Wd Ht level mag_factor : Z) (cr : Z * Z)
  : (Z * Z) * Z * (Z * Z) :=
  ((cr.1 * (Wd `div` SPLIT) * mag_factor, cr.2 * (Ht `div` SPLIT) * mag_factor),
   level, (Wd `div` SPLIT, Ht `div` SPLIT)).

(** The columns and rows of the sections, in the order of section_list. *)
Definition section_grid : list (Z * Z) :=
  col ← seqZ 0 SPLIT; row ← seqZ 0 SPLIT; [(col, row)].

(** What a run of extract_all on a slide without annotation that returned
    [r] has done to the world [w] it started in: no entry of [r] is empty,
    the files of [w] are followed by 2 n + 3 new files for each entry of n
    patches, and by one coordinate table of n records with no tumor. *)
Definition run_summary (w : world) (r : list (list (ndarray pixel)))
    (w' : world) : Prop :=
  Forall (fun ps => ps <> []) r
  /\ (exists new,
        files w' = files w ++ new
        /\ length new = sum_list ((fun ps => 2 * length ps + 3)%nat <$> r))
  /\ exists tables,
       csv_written w' = csv_written w ++ tables
       /\ Forall2 (fun (ps : list (ndarray pixel)) (rows : list csv_row) =>
                     length rows = length ps
                     /\ Forall (fun row => tumor_area row = 0%Q
                                           /\ tumor_pct row = 0%Q) rows)
                  r tables.

(** A slide with tissue in its first section only, and contour primitives
    that find one region of 250 by 250 where the thresholded image is set at
    its first pixel. *)
Definition ex_slide_tissue : slide :=
  mk_slide [(4000, 4000); (2000, 2000)]
           (fun location _ size =>
              Ok (mk_ndarray (Z.to_nat size.2) (Z.to_nat size.1)
                    (fun _ _ => if (location.1 =? 0) && (location.2 =? 0)
                                then (200, 180, 160, 255)
                                else (255, 255, 255, 255)))).

Definition ex_cv_tissue : OpenCV := {|
  contour := list (Z * Z);
  np_squeeze := fun c => c;
  cv2_contourArea := fun c => Qabs (ex_polygon_sum c # 2);
  cv2_boundingRect := ex_boundingRect;
  cv2_RGB2HSV := fun p => p;
  cv2_morphologyEx := fun a _ _ => a;
  cv2_findContours := fun a =>
    if nonzero (px a 0%nat 0%nat) then [ex_square 0 0 250] else [];
  cv2_drawContours := fun m cs color =>
    match cs with
    | [] => m
    | _ => mk_ndarray (height m) (width m) (fun _ _ => color)
    end;
  cv2_bitwise_and_unequal := fun _ _ => Raise cv2_error
|}.

Definition ex_files_tissue : Files := {|
  OpenSlide := fun path =>
    if String.eqb path "tissue.tif" then Ok ex_slide_tissue
    else Raise OpenSlideUnsupportedFormatError;
  ET_ElementTree := fun _ => Raise OSError
|}.

(** * Properties *)

(** ** The result monad and its loops *)

Lemma bind_Ok_inv {A B : Type} (m : result A) (f : A -> result B) (b : B) :
  m ≫= f = Ok b -> exists a, m = Ok a /\ f a = Ok b.
Proof. destruct m as [a|e]; simpl; [eauto | discriminate]. Qed.

Lemma foldM_app {A B : Type} (body : A -> B -> result A) (acc : A) (l1 l2 : list B) :
  foldM body acc (l1 ++ l2) = foldM body acc l1 ≫= fun acc' => foldM body acc' l2.
Proof.
  revert acc. induction l1 as [|x l1 IH]; intros acc; simpl; [done|].
  destruct (body acc x) as [acc'|e]; simpl; [apply IH | done].
Qed.

Lemma corners_cons (X : list Z) (y : Z) (Y : list Z) :
  corners X (y :: Y) = ((fun x => (x, y)) <$> X) ++ corners X Y.
Proof.
  unfold corners. simpl. f_equal.
Qed.

Lemma foldM_corners {A : Type} (f : A -> Z -> Z -> result A) (acc : A) (X Y : list Z) :
  foldM (fun acc y => foldM (fun acc x => f acc y x) acc X) acc Y
  = foldM (fun acc c => f acc c.2 c.1) acc (corners X Y).
Proof.
  revert acc. induction Y as [|y Y IH]; intros acc; [done|].
  rewrite corners_cons, foldM_app. simpl.
  assert (E : forall a, foldM (fun acc x => f acc y x) a X
              = foldM (fun acc c => f acc c.2 c.1) a ((fun x => (x, y)) <$> X)).
  { clear. induction X as [|x X IHX]; intros a; simpl; [done|].
    destruct (f a y x); simpl; [apply IHX | done]. }
  rewrite E. destruct (foldM _ acc (_ <$> X)); simpl; [apply IH | done].
Qed.

(** ** Windows *)

Lemma enough_white_spec (c P : Z) : enough_white c P = true <-> P * P <= 2 * c.
Proof.
  unfold enough_white. rewrite Qle_bool_iff. unfold Qle. simpl.
  rewrite Z.pow_2_r. lia.
Qed.

Lemma shape_eqb_spec (s t : Z * Z * Z) : shape_eqb s t = true <-> s = t.
Proof.
  destruct s as [[h w] c], t as [[h' w'] c']. unfold shape_eqb.
  rewrite !andb_true_iff, !Z.eqb_eq. split; [intros [[-> ->] ->]; done | by inversion 1].
Qed.

Lemma sample_window_eq `{cv : OpenCV} wsi_rgb mask P dx dy acc y x :
  sample_window wsi_rgb mask P dx dy acc y x
  = if window_raises wsi_rgb mask P (x, y) then Raise cv2_error
    else Ok (if accepts wsi_rgb mask P (x, y)
             then bags_append acc (window wsi_rgb P x y) (shift dx dy (x, y)) (x, y)
             else acc).
Proof.
  unfold sample_window, window_raises, accepts, shift.
  change (slice2 wsi_rgb y (y + P) x (x + P)) with (window wsi_rgb P x y).
  change (slice2 mask y (y + P) x (x + P)) with (window mask P x y).
  cbn [fst snd].
  destruct (cv2_bitwise_and _ _) as [bw|e]; [|done].
  unfold cv2_cvtColor_RGB2GRAY. destruct (is_empty bw); [done|].
  cbn [mbind result_bind].
  destruct (enough_white _ _); [|done].
  cbn [andb]. destruct (shape_eqb _ _); done.
Qed.

Lemma bags_app_empty (b : bags) wsi_rgb P dx dy :
  bags_app b (bags_of wsi_rgb P dx dy []) = b.
Proof. destruct b; unfold bags_app; simpl. by rewrite !app_nil_r. Qed.

Lemma bags_app_append (b : bags) wsi_rgb P dx dy c ls :
  bags_app (bags_append b (window wsi_rgb P c.1 c.2) (shift dx dy c) c)
           (bags_of wsi_rgb P dx dy ls)
  = bags_app b (bags_of wsi_rgb P dx dy (c :: ls)).
Proof. unfold bags_app, bags_append, bags_of; simpl. by rewrite <- !app_assoc. Qed.

Lemma foldM_windows `{cv : OpenCV} wsi_rgb mask P dx dy acc (cs : list (Z * Z)) :
  foldM (fun acc c => sample_window wsi_rgb mask P dx dy acc c.2 c.1) acc cs
  = if existsb (window_raises wsi_rgb mask P) cs then Raise cv2_error
    else Ok (bags_app acc (bags_of wsi_rgb P dx dy
                                   (List.filter (accepts wsi_rgb mask P) cs))).
Proof.
  revert acc. induction cs as [|[x y] cs IH]; intros acc.
  - simpl. by rewrite bags_app_empty.
  - cbn [foldM existsb List.filter]. rewrite sample_window_eq. cbn [fst snd].
    destruct (window_raises wsi_rgb mask P (x, y)); [done|].
    cbn [mbind result_bind orb]. rewrite IH.
    destruct (existsb _ cs); [done|].
    destruct (accepts wsi_rgb mask P (x, y)); [|done].
    by rewrite (bags_app_append acc wsi_rgb P dx dy (x, y)).
Qed.

(** ** Regions *)

Lemma sample_region_eq `{cv : OpenCV} wsi_rgb mask P dx dy acc box_ :
  sample_region wsi_rgb mask P dx dy acc box_
  = region_corners P box_ ≫= fun cs =>
      foldM (fun acc c => sample_window wsi_rgb mask P dx dy acc c.2 c.1) acc cs.
Proof.
  unfold sample_region, region_corners.
  destruct (cv2_boundingRect (np_squeeze box_)) as [[[[b0 b1] b2] b3]|e]; [|done].
  cbn [mbind result_bind].
  destruct (np_arange b0 _ _) as [X|e]; [|done]. cbn [mbind result_bind].
  destruct (np_arange b1 _ _) as [Y|e]; [|done]. cbn [mbind result_bind].
  apply foldM_corners.
Qed.

Lemma bags_app_assoc_of (b : bags) wsi_rgb P dx dy l1 l2 :
  bags_app (bags_app b (bags_of wsi_rgb P dx dy l1)) (bags_of wsi_rgb P dx dy l2)
  = bags_app b (bags_of wsi_rgb P dx dy (l1 ++ l2)).
Proof.
  unfold bags_app, bags_of; simpl. rewrite !fmap_app, <- !app_assoc. done.
Qed.

Lemma bags_app_empty_l (b : bags) : bags_app bags_empty b = b.
Proof. by destruct b. Qed.

Lemma foldM_regions_Ok `{cv : OpenCV} wsi_rgb mask P dx dy acc regions acc' :
  foldM (sample_region wsi_rgb mask P dx dy) acc regions = Ok acc'
  <-> exists cs, regions_corners P regions = Ok cs
        /\ existsb (window_raises wsi_rgb mask P) cs = false
        /\ acc' = bags_app acc (bags_of wsi_rgb P dx dy
                                  (List.filter (accepts wsi_rgb mask P) cs)).
Proof.
  revert acc acc'. induction regions as [|box_ regions IH]; intros acc acc'.
  - simpl. split.
    + intros [= <-]. exists []. by rewrite bags_app_empty.
    + intros (cs & [= <-] & _ & ->). by rewrite bags_app_empty.
  - cbn [foldM regions_corners]. rewrite sample_region_eq.
    destruct (region_corners P box_) as [cs1|e]; cbn [mbind result_bind].
    2:{ split; [done | intros (cs & ? & _); done]. }
    rewrite foldM_windows.
    destruct (existsb (window_raises wsi_rgb mask P) cs1) eqn:E1.
    { split; [done|]. intros (cs & Hcs & Hr & _).
      destruct (regions_corners P regions); [|done].
      injection Hcs as <-. rewrite existsb_app, E1 in Hr. done. }
    cbn [mbind result_bind]. rewrite IH. split.
    + intros (cs2 & -> & Hr & ->). exists (cs1 ++ cs2). split; [done|].
      rewrite existsb_app, E1, Hr, List.filter_app, bags_app_assoc_of. done.
    + intros (cs & Hcs & Hr & ->).
      destruct (regions_corners P regions) as [cs2|]; [|done].
      injection Hcs as <-. exists cs2. rewrite existsb_app, E1 in Hr.
      rewrite List.filter_app, bags_app_assoc_of. done.
Qed.

Lemma section_delta_Ok wsi_obj level sect ws hs dx dy :
  section_delta wsi_obj level sect = Ok (ws, hs, dx, dy)
  <-> exists W H col row,
        wsi_level_dimensions wsi_obj level = Ok (W, H)
        /\ int_at sect 0 = Ok col /\ int_at sect 1 = Ok row
        /\ ws = W `div` SPLIT /\ hs = H `div` SPLIT
        /\ dx = col * (W `div` SPLIT) /\ dy = row * (H `div` SPLIT).
Proof.
  unfold section_delta.
  destruct (wsi_level_dimensions wsi_obj level) as [[W H]|e]; cbn [mbind result_bind].
  2:{ split; [done | intros (? & ? & ? & ? & ? & _); done]. }
  destruct (int_at sect 0) as [col|e]; cbn [mbind result_bind].
  2:{ split; [done | intros (? & ? & ? & ? & _ & ? & _); done]. }
  destruct (int_at sect 1) as [row|e]; cbn [mbind result_bind].
  2:{ split; [done | intros (? & ? & ? & ? & _ & _ & ? & _); done]. }
  split.
  - intros [= <- <- <- <-]. by exists W, H, col, row.
  - intros (? & ? & ? & ? & [= <- <-] & [= <-] & [= <-] & -> & -> & -> & ->). done.
Qed.

Lemma construct_bags_Ok `{cv : OpenCV} wsi_obj wsi_rgb contours mask level mag P sect b :
  construct_bags wsi_obj wsi_rgb contours mask level mag P sect = Ok b
  <-> exists W H col row cs,
        wsi_level_dimensions wsi_obj level = Ok (W, H)
        /\ int_at sect 0 = Ok col /\ int_at sect 1 = Ok row
        /\ regions_corners P (kept_regions contours) = Ok cs
        /\ existsb (window_raises wsi_rgb mask P) cs = false
        /\ b = bags_of wsi_rgb P (col * (W `div` SPLIT)) (row * (H `div` SPLIT))
                       (List.filter (accepts wsi_rgb mask P) cs).
Proof.
  unfold construct_bags. fold (kept_regions contours).
  destruct (section_delta wsi_obj level sect) as [[[[ws hs] dx] dy]|e] eqn:E;
    cbn [mbind result_bind].
  - apply section_delta_Ok in E as (W & H & col & row & HW & Hc & Hr & -> & -> & -> & ->).
    rewrite foldM_regions_Ok. setoid_rewrite bags_app_empty_l. split.
    + intros (cs & ? & ? & ->). by exists W, H, col, row, cs.
    + intros (W' & H' & col' & row' & cs & HW' & Hc' & Hr' & ? & ? & ->).
      rewrite HW in HW'. rewrite Hc in Hc'. rewrite Hr in Hr'.
      injection HW' as <- <-. injection Hc' as <-. injection Hr' as <-. by exists cs.
  - split; [done|]. intros (W & H & col & row & cs & HW & Hc & Hr & _).
    assert (X : section_delta wsi_obj level sect
                = Ok (W `div` SPLIT, H `div` SPLIT, col * (W `div` SPLIT), row * (H `div` SPLIT))).
    { apply section_delta_Ok. by exists W, H, col, row. }
    congruence.
Qed.

(** ** The sampler: coordinates *)

(** C1.  Every patch that construct_bags records has a global coordinate
    equal to its local coordinate plus the offset of the section, and the
    offset of section (col, row) is (col * (W // SPLIT), row * (H // SPLIT))
    for the dimensions (W, H) of the chosen level. *)
Theorem C1_global_is_local_plus_offset `{cv : OpenCV}
    (wsi_obj : option slide) (wsi_rgb : ndarray pixel) (contours : list contour)
    (mask : ndarray pixel) (level mag_factor P : Z) (sect : string) (b : bags) :
  construct_bags wsi_obj wsi_rgb contours mask level mag_factor P sect = Ok b ->
  exists W H col row,
    wsi_level_dimensions wsi_obj level = Ok (W, H)
    /\ int_at sect 0 = Ok col /\ int_at sect 1 = Ok row
    /\ section_delta wsi_obj level sect
       = Ok (W `div` SPLIT, H `div` SPLIT,
             col * (W `div` SPLIT), row * (H `div` SPLIT))
    /\ Forall2 (fun g l => g = (l.1 + col * (W `div` SPLIT),
                                 l.2 + row * (H `div` SPLIT)))
               (patches_coords b) (patches_coords_local b)
    /\ length (patches b) = length (patches_coords b).
Proof.
  intros Hb. apply construct_bags_Ok in Hb
    as (W & Ht & col & row & cs & HW & Hc & Hr & _ & _ & ->).
  exists W, Ht, col, row. repeat split; try done.
  - apply section_delta_Ok. by exists W, Ht, col, row.
  - simpl. induction (List.filter _ cs) as [|c l IH]; constructor; done.
  - simpl. by rewrite !length_fmap.
Qed.

Lemma C1_witness :
  exists b,
    @construct_bags ex_cv (Some ex_slide) ex_rgb ex_contours ex_mask 1 2 4 "10"
      = Ok b
    /\ patches_coords b = [(994, 494); (996, 494); (994, 496); (996, 496)]
    /\ patches_coords_local b = [(494, 494); (496, 494); (494, 496); (496, 496)]
    /\ exists W H col row,
        wsi_level_dimensions (Some ex_slide) 1 = Ok (W, H)
        /\ int_at "10" 0 = Ok col /\ int_at "10" 1 = Ok row
        /\ section_delta (Some ex_slide) 1 "10"
           = Ok (W `div` SPLIT, H `div` SPLIT,
                 col * (W `div` SPLIT), row * (H `div` SPLIT))
        /\ Forall2 (fun g l => g = (l.1 + col * (W `div` SPLIT),
                                     l.2 + row * (H `div` SPLIT)))
                   (patches_coords b) (patches_coords_local b)
        /\ length (patches b) = length (patches_coords b).
Proof.
  eexists. split; [vm_compute; reflexivity|].
  split; [reflexivity|]. split; [reflexivity|].
  apply (C1_global_is_local_plus_offset (cv := ex_cv) (Some ex_slide) ex_rgb
           ex_contours ex_mask 1 2 4 "10").
  vm_compute. reflexivity.
Defined.

(** ** The sampler: the acceptance rule *)

Lemma accepts_iff `{cv : OpenCV} wsi_rgb mask P x y :
  accepts wsi_rgb mask P (x, y) = true <-> accepted wsi_rgb mask P x y.
Proof.
  unfold accepts, accepted. cbn [fst snd].
  destruct (cv2_bitwise_and _ _) as [bw|e].
  2:{ split; [done | intros (? & ? & ? & _); done]. }
  destruct (cv2_cvtColor_RGB2GRAY bw) as [g|e] eqn:Eg.
  2:{ split; [done | intros (? & ? & [= <-] & ? & _); congruence]. }
  rewrite andb_true_iff, enough_white_spec, shape_eqb_spec. unfold CHANNEL. split.
  - intros [? ?]. by exists bw, g.
  - intros (? & ? & [= <-] & Hg & ? & ?). rewrite Eg in Hg. by injection Hg as <-.
Qed.

Lemma sum_list_with_le {A : Type} (f g : A -> nat) (l : list A) :
  (forall x, x ∈ l -> (f x <= g x)%nat) ->
  (sum_list_with f l <= sum_list_with g l)%nat.
Proof.
  induction l as [|x l IH]; intros Hfg; simpl; [lia|].
  pose proof (Hfg x (list_elem_of_here _ _)).
  assert (sum_list_with f l <= sum_list_with g l)%nat; [|lia].
  apply IH. intros y Hy. apply Hfg. by apply list_elem_of_further.
Qed.

Lemma count_px_mono {A B : Type} (f : A -> bool) (g : B -> bool)
    (a : ndarray A) (b : ndarray B) :
  height a = height b -> width a = width b ->
  (forall i j, f (px a i j) = true -> g (px b i j) = true) ->
  count_px f a <= count_px g b.
Proof.
  intros Hh Hw Hfg. unfold count_px. rewrite Hh, Hw. apply inj_le.
  apply sum_list_with_le. intros i _. apply sum_list_with_le. intros j _.
  specialize (Hfg i j). destruct (f (px a i j)); [rewrite Hfg by done; lia | destruct (g _); lia].
Qed.

Lemma rgb2gray_and_uncovered (p : pixel) : rgb2gray (pixel_and p (0, 0, 0)) = 0.
Proof. destruct p as [[r g] b]. unfold pixel_and. by rewrite !Z.land_0_r. Qed.

(** Blocks of aligned arrays have the same size, and the AND of such blocks
    is the AND of their pixels. *)
Lemma window_same_size {A B : Type} (a : ndarray A) (b : ndarray B) (P x y : Z) :
  height b = height a -> width b = width a ->
  height (window b P x y) = height (window a P x y)
  /\ width (window b P x y) = width (window a P x y).
Proof.
  intros Hh Hw. unfold window, slice2. cbn [height width]. by rewrite Hh, Hw.
Qed.

Lemma cv2_bitwise_and_aligned `{cv : OpenCV} (wsi_rgb mask : ndarray pixel)
    (P x y : Z) :
  height mask = height wsi_rgb -> width mask = width wsi_rgb ->
  cv2_bitwise_and (window wsi_rgb P x y) (window mask P x y)
  = Ok (mk_ndarray (height (window wsi_rgb P x y)) (width (window wsi_rgb P x y))
          (fun i j => pixel_and (px (window wsi_rgb P x y) i j)
                                (px (window mask P x y) i j))).
Proof.
  intros Hh Hw. unfold cv2_bitwise_and.
  destruct (window_same_size wsi_rgb mask P x y Hh Hw) as [-> ->].
  by rewrite !Nat.eqb_refl.
Qed.

(** For aligned arrays the rule is the count written out and the shape
    test. *)
Lemma accepted_aligned `{cv : OpenCV} (wsi_rgb mask : ndarray pixel) (P x y : Z) :
  height mask = height wsi_rgb -> width mask = width wsi_rgb -> P <> 0 ->
  accepted wsi_rgb mask P x y
  <-> shape (window wsi_rgb P x y) = (P, P, 3)
      /\ P * P <= 2 * covered_count wsi_rgb mask P x y.
Proof.
  intros Hh Hw HP. unfold accepted.
  rewrite (cv2_bitwise_and_aligned wsi_rgb mask P x y Hh Hw).
  set (bw := mk_ndarray _ _ _). split.
  - intros (bw' & g & [= <-] & Hg & Hcnt & Hshape). split; [done|].
    unfold cv2_cvtColor_RGB2GRAY in Hg. destruct (is_empty bw); [done|].
    injection Hg as <-. exact Hcnt.
  - intros [Hshape Hcnt]. exists bw.
    assert (Hne : is_empty bw = false).
    { pose proof Hshape as Hsh. unfold shape in Hsh.
      injection Hsh as Hht Hwd.
      unfold is_empty, bw, window, slice2. cbn [height width].
      apply orb_false_iff. split; apply Nat.eqb_neq; lia. }
    eexists. split; [done|]. split.
    { unfold cv2_cvtColor_RGB2GRAY. rewrite Hne. reflexivity. }
    split; [exact Hcnt | exact Hshape].
Qed.

(** The pixels counted by the acceptance rule lie under the mask. *)
Lemma accepted_mask_covered `{cv : OpenCV} (wsi_rgb mask : ndarray pixel)
    (P x y : Z) :
  height mask = height wsi_rgb -> width mask = width wsi_rgb ->
  accepted wsi_rgb mask P x y ->
  P * P <= 2 * mask_covered (window mask P x y).
Proof.
  intros Hh Hw (bw & g & Hand & Hg & Hcnt & _).
  assert (cv2_countNonZero g <= mask_covered (window mask P x y)); [|lia].
  rewrite (cv2_bitwise_and_aligned wsi_rgb mask P x y Hh Hw) in Hand.
  injection Hand as <-.
  destruct (window_same_size wsi_rgb mask P x y Hh Hw) as [Eh Ew].
  unfold cv2_cvtColor_RGB2GRAY in Hg. destruct (is_empty _); [done|].
  injection Hg as <-. unfold cv2_countNonZero, mask_covered.
  apply count_px_mono; simpl; [done..|].
  intros i j. simpl. destruct (px mask _ _) as [[r g'] b'].
  destruct ((r =? 0) && (g' =? 0) && (b' =? 0)) eqn:E0; [|done].
  apply andb_true_iff in E0 as [E0 ?%Z.eqb_eq].
  apply andb_true_iff in E0 as [?%Z.eqb_eq ?%Z.eqb_eq]. subst.
  by rewrite rgb2gray_and_uncovered.
Qed.

(** C2.  A corner that construct_bags enumerates is recorded as a patch if
    and only if the gray conversion of the AND of its RGB block and mask
    block has at least 0.5 * P * P non-zero pixels and the RGB block has
    shape (P, P, 3); every recorded patch is the block at its corner and has
    shape (P, P, 3).  With a mask of the shape of the image the count is
    the number of positions of the block at which the AND of the RGB pixel
    and the mask pixel is not gray 0, and the mask block of a recorded
    patch is covered on at least half of P * P pixels. *)
Theorem C2_acceptance_rule `{cv : OpenCV}
    (wsi_obj : option slide) (wsi_rgb : ndarray pixel) (contours : list contour)
    (mask : ndarray pixel) (level mag_factor P : Z) (sect : string) (b : bags) :
  construct_bags wsi_obj wsi_rgb contours mask level mag_factor P sect = Ok b ->
  exists cs,
    regions_corners P (kept_regions contours) = Ok cs
    /\ patches_coords_local b = List.filter (accepts wsi_rgb mask P) cs
    /\ (forall x y, accepts wsi_rgb mask P (x, y) = true
                    <-> accepted wsi_rgb mask P x y)
    /\ (forall x y, (x, y) ∈ patches_coords_local b
                    <-> (x, y) ∈ cs /\ accepted wsi_rgb mask P x y)
    /\ Forall2 (fun patch_arr c =>
                  patch_arr = window wsi_rgb P c.1 c.2
                  /\ accepted wsi_rgb mask P c.1 c.2
                  /\ shape patch_arr = (P, P, 3))
               (patches b) (patches_coords_local b)
    /\ (height mask = height wsi_rgb -> width mask = width wsi_rgb ->
        (P <> 0 ->
         forall x y,
           accepted wsi_rgb mask P x y
           <-> shape (window wsi_rgb P x y) = (P, P, 3)
               /\ P * P <= 2 * covered_count wsi_rgb mask P x y)
        /\ Forall (fun c => P * P <= 2 * mask_covered (window mask P c.1 c.2))
                  (patches_coords_local b)).
Proof.
  intros Hb. apply construct_bags_Ok in Hb
    as (W & Ht & col & row & cs & _ & _ & _ & Hcs & _ & ->).
  exists cs. cbn [patches patches_coords_local bags_of].
  assert (Hall : Forall (fun c => accepted wsi_rgb mask P c.1 c.2)
                        (List.filter (accepts wsi_rgb mask P) cs)).
  { apply Forall_forall. intros [x y] Hin%list_elem_of_In.
    apply List.filter_In in Hin as [_ Hin]. by apply accepts_iff. }
  split; [done|]. split; [done|]. split; [intros; apply accepts_iff|].
  split; [|split].
  - intros x y. rewrite !list_elem_of_In, List.filter_In, accepts_iff. done.
  - induction Hall as [|c l Hc Hl IH]; constructor; [|done].
    split; [done|]. split; [done|].
    by destruct Hc as (? & ? & _ & _ & _ & ?).
  - intros Hh Hw. split.
    + intros HP x y. by apply accepted_aligned.
    + eapply Forall_impl; [exact Hall|]. intros c Hc. cbn in Hc.
      by apply (accepted_mask_covered wsi_rgb).
Qed.

Lemma C2_witness :
  exists b,
    @construct_bags ex_cv (Some ex_slide) ex_rgb ex_contours ex_mask 1 2 4 "10"
      = Ok b
    /\ patches_coords_local b = [(494, 494); (496, 494); (494, 496); (496, 496)]
    /\ covered_count ex_rgb ex_mask 4 494 494 = 16
    /\ exists cs,
        @regions_corners ex_cv 4 (@kept_regions ex_cv ex_contours) = Ok cs
        /\ patches_coords_local b = List.filter (@accepts ex_cv ex_rgb ex_mask 4) cs
        /\ (forall x y, @accepts ex_cv ex_rgb ex_mask 4 (x, y) = true
                        <-> @accepted ex_cv ex_rgb ex_mask 4 x y)
        /\ (forall x y, (x, y) ∈ patches_coords_local b
                        <-> (x, y) ∈ cs /\ @accepted ex_cv ex_rgb ex_mask 4 x y)
        /\ Forall2 (fun patch_arr c =>
                      patch_arr = window ex_rgb 4 c.1 c.2
                      /\ @accepted ex_cv ex_rgb ex_mask 4 c.1 c.2
                      /\ shape patch_arr = (4, 4, 3))
                   (patches b) (patches_coords_local b)
        /\ (height ex_mask = height ex_rgb -> width ex_mask = width ex_rgb ->
            (4 <> 0 ->
             forall x y,
               @accepted ex_cv ex_rgb ex_mask 4 x y
               <-> shape (window ex_rgb 4 x y) = (4, 4, 3)
                   /\ 4 * 4 <= 2 * covered_count ex_rgb ex_mask 4 x y)
            /\ Forall (fun c => 4 * 4 <= 2 * mask_covered (window ex_mask 4 c.1 c.2))
                      (patches_coords_local b)).
Proof.
  eexists. split; [vm_compute; reflexivity|].
  split; [reflexivity|]. split; [reflexivity|].
  apply (C2_acceptance_rule (cv := ex_cv) (Some ex_slide) ex_rgb ex_contours
           ex_mask 1 2 4 "10").
  vm_compute. reflexivity.
Defined.

(** ** The sampler: the grid of corners *)

Lemma np_arange_pos (start stop step : Z) :
  0 < step ->
  exists X,
    np_arange start stop step = Ok X
    /\ NoDup X
    /\ forall x, x ∈ X <-> exists k, 0 <= k /\ x = start + k * step /\ x < stop.
Proof.
  intros Hstep. unfold np_arange.
  destruct (Z.eqb_spec step 0) as [->|_]; [lia|].
  eexists. split; [reflexivity|].
  pose proof (Z.div_mod (start - stop) step ltac:(lia)) as Hdm.
  pose proof (Z.mod_pos_bound (start - stop) step Hstep) as Hmod.
  set (q := (start - stop) `div` step) in *.
  split.
  - apply NoDup_fmap_2_strong; [|apply NoDup_seq].
    intros i j _ _ Hij. nia.
  - intros x. rewrite list_elem_of_fmap. split.
    + intros (i & -> & Hi). apply elem_of_seq in Hi. exists (Z.of_nat i).
      split; [lia|]. split; [done|]. nia.
    + intros (k & Hk & -> & Hlt). exists (Z.to_nat k).
      split; [lia|]. apply elem_of_seq. nia.
Qed.

Lemma elem_of_corners (X Y : list Z) (x y : Z) :
  (x, y) ∈ corners X Y <-> x ∈ X /\ y ∈ Y.
Proof.
  unfold corners. rewrite list_elem_of_bind. split.
  - intros (y' & Hin & Hy). apply list_elem_of_bind in Hin as (x' & Hin & Hx).
    apply list_elem_of_singleton in Hin as [= -> ->]. done.
  - intros [Hx Hy]. exists y. split; [|done]. apply list_elem_of_bind.
    exists x. split; [|done]. apply list_elem_of_singleton. done.
Qed.

Lemma region_corners_grid `{cv : OpenCV} (P : Z) (box_ : contour) (box : rect) :
  cv2_boundingRect (np_squeeze box_) = Ok box ->
  0 < P `div` 2 ->
  exists X Y, grid_of P box X Y /\ region_corners P box_ = Ok (corners X Y).
Proof.
  intros Hbox Hstep. destruct box as [[[bx by_] bw] bh].
  destruct (np_arange_pos bx (bx + bw) _ Hstep) as (X & HX & HndX & HinX).
  destruct (np_arange_pos by_ (by_ + bh) _ Hstep) as (Y & HY & HndY & HinY).
  exists X, Y. split; [done|].
  unfold region_corners. rewrite Hbox. cbn [mbind result_bind].
  rewrite HX. cbn [mbind result_bind]. by rewrite HY.
Qed.

Lemma regions_corners_grid `{cv : OpenCV} (P : Z) (regions : list contour) :
  Forall (fun c => exists box, cv2_boundingRect (np_squeeze c) = Ok box) regions ->
  0 < P `div` 2 ->
  exists grids : list (list Z * list Z),
    Forall2 (fun box_ XY =>
               exists box, cv2_boundingRect (np_squeeze box_) = Ok box
                           /\ grid_of P box XY.1 XY.2) regions grids
    /\ regions_corners P regions
       = Ok (concat ((fun XY : list Z * list Z => corners XY.1 XY.2) <$> grids)).
Proof.
  intros Hall Hstep. induction Hall as [|box_ regions [box Hbox] _ IH].
  - exists []. split; [constructor | done].
  - destruct (region_corners_grid P box_ box Hbox Hstep) as (X & Y & Hgrid & Hrc).
    destruct IH as (grids & Hgrids & Hrcs). exists ((X, Y) :: grids). split.
    + constructor; [|done]. by exists box.
    + cbn [regions_corners fmap list_fmap concat]. rewrite Hrc.
      cbn [mbind result_bind]. fold (@fmap list _ _ _
        (fun XY : list Z * list Z => corners XY.1 XY.2) grids).
      rewrite Hrcs. done.
Qed.

(** The loop over the regions is the loop over their corners. *)
Lemma foldM_regions_corners `{cv : OpenCV} wsi_rgb mask P dx dy
    (regions : list contour) :
  forall acc cs,
    regions_corners P regions = Ok cs ->
    foldM (sample_region wsi_rgb mask P dx dy) acc regions
    = foldM (fun acc c => sample_window wsi_rgb mask P dx dy acc c.2 c.1) acc cs.
Proof.
  induction regions as [|box_ regions IH]; intros acc cs Hcs.
  - by injection Hcs as <-.
  - cbn [regions_corners] in Hcs.
    apply bind_Ok_inv in Hcs as (cs1 & Hcs1 & Hcs).
    apply bind_Ok_inv in Hcs as (cs2 & Hcs2 & [= <-]).
    cbn [foldM]. rewrite sample_region_eq, Hcs1. cbn [mbind result_bind].
    rewrite foldM_app.
    destruct (foldM _ acc cs1) as [acc1|e]; cbn [mbind result_bind]; [|done].
    by apply IH.
Qed.

Lemma construct_bags_corners `{cv : OpenCV} wsi_obj wsi_rgb contours mask level
    mag P sect ws hs dx dy cs :
  section_delta wsi_obj level sect = Ok (ws, hs, dx, dy) ->
  regions_corners P (kept_regions contours) = Ok cs ->
  construct_bags wsi_obj wsi_rgb contours mask level mag P sect
  = foldM (fun acc c => sample_window wsi_rgb mask P dx dy acc c.2 c.1)
          bags_empty cs.
Proof.
  intros Hd Hcs. unfold construct_bags. rewrite Hd. cbn [mbind result_bind].
  fold (kept_regions contours). by apply foldM_regions_corners.
Qed.

(** C7.  For the kept regions, each with its bounding box (bx, by, bw, bh),
    the corners that construct_bags visits are exactly the points of the
    grids of step P // 2 with x in [bx, bx + bw) and y in [by, by + bh),
    region after region, y outside and x inside: the result of construct_bags
    is that of the loop body run over these corners, and the recorded
    patches are the accepted ones among them.  (A patch size of at least 2
    makes the step positive; below 2 ^ 62 the coordinates stay in the int64
    range of NumPy.)  The bounding box (100, 100, 300, 300) with P = 100
    gives x, y in {100, 150, 200, 250, 300, 350}. *)
Theorem C7_candidate_grid :
  (forall (cv : OpenCV) (wsi_obj : option slide) (wsi_rgb : ndarray pixel)
          (contours : list contour) (mask : ndarray pixel)
          (level mag_factor P : Z) (sect : string) (ws hs dx dy : Z),
      section_delta wsi_obj level sect = Ok (ws, hs, dx, dy) ->
      Forall (fun c => exists box, cv2_boundingRect (np_squeeze c) = Ok box)
             (kept_regions contours) ->
      0 < P `div` 2 -> P < 2 ^ 62 ->
      exists grids : list (list Z * list Z),
        Forall2 (fun box_ XY =>
                   exists box, cv2_boundingRect (np_squeeze box_) = Ok box
                               /\ grid_of P box XY.1 XY.2)
                (kept_regions contours) grids
        /\ regions_corners P (kept_regions contours)
           = Ok (concat ((fun XY : list Z * list Z => corners XY.1 XY.2)
                           <$> grids))
        /\ (forall X Y x y, (x, y) ∈ corners X Y <-> x ∈ X /\ y ∈ Y)
        /\ construct_bags wsi_obj wsi_rgb contours mask level mag_factor P sect
           = foldM (fun acc c =>
                      sample_window wsi_rgb mask P dx dy acc c.2 c.1)
                   bags_empty
                   (concat ((fun XY : list Z * list Z => corners XY.1 XY.2)
                              <$> grids))
        /\ (forall b,
              construct_bags wsi_obj wsi_rgb contours mask level mag_factor P
                             sect = Ok b ->
              patches_coords_local b
              = List.filter (accepts wsi_rgb mask P)
                  (concat ((fun XY : list Z * list Z => corners XY.1 XY.2)
                             <$> grids))))
  /\ grid_of 100 (100, 100, 300, 300)
             [100; 150; 200; 250; 300; 350] [100; 150; 200; 250; 300; 350]
  /\ @regions_corners ex_cv 100 (@kept_regions ex_cv [ex_square 100 100 300])
     = Ok (corners [100; 150; 200; 250; 300; 350] [100; 150; 200; 250; 300; 350]).
Proof.
  split; [|split; [|reflexivity]].
  - intros cv wsi_obj wsi_rgb contours mask level mag_factor P sect ws hs dx dy
           Hd Hboxes Hstep _.
    destruct (regions_corners_grid P (kept_regions contours) Hboxes Hstep)
      as (grids & Hgrids & Hcs).
    exists grids. split; [done|]. split; [done|].
    split; [intros; apply elem_of_corners|]. split.
    + by eapply construct_bags_corners.
    + intros b Hb. apply construct_bags_Ok in Hb
        as (W & Ht & col & row & cs & _ & _ & _ & Hcs' & _ & ->).
      rewrite Hcs in Hcs'. by injection Hcs' as <-.
  - destruct (np_arange_pos 100 (100 + 300) (100 `div` 2) ltac:(done))
      as (X & HX & HndX & HinX).
    assert (X = [100; 150; 200; 250; 300; 350]) as ->.
    { vm_compute in HX. by injection HX as <-. }
    unfold grid_of. by repeat (split; [done|]).
Qed.

Lemma C7_witness :
  exists grids : list (list Z * list Z),
    grids = [([494; 496; 498], [494; 496; 498])]
    /\ Forall2 (fun box_ XY =>
                  exists box, @cv2_boundingRect ex_cv (@np_squeeze ex_cv box_)
                              = Ok box
                              /\ grid_of 4 box XY.1 XY.2)
               (@kept_regions ex_cv ex_contours) grids
    /\ @regions_corners ex_cv 4 (@kept_regions ex_cv ex_contours)
       = Ok (concat ((fun XY : list Z * list Z => corners XY.1 XY.2) <$> grids))
    /\ (forall X Y x y, (x, y) ∈ corners X Y <-> x ∈ X /\ y ∈ Y)
    /\ @construct_bags ex_cv (Some ex_slide) ex_rgb ex_contours ex_mask 1 2 4 "10"
       = foldM (fun acc c => @sample_window ex_cv ex_rgb ex_mask 4 500 0 acc c.2 c.1)
               bags_empty
               (concat ((fun XY : list Z * list Z => corners XY.1 XY.2) <$> grids))
    /\ (forall b,
          @construct_bags ex_cv (Some ex_slide) ex_rgb ex_contours ex_mask 1 2 4
                          "10" = Ok b ->
          patches_coords_local b
          = List.filter (@accepts ex_cv ex_rgb ex_mask 4)
              (concat ((fun XY : list Z * list Z => corners XY.1 XY.2) <$> grids))).
Proof.
  destruct (proj1 C7_candidate_grid ex_cv (Some ex_slide) ex_rgb ex_contours
              ex_mask 1 2 4 "10" 500 500 500 0)
    as (grids & Hgrids & Hcs & Hrest).
  - reflexivity.
  - constructor; [|constructor]. by eexists.
  - reflexivity.
  - reflexivity.
  - exists grids. split; [|by split].
    apply Forall2_cons_inv_l in Hgrids as ([X Y] & grids' & (box & Hbox & Hg) & Hnil & ->).
    apply Forall2_nil_inv_l in Hnil as ->.
    injection Hbox as <-. destruct Hg as (HX & HY & _).
    vm_compute in HX, HY. injection HX as <-. injection HY as <-. done.
Defined.

(** ** The sampler: blocks clipped at the edges *)

Lemma insert_desc_Permutation {A : Type} (key : A -> Q) (a : A) (l : list A) :
  insert_desc key a l ≡ₚ a :: l.
Proof.
  induction l as [|b l IH]; simpl; [done|].
  destruct (Qle_bool (key b) (key a)); [done|].
  rewrite IH. apply Permutation_swap.
Qed.

Lemma sorted_reverse_Permutation {A : Type} (key : A -> Q) (l : list A) :
  sorted_reverse key l ≡ₚ l.
Proof.
  induction l as [|a l IH]; simpl; [done|].
  by rewrite insert_desc_Permutation, IH.
Qed.

Lemma Forall_kept_regions `{cv : OpenCV} (Q : contour -> Prop) (contours : list contour) :
  Forall Q contours -> Forall Q (kept_regions contours).
Proof.
  intros HQ. unfold kept_regions. apply Forall_take.
  by rewrite sorted_reverse_Permutation.
Qed.











(** The corner (498, 494) of the example is clipped: its blocks are two
    pixels wide; all eight of their pixels are white, which passes the count
    for P = 4, and the shape test discards it. *)
Example clipped_corner_of_example :
  shape (window ex_rgb 4 498 494) = (4, 2, 3)
  /\ clipped ex_rgb ex_mask 4 498 494
  /\ (bitwise_ ← @cv2_bitwise_and ex_cv (window ex_rgb 4 498 494)
                                  (window ex_mask 4 498 494);
      bitwise_grey ← cv2_cvtColor_RGB2GRAY bitwise_;
      Ok (cv2_countNonZero bitwise_grey)) = Ok 8
  /\ @sample_window ex_cv ex_rgb ex_mask 4 500 0 bags_empty 494 498
     = Ok bags_empty.
Proof.
  split; [reflexivity|]. split; [left; vm_compute; congruence|].
  split; reflexivity.
Qed.

(** ** The sampler: the ranking of the contours *)

Section ranking.
Context {A : Type} (key : A -> Q).

#[local] Abbreviation leb a b := (Qle_bool (key a) (key b)).

Lemma leb_trans (a b c : A) : leb a b = true -> leb b c = true -> leb a c = true.
Proof. rewrite !Qle_bool_iff. apply Qle_trans. Qed.

Lemma leb_total (a b : A) : leb a b = false -> leb b a = true.
Proof.
  intros Hab. apply Qle_bool_iff. apply Qlt_le_weak, Qnot_le_lt.
  intros Hle%Qle_bool_iff. congruence.
Qed.

Lemma insert_desc_descending (a : A) (l : list A) :
  descending key l -> descending key (insert_desc key a l).
Proof.
  intros Hl. induction Hl as [|b l Hl IH Hb]; simpl.
  - repeat constructor.
  - destruct (leb b a) eqn:E.
    + constructor; [by constructor|]. constructor; [done|].
      eapply Forall_impl; [exact Hb|]. intros x Hx. cbn in Hx.
      by apply (leb_trans x b a).
    + constructor; [done|]. rewrite insert_desc_Permutation.
      constructor; [by apply leb_total | done].
Qed.

Lemma sorted_reverse_descending (l : list A) : descending key (sorted_reverse key l).
Proof.
  induction l as [|a l IH]; simpl; [constructor|].
  by apply insert_desc_descending.
Qed.

Lemma filter_length_insert_desc (f : A -> bool) (a : A) (l : list A) :
  length (List.filter f (insert_desc key a l)) = length (List.filter f (a :: l)).
Proof.
  induction l as [|b l IH]; [done|]. cbn [insert_desc].
  destruct (leb b a); [done|]. cbn [List.filter] in *.
  destruct (f b), (f a); cbn [length] in *; lia.
Qed.

Lemma filter_length_sorted_reverse (f : A -> bool) (l : list A) :
  length (List.filter f (sorted_reverse key l)) = length (List.filter f l).
Proof.
  induction l as [|a l IH]; [done|]. cbn [sorted_reverse foldr].
  rewrite filter_length_insert_desc. fold (sorted_reverse key l).
  cbn [List.filter]. destruct (f a); cbn [length]; lia.
Qed.

(** Inserting [c] in a ranked list puts it after the elements of greater
    key. *)
Lemma insert_desc_split (c : A) (l : list A) :
  descending key l ->
  exists l1 l2,
    insert_desc key c l = l1 ++ c :: l2 /\ l = l1 ++ l2
    /\ Forall (fun x => leb x c = false) l1
    /\ Forall (fun x => leb x c = true) l2.
Proof.
  intros Hl. induction Hl as [|b l Hl IH Hb]; simpl.
  - exists [], []. by repeat split.
  - destruct (leb b c) eqn:E.
    + exists [], (b :: l). repeat split; [constructor|].
      constructor; [done|]. eapply Forall_impl; [exact Hb|].
      intros x Hx. cbn in Hx. by apply (leb_trans x b c).
    + destruct IH as (l1 & l2 & -> & -> & H1 & H2).
      exists (b :: l1), l2. repeat split; [by constructor | done].
Qed.

(** Inserting [a] in a list ranked around [c]. *)
Lemma insert_desc_around (a c : A) (l1 l2 : list A) :
  Forall (fun x => leb c x = true) l1 ->
  Forall (fun x => leb x c = true) l2 ->
  exists l1' l2',
    insert_desc key a (l1 ++ c :: l2) = l1' ++ c :: l2'
    /\ insert_desc key a (l1 ++ l2) = l1' ++ l2'
    /\ Forall (fun x => leb c x = true) l1'
    /\ Forall (fun x => leb x c = true) l2'
    /\ length l1' = ((if leb c a then 1 else 0) + length l1)%nat.
Proof.
  intros H1 H2. destruct (leb c a) eqn:Eca.
  - exists (insert_desc key a l1), l2. repeat split; try done.
    + clear H1. induction l1 as [|b l1 IH]; simpl; [by rewrite Eca|].
      destruct (leb b a); [done|]. by rewrite IH.
    + clear H1. induction l1 as [|b l1 IH]; simpl.
      * destruct H2 as [|b l2 Hb _]; simpl; [done|].
        by rewrite (leb_trans b c a).
      * destruct (leb b a); [done|]. by rewrite IH.
    + rewrite insert_desc_Permutation. by constructor.
    + rewrite insert_desc_Permutation. done.
  - assert (Hac : leb a c = true) by by apply leb_total.
    exists l1, (insert_desc key a l2). repeat split; try done.
    + induction H1 as [|b l1 Hb _ IH]; simpl; [by rewrite Eca|].
      destruct (leb b a) eqn:Eba; [|by rewrite IH].
      by rewrite (leb_trans c b a) in Eca.
    + induction H1 as [|b l1 Hb _ IH]; simpl; [done|].
      destruct (leb b a) eqn:Eba; [|by rewrite IH].
      by rewrite (leb_trans c b a) in Eca.
    + rewrite insert_desc_Permutation. by constructor.
Qed.

(** In the ranking of [l1 ++ c :: l2], the elements before [c] are those
    of [l1] that are not smaller and those of [l2] that are greater;
    taking [c] out leaves the rest of the ranking as it is. *)
Lemma sorted_reverse_around (l1 : list A) (c : A) (l2 : list A) :
  exists r1 r2,
    sorted_reverse key (l1 ++ c :: l2) = r1 ++ c :: r2
    /\ sorted_reverse key (l1 ++ l2) = r1 ++ r2
    /\ Forall (fun x => leb c x = true) r1
    /\ Forall (fun x => leb x c = true) r2
    /\ length r1
       = (length (List.filter (fun a => leb c a) l1)
          + length (List.filter (fun a => negb (leb a c)) l2))%nat.
Proof.
  induction l1 as [|a l1 IH].
  - cbn [app sorted_reverse foldr List.filter length]. fold (sorted_reverse key l2).
    destruct (insert_desc_split c (sorted_reverse key l2)
                (sorted_reverse_descending l2)) as (r1 & r2 & E1 & E2 & H1 & H2).
    exists r1, r2. repeat split; try done.
    + eapply Forall_impl; [exact H1|]. intros x Hx. by apply leb_total.
    + rewrite <- (filter_length_sorted_reverse _ l2), E2, List.filter_app.
      rewrite length_app.
      assert (E3 : List.filter (fun a => negb (leb a c)) r1 = r1).
      { clear -H1. induction H1 as [|x r1 Hx _ IH]; simpl; [done|].
        by rewrite Hx, IH. }
      assert (E4 : List.filter (fun a => negb (leb a c)) r2 = []).
      { clear -H2. induction H2 as [|x r2 Hx _ IH]; simpl; [done|].
        by rewrite Hx. }
      rewrite E3, E4. simpl. lia.
  - destruct IH as (r1 & r2 & E1 & E2 & H1 & H2 & Hlen).
    destruct (insert_desc_around a c r1 r2 H1 H2)
      as (r1' & r2' & E1' & E2' & H1' & H2' & Hlen').
    exists r1', r2'.
    cbn [app sorted_reverse foldr]. fold (sorted_reverse key (l1 ++ c :: l2)).
    fold (sorted_reverse key (l1 ++ l2)). rewrite E1, E2.
    repeat split; try done.
    rewrite Hlen', Hlen. cbn [List.filter]. destruct (leb c a); cbn [length]; lia.
Qed.
End ranking.

(** C6.  construct_bags samples from the five contours of largest area
    only: a contour that the descending ranking by area puts sixth or lower
    is not among the kept regions, contributes no corner, and taking it out
    of the list of contours changes nothing in the result. *)
Theorem C6_only_top_five `{cv : OpenCV}
    (wsi_obj : option slide) (wsi_rgb mask : ndarray pixel)
    (level mag_factor P : Z) (sect : string)
    (l1 : list contour) (c : contour) (l2 : list contour) :
  (5 <= rank_before l1 c l2)%nat ->
  descending cv2_contourArea (sorted_reverse cv2_contourArea (l1 ++ c :: l2))
  /\ sorted_reverse cv2_contourArea (l1 ++ c :: l2) ≡ₚ l1 ++ c :: l2
  /\ (exists r1 r2,
        sorted_reverse cv2_contourArea (l1 ++ c :: l2) = r1 ++ c :: r2
        /\ length r1 = rank_before l1 c l2
        /\ kept_regions (l1 ++ c :: l2) = take 5 r1)
  /\ kept_regions (l1 ++ c :: l2) = kept_regions (l1 ++ l2)
  /\ regions_corners P (kept_regions (l1 ++ c :: l2))
     = regions_corners P (kept_regions (l1 ++ l2))
  /\ construct_bags wsi_obj wsi_rgb (l1 ++ c :: l2) mask level mag_factor P sect
     = construct_bags wsi_obj wsi_rgb (l1 ++ l2) mask level mag_factor P sect.
Proof.
  intros Hrank.
  destruct (sorted_reverse_around cv2_contourArea l1 c l2)
    as (r1 & r2 & E1 & E2 & _ & _ & Hlen).
  fold (rank_before l1 c l2) in Hlen.
  assert (Hk1 : kept_regions (l1 ++ c :: l2) = take 5 r1).
  { unfold kept_regions. rewrite E1. apply take_app_le. lia. }
  assert (Hk2 : kept_regions (l1 ++ l2) = take 5 r1).
  { unfold kept_regions. rewrite E2. apply take_app_le. lia. }
  split; [apply sorted_reverse_descending|].
  split; [apply sorted_reverse_Permutation|].
  split; [by exists r1, r2|].
  split; [congruence|]. split; [congruence|].
  unfold construct_bags. fold (kept_regions (l1 ++ c :: l2)).
  fold (kept_regions (l1 ++ l2)). by rewrite Hk1, Hk2.
Qed.

Lemma C6_witness :
  (5 <= @rank_before ex_cv ex_five_contours (ex_square 494 494 4) [])%nat
  /\ @kept_regions ex_cv ex_six_contours = @kept_regions ex_cv ex_five_contours
  /\ @construct_bags ex_cv (Some ex_slide) ex_rgb ex_six_contours ex_mask
       1 2 4 "10"
     = @construct_bags ex_cv (Some ex_slide) ex_rgb ex_five_contours ex_mask
         1 2 4 "10".
Proof.
  assert (Hrank : (5 <= @rank_before ex_cv ex_five_contours
                          (ex_square 494 494 4) [])%nat) by (vm_compute; lia).
  split; [exact Hrank|].
  pose proof (C6_only_top_five (cv := ex_cv) (Some ex_slide) ex_rgb ex_mask
                1 2 4 "10" ex_five_contours (ex_square 494 494 4) [] Hrank)
    as (_ & _ & _ & Hk & _ & Hb).
  rewrite app_nil_r in Hk, Hb. split; [exact Hk | exact Hb].
Defined.

(** ** The annotation parser *)

Lemma round_half_even_bounds (n d : Z) :
  0 <= n -> 0 < d ->
  n `div` d <= round_half_even n d <= n `div` d + 1
  /\ (round_half_even n d = n `div` d + 1 -> d <= 2 * (n `mod` d)).
Proof.
  intros Hn Hd. unfold round_half_even.
  destruct (Z.ltb_spec (2 * (n `mod` d)) d); [lia|].
  destruct (Z.ltb_spec d (2 * (n `mod` d))); [lia|].
  destruct (Z.even (n `div` d)); lia.
Qed.

Lemma round_half_even_exact (n d : Z) :
  0 < d -> n `mod` d = 0 -> round_half_even n d = n `div` d.
Proof.
  intros Hd Hr. unfold round_half_even. rewrite Hr.
  destruct (Z.ltb_spec (2 * 0) d); [done | lia].
Qed.

Lemma round_half_even_scale (k n d : Z) :
  0 < k -> 0 < d -> round_half_even (k * n) (k * d) = round_half_even n d.
Proof.
  intros Hk Hd. unfold round_half_even.
  rewrite Z.div_mul_cancel_l by lia. rewrite Z.mul_mod_distr_l by lia.
  set (r := n `mod` d).
  assert (E1 : (2 * (k * r) <? k * d) = (2 * r <? d)).
  { destruct (Z.ltb_spec (2 * (k * r)) (k * d)), (Z.ltb_spec (2 * r) d);
      done || nia. }
  assert (E2 : (k * d <? 2 * (k * r)) = (d <? 2 * r)).
  { destruct (Z.ltb_spec (k * d) (2 * (k * r))), (Z.ltb_spec d (2 * r));
      done || nia. }
  by rewrite E1, E2.
Qed.

(** The exponent that round_float_pos chooses. *)
Lemma float_exponent_spec (t c : Z) :
  0 <= t -> c = Z.max 0 (Z.log2 t - 52) ->
  0 <= c /\ t < 2 ^ (c + 53) /\ (0 < c -> 2 ^ (c + 52) <= t).
Proof.
  intros Ht ->. split; [lia|].
  destruct (Z.eq_dec t 0) as [->|Hne].
  { cbn [Z.log2]. rewrite Z.max_l by lia. split; [done | lia]. }
  pose proof (Z.log2_spec t ltac:(lia)) as [Hlo Hhi].
  pose proof (Z.log2_nonneg t) as Hl.
  destruct (Z.max_spec 0 (Z.log2 t - 52)) as [[Hlt ->]|[Hge ->]].
  - replace (Z.log2 t - 52 + 53) with (Z.succ (Z.log2 t)) by lia.
    replace (Z.log2 t - 52 + 52) with (Z.log2 t) by lia. done.
  - split; [|lia]. eapply Z.lt_le_trans; [exact Hhi|].
    apply Z.pow_le_mono_r; lia.
Qed.

Lemma int_of_float_round_small (x y : Z) :
  0 < x < 2 ^ 53 -> 0 < y ->
  int_of_float (round_float_pos x y) = x `div` y.
Proof.
  intros Hx Hy. unfold round_float_pos, int_of_float. cbv zeta.
  cbn [Qnum Qden].
  assert (HK : 0 < 2 ^ 1074) by (apply Z.pow_pos_nonneg; lia).
  assert (HK53 : 2 ^ 53 < 2 ^ 1074) by (apply Z.pow_lt_mono_r; lia).
  assert (H5253 : 2 ^ 53 = 2 * 2 ^ 52) by (rewrite <- Z.pow_succ_r by lia; done).
  assert (H52 : 0 < 2 ^ 52) by (apply Z.pow_pos_nonneg; lia).
  set (t := (x * 2 ^ 1074) `div` y).
  set (c := Z.max 0 (Z.log2 t - 52)).
  assert (Ht : 0 <= t) by (apply Z.div_pos; nia).
  destruct (float_exponent_spec t c Ht eq_refl) as (Hc0 & Hup & Hlow).
  rewrite Z.pow_add_r in Hup by lia.
  assert (Hlow' : 0 < c -> 2 ^ c * 2 ^ 52 <= t).
  { intros Hc. rewrite <- Z.pow_add_r by lia. by apply Hlow. }
  clear Hlow.
  assert (Hty : t * y <= x * 2 ^ 1074 < (t + 1) * y).
  { unfold t. pose proof (Z.div_mod (x * 2 ^ 1074) y ltac:(lia)).
    pose proof (Z.mod_pos_bound (x * 2 ^ 1074) y Hy). nia. }
  assert (Hc : c <= 1074).
  { destruct (Z.le_gt_cases c 1074) as [|Hgt]; [done|]. exfalso.
    specialize (Hlow' ltac:(lia)).
    assert (2 * 2 ^ 1074 <= 2 ^ c).
    { rewrite <- Z.pow_succ_r by lia. apply Z.pow_le_mono_r; lia. }
    assert (t <= x * 2 ^ 1074) by nia.
    revert H H0 Hlow' Hx H5253 H52 HK.
    generalize (2 ^ c), (2 ^ 1074), (2 ^ 53), (2 ^ 52). intros. nia. }
  assert (Hpow : 2 ^ 1074 = 2 ^ (1074 - c) * 2 ^ c).
  { rewrite <- Z.pow_add_r by lia. f_equal. lia. }
  assert (HA : 0 < 2 ^ (1074 - c)) by (apply Z.pow_pos_nonneg; lia).
  assert (HB : 0 < 2 ^ c) by (apply Z.pow_pos_nonneg; lia).
  assert (Hc0' : c = 0 -> 2 ^ c = 1 /\ 2 ^ (1074 - c) = 2 ^ 1074).
  { intros ->. split; [done|]. f_equal. }
  rewrite Z2Pos.id by done.
  clearbody t. clear Ht.
  revert Hty Hup Hlow' Hc0' Hpow HA HB HK HK53 H5253 H52 Hx.
  generalize (2 ^ (1074 - c)) as A. generalize (2 ^ c) as B.
  generalize (2 ^ 1074) as K. generalize (2 ^ 53) as P53.
  generalize (2 ^ 52) as P52.
  intros P52 P53 K B A Hty Hup Hlow Hc0' Hpow HA HB HK HK53 H5253 H52 Hx.
  subst K P53.
  set (M := round_half_even (x * (A * B)) (y * B)).
  destruct (round_half_even_bounds (x * (A * B)) (y * B) ltac:(nia) ltac:(nia))
    as [[HMlo HMhi] HMup]. fold M in HMlo, HMhi, HMup.
  pose proof (Z.div_mod (x * (A * B)) (y * B) ltac:(nia)) as HNd.
  pose proof (Z.mod_pos_bound (x * (A * B)) (y * B) ltac:(nia)) as HNr.
  set (fl := (x * (A * B)) `div` (y * B)) in *.
  set (r := (x * (A * B)) `mod` (y * B)) in *.
  pose proof (Z.div_mod x y ltac:(lia)) as Hxy.
  pose proof (Z.mod_pos_bound x y Hy) as Hxr.
  set (k := x `div` y) in *. set (rx := x `mod` y) in *.
  assert (Hk0 : 0 <= k) by (apply Z.div_pos; lia).
  assert (Hfl0 : 0 <= fl) by (apply Z.div_pos; nia).
  clearbody M fl r k rx.
  assert (Hlo : k * A <= fl).
  { assert (k * A * (y * B) < (fl + 1) * (y * B)); [nia|].
    apply Z.mul_lt_mono_pos_r in H; [lia | nia]. }
  assert (Hhi : fl < (k + 1) * A).
  { assert (fl * (y * B) < (k + 1) * A * (y * B)); [nia|].
    apply Z.mul_lt_mono_pos_r in H; [lia | nia]. }
  rewrite Z.quot_div_nonneg by nia.
  rewrite Z.div_mul_cancel_r by lia.
  symmetry. apply Z.div_unique with (r := M - k * A); [|lia].
  left. split; [lia|].
  destruct (Z.lt_ge_cases M ((k + 1) * A)) as [|Hge]; [lia|]. exfalso.
  assert (HMeq : M = fl + 1) by lia.
  specialize (HMup HMeq).
  assert (Hfle : fl = (k + 1) * A - 1) by lia.
  (* 2 A <= y *)
  assert (Hy2 : 2 * A <= y).
  { assert (B * (2 * A) <= B * y); [|apply Z.mul_le_mono_pos_l in H; lia].
    nia. }
  destruct (Z.eq_dec c 0) as [Hcz|Hcnz].
  - destruct (Hc0' Hcz) as [HB1 HAK]. subst B.
    (* t < 2 P52, and fl <= t *)
    assert (fl <= t).
    { assert (fl * y < (t + 1) * y); [nia|].
      apply Z.mul_lt_mono_pos_r in H; lia. }
    nia.
  - specialize (Hlow ltac:(lia)).
    assert (H1 : B * P52 * y <= x * (A * B)) by nia.
    assert (H2 : P52 * y <= x * A).
    { assert (B * (P52 * y) <= B * (x * A)) by nia.
      apply Z.mul_le_mono_pos_l in H; lia. }
    nia.
Qed.

Lemma round_float_pos_scale (k n d : Z) :
  0 < k -> 0 < d -> round_float_pos (k * n) (k * d) = round_float_pos n d.
Proof.
  intros Hk Hd. unfold round_float_pos. cbv zeta.
  rewrite <- !Z.mul_assoc. rewrite Z.div_mul_cancel_l by lia.
  by rewrite round_half_even_scale
    by (try apply Z.mul_pos_pos; try apply Z.pow_pos_nonneg; lia).
Qed.

Lemma int_of_float_round_integer (m e : Z) :
  0 < m < 2 ^ 53 -> 0 <= e ->
  int_of_float (round_float_pos (m * 2 ^ e) 1) = m * 2 ^ e.
Proof.
  intros Hm He. unfold round_float_pos, int_of_float. cbv zeta.
  cbn [Qnum Qden]. rewrite Z.div_1_r.
  assert (HK : 0 < 2 ^ 1074) by (apply Z.pow_pos_nonneg; lia).
  assert (HE : 0 < 2 ^ e) by (apply Z.pow_pos_nonneg; lia).
  rewrite Z2Pos.id by done.
  assert (HN : m * 2 ^ e * 2 ^ 1074 = m * 2 ^ (e + 1074)).
  { rewrite Z.pow_add_r by lia. ring. }
  rewrite HN.
  assert (Hlog : Z.log2 (m * 2 ^ (e + 1074)) = e + 1074 + Z.log2 m).
  { rewrite Z.log2_mul_pow2 by lia. lia. }
  assert (Hlm : Z.log2 m <= 52).
  { assert (Z.log2 m < 53); [|lia]. apply Z.log2_lt_pow2; lia. }
  pose proof (Z.log2_nonneg m) as Hl0.
  set (c := Z.max 0 (Z.log2 (m * 2 ^ (e + 1074)) - 52)).
  assert (Hc : 0 <= c <= e + 1074) by (unfold c; lia).
  assert (Hsplit : 2 ^ (e + 1074) = 2 ^ (e + 1074 - c) * 2 ^ c).
  { rewrite <- Z.pow_add_r by lia. f_equal. lia. }
  assert (HB : 0 < 2 ^ c) by (apply Z.pow_pos_nonneg; lia).
  rewrite Z.mul_1_l.
  rewrite round_half_even_exact; [|done|].
  2:{ rewrite Hsplit, Z.mul_assoc. apply Z.mod_mul. lia. }
  rewrite Hsplit at 1. rewrite Z.mul_assoc, Z.div_mul by lia.
  rewrite <- Z.mul_assoc, <- Hsplit, <- HN.
  rewrite Z.quot_div_nonneg by nia. apply Z.div_mul. lia.
Qed.

Lemma int_of_float_round_pow2 (m e j : Z) :
  0 < m < 2 ^ 53 -> 0 <= e -> 0 <= j ->
  int_of_float (round_float_pos (m * 2 ^ e) (2 ^ j)) = (m * 2 ^ e) `div` 2 ^ j.
Proof.
  intros Hm He Hj.
  assert (HJ : 0 < 2 ^ j) by (apply Z.pow_pos_nonneg; lia).
  assert (HE : 0 < 2 ^ e) by (apply Z.pow_pos_nonneg; lia).
  destruct (Z.le_gt_cases j e) as [Hje|Hej].
  - assert (Hx : m * 2 ^ e = 2 ^ j * (m * 2 ^ (e - j))).
    { replace e with (j + (e - j)) at 1 by lia.
      rewrite Z.pow_add_r by lia. ring. }
    rewrite Hx. rewrite <- (Z.mul_1_r (2 ^ j)) at 2.
    rewrite round_float_pos_scale by lia.
    rewrite int_of_float_round_integer by lia.
    rewrite (Z.mul_comm (2 ^ j)), Z.div_mul by lia. done.
  - assert (Hy : 2 ^ j = 2 ^ e * 2 ^ (j - e)).
    { rewrite <- Z.pow_add_r by lia. f_equal. lia. }
    assert (0 < 2 ^ (j - e)) by (apply Z.pow_pos_nonneg; lia).
    rewrite Hy, (Z.mul_comm m). rewrite round_float_pos_scale by lia.
    rewrite int_of_float_round_small by lia.
    by rewrite Z.div_mul_cancel_l by lia.
Qed.

Lemma true_div_pos (x y : Z) :
  0 < x -> 0 < y -> true_div x y = Ok (round_float_pos x y).
Proof.
  intros Hx Hy. unfold true_div.
  destruct (Z.eqb_spec y 0) as [|_]; [lia|]. f_equal.
  destruct x as [|px|px]; try lia. destruct y as [|py|py]; try lia.
  unfold round_float, Qdiv, Qinv, Qmult, inject_Z. cbn [Qnum Qden].
  rewrite Z.mul_1_r, Pos.mul_1_l. done.
Qed.

Lemma true_div_zero (y : Z) : y <> 0 -> true_div 0 y = Ok 0%Q.
Proof.
  intros Hy. unfold true_div. by destruct (Z.eqb_spec y 0).
Qed.

(** Within the bounds of [exact_quotient] the float division followed by
    the truncation is the integer division. *)
Lemma int_of_float_true_div (x y : Z) :
  0 <= x -> 0 < y -> exact_quotient x y ->
  exists q, true_div x y = Ok q /\ int_of_float q = x `div` y.
Proof.
  intros Hx Hy Hex. destruct (Z.eq_dec x 0) as [->|Hx0].
  { exists 0%Q. split; [apply true_div_zero; lia|]. by rewrite Z.div_0_l by lia. }
  exists (round_float_pos x y). split; [apply true_div_pos; lia|].
  destruct Hex as [Hsmall|[(m & e & Hm & He & ->) (level & Hl & ->)]].
  - apply int_of_float_round_small; lia.
  - assert (0 < 2 ^ e) by (apply Z.pow_pos_nonneg; lia).
    apply int_of_float_round_pow2; [nia | done..].
Qed.

(** The integer part of a float m * 2 ^ e or m / 2 ^ e, of at most 53
    significant bits, is a float. *)
Lemma float_integer_of_float (m e : Z) :
  Z.abs m < 2 ^ 53 -> 0 <= e ->
  float_integer (Qfloor (inject_Z (m * 2 ^ e)))
  /\ float_integer (Qfloor (Qmake m (Z.to_pos (2 ^ e)))).
Proof.
  intros Hm He. split.
  - rewrite Qfloor_Z. by exists m, e.
  - unfold Qfloor. assert (Hd : 0 < 2 ^ e) by by apply Z.pow_pos_nonneg.
    rewrite Z2Pos.id by done. exists (m `div` 2 ^ e), 0.
    split; [|split; [done | by rewrite Z.mul_1_r]].
    revert Hm. generalize (2 ^ 53) as B. intros B Hm.
    pose proof (Z.mul_div_le m (2 ^ e) Hd).
    pose proof (Z.mul_succ_div_gt m (2 ^ e) Hd).
    revert H H0. generalize (m `div` 2 ^ e) as q. revert Hd.
    generalize (2 ^ e) as d. intros d Hd q H1 H2. nia.
Qed.

Lemma int_of_float_nonneg (q : Q) : (0 <= q)%Q -> int_of_float q = Qfloor q.
Proof.
  destruct q as [n d]. unfold Qle, int_of_float, Qfloor. simpl. intros Hn.
  apply Z.quot_div_nonneg; lia.
Qed.

Lemma Qfloor_nonneg (q : Q) : (0 <= q)%Q -> 0 <= Qfloor q.
Proof.
  destruct q as [n d]. unfold Qle, Qfloor. simpl. intros Hn.
  apply Z.div_pos; lia.
Qed.

(** Dividing a coordinate by the scale factor and rounding down is the
    integer division of its integer part. *)
Lemma Qfloor_div_scale (q : Q) (mag_factor : Z) :
  0 < mag_factor ->
  Qfloor (q / inject_Z mag_factor) = Qfloor q `div` mag_factor.
Proof.
  intros Hm. destruct q as [n d]. destruct mag_factor as [|m|m]; try lia.
  unfold Qfloor, Qdiv, Qmult, Qinv, inject_Z. simpl.
  rewrite Z.mul_1_r, Pos2Z.inj_mul. symmetry. apply Z.div_div; lia.
Qed.

Lemma level_point_nonneg (mag_factor : Z) (p : Q * Q) :
  0 < mag_factor -> (0 <= p.1)%Q -> (0 <= p.2)%Q ->
  level_point mag_factor p
  = (Qfloor p.1 `div` mag_factor, Qfloor p.2 `div` mag_factor).
Proof.
  intros Hm H1 H2. unfold level_point.
  rewrite !int_of_float_nonneg by done.
  rewrite !Z.quot_div_nonneg by (try apply Qfloor_nonneg; done || lia). done.
Qed.

(** A point of non-negative coordinates whose division is exact. *)
Lemma parse_coor_numeric (mag_factor delta_x delta_y : Z) (p : Q * Q) :
  0 < mag_factor -> (0 <= p.1)%Q -> (0 <= p.2)%Q ->
  exact_quotient (Qfloor p.1) mag_factor ->
  exact_quotient (Qfloor p.2) mag_factor ->
  parse_coor mag_factor delta_x delta_y (mk_coor (Numeric p.1) (Numeric p.2))
  = Ok (level_point mag_factor p,
        local_point delta_x delta_y (level_point mag_factor p)).
Proof.
  intros Hm H1 H2 He1 He2. rewrite level_point_nonneg by done.
  unfold parse_coor, local_point, sentinel.
  cbn [attrib_X attrib_Y float_attrib mbind result_bind fst snd].
  rewrite !int_of_float_nonneg by done.
  destruct (int_of_float_true_div (Qfloor p.1) mag_factor
              (Qfloor_nonneg _ H1) Hm He1) as (qx & -> & Hqx).
  destruct (int_of_float_true_div (Qfloor p.2) mag_factor
              (Qfloor_nonneg _ H2) Hm He2) as (qy & -> & Hqy).
  cbn [mbind result_bind]. by rewrite Hqx, Hqy.
Qed.

Lemma Forall2_parse_coor_fun (mag_factor delta_x delta_y : Z) (crds : list coor)
    (prs prs' : list ((Z * Z) * (Z * Z))) :
  Forall2 (fun c pr => parse_coor mag_factor delta_x delta_y c = Ok pr) crds prs ->
  Forall2 (fun c pr => parse_coor mag_factor delta_x delta_y c = Ok pr) crds prs' ->
  prs' = prs.
Proof.
  intros Hprs. revert prs'.
  induction Hprs as [|c pr crds prs Hc _ IH]; intros prs' Hprs';
    inversion Hprs'; subst; [done|]. f_equal; [congruence | by apply IH].
Qed.

Lemma parse_group_Ok (mag_factor delta_x delta_y : Z) (acc : annotation)
    (crds : list coor) (r : annotation) :
  parse_group mag_factor delta_x delta_y acc crds = Ok r
  <-> exists prs,
        Forall2 (fun c pr => parse_coor mag_factor delta_x delta_y c = Ok pr) crds prs
        /\ r = mk_annotation
                 (if more_than_two (fst <$> prs)
                  then polygon_list acc ++ [Polygon (fst <$> prs)]
                  else polygon_list acc)
                 (anno_list acc ++ [fst <$> prs])
                 (anno_local_list acc ++ [snd <$> prs]).
Proof.
  unfold parse_group.
  match goal with |- context [foldM ?F _ _] => set (body := F) end.
  assert (Hfold : forall crds a1 a2 res,
             foldM body (a1, a2) crds = Ok res
             <-> exists prs,
                   Forall2 (fun c pr => parse_coor mag_factor delta_x delta_y c = Ok pr)
                           crds prs
                   /\ res = (a1 ++ (fst <$> prs), a2 ++ (snd <$> prs))).
  { clear. intros crds. induction crds as [|c crds IH]; intros a1 a2 res.
    - simpl. split.
      + intros [= <-]. exists []. split; [constructor|]. by rewrite !app_nil_r.
      + intros (prs & Hprs & ->). inversion Hprs. by rewrite !app_nil_r.
    - assert (Hb : body (a1, a2) c
                   = match parse_coor mag_factor delta_x delta_y c with
                     | Ok pr => Ok (a1 ++ [pr.1], a2 ++ [pr.2])
                     | Raise e => Raise e
                     end).
      { unfold body. by destruct (parse_coor _ _ _ c) as [[? ?]|]. }
      change (foldM body (a1, a2) (c :: crds))
        with (body (a1, a2) c ≫= fun acc' => foldM body acc' crds).
      rewrite Hb. clear Hb.
      destruct (parse_coor mag_factor delta_x delta_y c) as [[p pl]|e] eqn:Ec;
        cbn [mbind result_bind fst snd].
      + rewrite IH. split.
        * intros (prs & Hprs & ->). exists ((p, pl) :: prs).
          split; [by constructor|]. simpl. by rewrite <- !app_assoc.
        * intros (prs & Hprs & ->). inversion Hprs as [|? pr ? prs' Hc Hrest]; subst.
          rewrite Ec in Hc. injection Hc as <-. exists prs'.
          split; [done|]. simpl. by rewrite <- !app_assoc.
      + split; [done|]. intros (prs & Hprs & _).
        inversion Hprs as [|? pr ? prs' Hc Hrest]; subst. congruence. }
  destruct (foldM body ([], []) crds) as [[nl nll]|e] eqn:E; cbn [mbind result_bind].
  - apply Hfold in E as (prs & Hprs & [= -> ->]). cbn [app]. split.
    + intros [= <-]. by exists prs.
    + intros (prs' & Hprs' & ->).
      by assert (prs' = prs) as -> by by eapply Forall2_parse_coor_fun.
  - split; [done|]. intros (prs & Hprs & _).
    assert (X : foldM body ([], []) crds = Ok ([] ++ (fst <$> prs), [] ++ (snd <$> prs))).
    { apply Hfold. by exists prs. }
    congruence.
Qed.

Lemma parse_groups_Ok (mag_factor delta_x delta_y : Z) (acc : annotation)
    (tree : list (list coor)) (r : annotation) :
  foldM (parse_group mag_factor delta_x delta_y) acc tree = Ok r
  <-> exists groups,
        Forall2 (Forall2 (fun c pr => parse_coor mag_factor delta_x delta_y c = Ok pr))
                tree groups
        /\ r = mk_annotation
                 (polygon_list acc
                  ++ (Polygon <$> List.filter more_than_two (globals_of groups)))
                 (anno_list acc ++ globals_of groups)
                 (anno_local_list acc ++ locals_of groups).
Proof.
  revert acc r. induction tree as [|crds tree IH]; intros acc r.
  - simpl. split.
    + intros [= <-]. exists []. split; [constructor|].
      destruct acc; simpl. by rewrite !app_nil_r.
    + intros (groups & Hg & ->). inversion Hg. destruct acc; simpl.
      by rewrite !app_nil_r.
  - cbn [foldM].
    destruct (parse_group mag_factor delta_x delta_y acc crds) as [acc'|e] eqn:E;
      cbn [mbind result_bind].
    + apply parse_group_Ok in E as (prs & Hprs & ->). rewrite IH.
      cbn [polygon_list anno_list anno_local_list]. split.
      * intros (groups & Hg & ->). exists (prs :: groups).
        split; [by constructor|]. unfold globals_of, locals_of.
        rewrite !fmap_cons. cbn [List.filter].
        destruct (more_than_two (prs.*1)); rewrite ?fmap_cons;
          by rewrite <- !app_assoc.
      * intros (groups & Hg & ->).
        inversion Hg as [|? prs' ? groups' Hc Hrest]; subst.
        assert (prs' = prs) as -> by by eapply Forall2_parse_coor_fun.
        exists groups'. split; [done|]. unfold globals_of, locals_of.
        rewrite !fmap_cons. cbn [List.filter].
        destruct (more_than_two (prs.*1)); rewrite ?fmap_cons;
          by rewrite <- !app_assoc.
    + split; [done|]. intros (groups & Hg & _).
      inversion Hg as [|? prs ? groups' Hc Hrest]; subst.
      assert (X : parse_group mag_factor delta_x delta_y acc crds
                  = Ok (mk_annotation
                          (if more_than_two (prs.*1)
                           then polygon_list acc ++ [Polygon (prs.*1)]
                           else polygon_list acc)
                          (anno_list acc ++ [prs.*1])
                          (anno_local_list acc ++ [prs.*2]))).
      { apply parse_group_Ok. by exists prs. }
      congruence.
Qed.

Lemma parse_annotation_Ok `{fs : Files} (anno_path : string)
    (wsi_obj : option slide) (sect : string) (level mag_factor : Z)
    (r : annotation) :
  parse_annotation anno_path wsi_obj sect level mag_factor = Ok r
  <-> exists tree Wd Ht col row groups,
        ET_ElementTree anno_path = Ok tree
        /\ wsi_level_dimensions wsi_obj level = Ok (Wd, Ht)
        /\ int_at sect 0 = Ok col /\ int_at sect 1 = Ok row
        /\ Forall2 (Forall2 (fun c pr =>
                      parse_coor mag_factor (col * (Wd `div` SPLIT))
                                 (row * (Ht `div` SPLIT)) c = Ok pr))
                   tree groups
        /\ r = mk_annotation
                 (Polygon <$> List.filter more_than_two (globals_of groups))
                 (globals_of groups) (locals_of groups).
Proof.
  unfold parse_annotation.
  destruct (ET_ElementTree anno_path) as [tree|e] eqn:Et; cbn [mbind result_bind].
  2:{ split; [done | intros (? & ? & ? & ? & ? & ? & ? & _); done]. }
  destruct (section_delta wsi_obj level sect) as [[[[ws hs] dx] dy]|e] eqn:E;
    cbn [mbind result_bind].
  - apply section_delta_Ok in E
      as (Wd & Ht & col & row & HW & Hc & Hr & -> & -> & -> & ->).
    rewrite parse_groups_Ok. cbn [polygon_list anno_list anno_local_list app].
    split.
    + intros (groups & Hg & ->). by exists tree, Wd, Ht, col, row, groups.
    + intros (tree' & Wd' & Ht' & col' & row' & groups
              & [= <-] & HW' & Hc' & Hr' & Hg & ->).
      rewrite HW in HW'. rewrite Hc in Hc'. rewrite Hr in Hr'.
      injection HW' as <- <-. injection Hc' as <-. injection Hr' as <-.
      by exists groups.
  - split; [done|].
    intros (tree' & Wd & Ht & col & row & groups & _ & HW & Hc & Hr & _).
    assert (X : section_delta wsi_obj level sect
                = Ok (Wd `div` SPLIT, Ht `div` SPLIT,
                      col * (Wd `div` SPLIT), row * (Ht `div` SPLIT))).
    { apply section_delta_Ok. by exists Wd, Ht, col, row. }
    congruence.
Qed.

Lemma parse_coor_is_Ok (mag_factor delta_x delta_y : Z) (c : coor) :
  (exists pr, parse_coor mag_factor delta_x delta_y c = Ok pr)
  <-> numeric_coor c /\ mag_factor <> 0.
Proof.
  unfold parse_coor, numeric_coor, true_div. destruct c as [ax ay].
  cbn [attrib_X attrib_Y]. split.
  - intros [pr Hpr].
    destruct ax as [| | | |qx]; try discriminate Hpr.
    destruct ay as [| | | |qy]; try discriminate Hpr.
    cbn [float_attrib mbind result_bind] in Hpr.
    destruct (Z.eqb_spec mag_factor 0) as [|Hm]; [discriminate Hpr|].
    split; [by exists qx, qy | done].
  - intros [(qx & qy & -> & ->) Hm]. cbn [float_attrib mbind result_bind].
    destruct (Z.eqb_spec mag_factor 0) as [|_]; [done|].
    cbn [mbind result_bind]. by eexists.
Qed.

Lemma Forall2_Forall_exists {A B : Type} (R : A -> B -> Prop) (l : list A) :
  (exists k, Forall2 R l k) <-> Forall (fun a => exists b, R a b) l.
Proof.
  split.
  - intros [k Hk]. induction Hk; constructor; eauto.
  - intros Hl. induction Hl as [|a l [b Hb] _ [k Hk]].
    + exists []. constructor.
    + exists (b :: k). by constructor.
Qed.

Lemma parse_annotation_returns_iff `{fs : Files} (anno_path : string)
    (wsi_obj : option slide) (sect : string) (level mag_factor : Z)
    (tree : list (list coor)) (dims : Z * Z * Z * Z) :
  ET_ElementTree anno_path = Ok tree ->
  section_delta wsi_obj level sect = Ok dims ->
  (exists r, parse_annotation anno_path wsi_obj sect level mag_factor = Ok r)
  <-> Forall (Forall (fun c => numeric_coor c /\ mag_factor <> 0)) tree.
Proof.
  intros Het Hd. destruct dims as [[[ws hs] dx] dy].
  apply section_delta_Ok in Hd
    as (Wd & Ht & col & row & HW & Hc & Hr & _ & _ & -> & ->).
  split.
  - intros [r Hr']. apply parse_annotation_Ok in Hr'
      as (tree' & Wd' & Ht' & col' & row' & groups & Het' & HW' & Hc' & Hr''
          & Hg & _).
    rewrite Het in Het'. injection Het' as <-.
    rewrite HW in HW'. injection HW' as <- <-.
    rewrite Hc in Hc'. injection Hc' as <-.
    rewrite Hr in Hr''. injection Hr'' as <-.
    assert (Hex : exists groups, Forall2 (Forall2 (fun c pr =>
               parse_coor mag_factor (col * (Wd `div` SPLIT))
                          (row * (Ht `div` SPLIT)) c = Ok pr)) tree groups)
      by by exists groups.
    apply Forall2_Forall_exists in Hex.
    eapply Forall_impl; [exact Hex|]. intros crds Hcrds. cbn in Hcrds.
    apply Forall2_Forall_exists in Hcrds.
    eapply Forall_impl; [exact Hcrds|]. intros c Hc0. cbn in Hc0.
    by apply parse_coor_is_Ok in Hc0.
  - intros Hall.
    assert (Hex : exists groups, Forall2 (Forall2 (fun c pr =>
               parse_coor mag_factor (col * (Wd `div` SPLIT))
                          (row * (Ht `div` SPLIT)) c = Ok pr)) tree groups).
    { apply Forall2_Forall_exists.
      eapply Forall_impl; [exact Hall|]. intros crds Hcrds. cbn in Hcrds.
      apply Forall2_Forall_exists.
      eapply Forall_impl; [exact Hcrds|]. intros c Hc0. cbn in Hc0.
      by apply parse_coor_is_Ok. }
    destruct Hex as [groups Hg]. eexists. apply parse_annotation_Ok.
    by exists tree, Wd, Ht, col, row, groups.
Qed.

(** The parse of a document whose attributes are all numeric, not negative,
    and divide exactly. *)
Lemma parse_annotation_numeric `{fs : Files} (anno_path : string)
    (wsi_obj : option slide) (sect : string) (level mag_factor : Z)
    (pts : list (list (Q * Q))) (Wd Ht col row : Z) :
  ET_ElementTree anno_path = Ok (numeric_doc pts) ->
  wsi_level_dimensions wsi_obj level = Ok (Wd, Ht) ->
  int_at sect 0 = Ok col -> int_at sect 1 = Ok row ->
  0 < mag_factor ->
  Forall (Forall (fun p : Q * Q =>
                    ((0 <= p.1)%Q /\ exact_quotient (Qfloor p.1) mag_factor)
                    /\ ((0 <= p.2)%Q /\ exact_quotient (Qfloor p.2) mag_factor)))
         pts ->
  parse_annotation anno_path wsi_obj sect level mag_factor
  = Ok (mk_annotation
          (Polygon <$> List.filter more_than_two (level_points mag_factor pts))
          (level_points mag_factor pts)
          (local_points mag_factor (col * (Wd `div` SPLIT))
                        (row * (Ht `div` SPLIT)) pts)).
Proof.
  intros Het HW Hc Hr Hm Hpts. apply parse_annotation_Ok.
  set (dx := col * (Wd `div` SPLIT)). set (dy := row * (Ht `div` SPLIT)).
  exists (numeric_doc pts), Wd, Ht, col, row,
    ((fun group : list (Q * Q) =>
        (fun p => (level_point mag_factor p,
                   local_point dx dy (level_point mag_factor p))) <$> group)
       <$> pts).
  repeat (split; [done|]). split.
  - unfold numeric_doc. apply Forall2_fmap, Forall_Forall2_diag.
    eapply Forall_impl; [exact Hpts|]. intros group Hgroup. cbn in Hgroup.
    apply Forall2_fmap, Forall_Forall2_diag.
    eapply Forall_impl; [exact Hgroup|]. intros p [[? ?] [? ?]].
    by apply parse_coor_numeric.
  - assert (E1 : globals_of ((fun group : list (Q * Q) =>
        (fun p => (level_point mag_factor p,
                   local_point dx dy (level_point mag_factor p))) <$> group)
       <$> pts) = level_points mag_factor pts).
    { unfold globals_of, level_points. rewrite <- list_fmap_compose.
      apply list_fmap_ext. intros _ group _. cbn.
      rewrite <- list_fmap_compose. done. }
    assert (E2 : locals_of ((fun group : list (Q * Q) =>
        (fun p => (level_point mag_factor p,
                   local_point dx dy (level_point mag_factor p))) <$> group)
       <$> pts) = local_points mag_factor dx dy pts).
    { unfold locals_of, local_points. rewrite <- list_fmap_compose.
      apply list_fmap_ext. intros _ group _. cbn.
      rewrite <- list_fmap_compose. done. }
    by rewrite E1, E2.
Qed.

(** C4.  A coordinate pair (X, Y) >= 0 of the annotation is brought to the
    chosen level by integer division by the scale factor, and its local
    coordinate is the global one minus the section offset, each negative
    component replaced by -1 on its own.  The code divides in floats and
    truncates: that is the integer division when the integer part of the
    coordinate is below 2 ^ 53, and for every float coordinate when the
    scale factor is a power of two, 2 ^ level.  X = 800, Y = 800 with scale
    factor 2 and section offset (500, 0) gives the local coordinate
    (-1, 400). *)
Theorem C4_level_and_local_coordinates :
  (forall (fs : Files) (anno_path : string) (wsi_obj : option slide)
          (sect : string) (level mag_factor : Z) (pts : list (list (Q * Q)))
          (Wd Ht col row : Z),
      ET_ElementTree anno_path = Ok (numeric_doc pts) ->
      wsi_level_dimensions wsi_obj level = Ok (Wd, Ht) ->
      int_at sect 0 = Ok col -> int_at sect 1 = Ok row ->
      0 < mag_factor ->
      Forall (Forall (fun p : Q * Q =>
                ((0 <= p.1)%Q /\ exact_quotient (Qfloor p.1) mag_factor)
                /\ ((0 <= p.2)%Q /\ exact_quotient (Qfloor p.2) mag_factor)))
             pts ->
      exists r,
        parse_annotation anno_path wsi_obj sect level mag_factor = Ok r
        /\ anno_list r
           = (fun group : list (Q * Q) =>
                (fun p : Q * Q =>
                   (Qfloor p.1 `div` mag_factor, Qfloor p.2 `div` mag_factor))
                  <$> group) <$> pts
        /\ anno_local_list r
           = (fun group : list (Q * Q) =>
                (fun p : Q * Q =>
                   (sentinel (Qfloor p.1 `div` mag_factor - col * (Wd `div` SPLIT)),
                    sentinel (Qfloor p.2 `div` mag_factor - row * (Ht `div` SPLIT))))
                  <$> group) <$> pts
        /\ forall q : Q,
             Qfloor (q / inject_Z mag_factor) = Qfloor q `div` mag_factor)
  /\ section_delta (Some ex_slide) 1 "10" = Ok (500, 500, 500, 0)
  /\ parse_coor 2 500 0 (mk_coor (Numeric (800 # 1)) (Numeric (800 # 1)))
     = Ok ((400, 400), (-1, 400)).
Proof.
  split; [|split; [reflexivity | vm_compute; reflexivity]].
  intros fs anno_path wsi_obj sect level mag_factor pts Wd Ht col row
         Het HW Hc Hr Hm Hpos.
  eexists. split.
  { by apply (parse_annotation_numeric anno_path wsi_obj sect level mag_factor
                pts Wd Ht col row). }
  cbn [anno_list anno_local_list]. split; [|split].
  - unfold level_points. apply list_fmap_ext. intros i group Hg.
    apply list_fmap_ext. intros j p Hp.
    rewrite Forall_forall in Hpos.
    pose proof (Hpos group (list_elem_of_lookup_2 _ _ _ Hg)) as Hgroup.
    rewrite Forall_forall in Hgroup.
    destruct (Hgroup p (list_elem_of_lookup_2 _ _ _ Hp)) as [[? _] [? _]].
    by apply level_point_nonneg.
  - unfold local_points. apply list_fmap_ext. intros i group Hg.
    apply list_fmap_ext. intros j p Hp.
    rewrite Forall_forall in Hpos.
    pose proof (Hpos group (list_elem_of_lookup_2 _ _ _ Hg)) as Hgroup.
    rewrite Forall_forall in Hgroup.
    destruct (Hgroup p (list_elem_of_lookup_2 _ _ _ Hp)) as [[? _] [? _]].
    by rewrite level_point_nonneg.
  - intros q. by apply Qfloor_div_scale.
Qed.

Lemma C4_witness :
  exists r,
    @parse_annotation ex_files "anno.xml" (Some ex_slide) "10" 1 2 = Ok r
    /\ anno_list r
       = [[(400, 400); (600, 400); (500, 650)]; [(5, 5); (750, 10)]]
    /\ anno_local_list r
       = [[(-1, 400); (100, 400); (0, 650)]; [(-1, 5); (250, 10)]]
    /\ forall q : Q, Qfloor (q / inject_Z 2) = Qfloor q `div` 2.
Proof.
  apply (proj1 C4_level_and_local_coordinates ex_files "anno.xml"
           (Some ex_slide) "10" 1 2
           [[(800 # 1, 800 # 1); (2401 # 2, 801 # 1); (1000 # 1, 1300 # 1)];
            [(10 # 1, 10 # 1); (1500 # 1, 20 # 1)]]%Q
           2000 2000 1 0); try reflexivity.
  repeat constructor; cbn; unfold Qle; simpl; try lia; left; simpl; lia.
Defined.

(** Outside these bounds the float division shows: the integer part 10 ^ 17
    divided by 3 gives 33333333333333332, one less than the integer
    division. *)
Example float_division_rounds :
  parse_coor 3 0 0 (mk_coor (Numeric (100000000000000000 # 1)) (Numeric 0))
  = Ok ((33333333333333332, 0), (33333333333333332, 0))
  /\ 100000000000000000 `div` 3 = 33333333333333333.
Proof. split; vm_compute; reflexivity. Qed.

(** C8.  parse_annotation appends the global and the local coordinate list
    of every group, whatever its size and in the order of the groups, and
    appends a polygon for a group exactly when the group has more than two
    points. *)
Theorem C8_groups_kept_polygons_over_two :
  (forall (fs : Files) (anno_path : string) (wsi_obj : option slide)
          (sect : string) (level mag_factor : Z) (r : annotation),
      parse_annotation anno_path wsi_obj sect level mag_factor = Ok r ->
      exists tree delta_x delta_y groups,
        ET_ElementTree anno_path = Ok tree
        /\ Forall2 (Forall2 (fun c pr =>
                      parse_coor mag_factor delta_x delta_y c = Ok pr))
                   tree groups
        /\ anno_list r = globals_of groups
        /\ anno_local_list r = locals_of groups
        /\ Forall2 (fun crds g => length g = length crds) tree (anno_list r)
        /\ Forall2 (fun crds l => length l = length crds) tree (anno_local_list r)
        /\ polygon_list r = Polygon <$> List.filter more_than_two (anno_list r)
        /\ forall g, Polygon g ∈ polygon_list r
                     <-> g ∈ anno_list r /\ (2 < length g)%nat)
  /\ (forall (fs : Files) (anno_path : string) (wsi_obj : option slide)
             (sect : string) (level mag_factor : Z) (pts : list (list (Q * Q)))
             (dims : Z * Z * Z * Z),
        ET_ElementTree anno_path = Ok (numeric_doc pts) ->
        section_delta wsi_obj level sect = Ok dims ->
        mag_factor <> 0 ->
        exists r,
          parse_annotation anno_path wsi_obj sect level mag_factor = Ok r
          /\ Forall2 (fun (group : list (Q * Q)) g => length g = length group)
                     pts (anno_list r)
          /\ Forall2 (fun (group : list (Q * Q)) l => length l = length group)
                     pts (anno_local_list r)
          /\ polygon_list r
             = Polygon <$> List.filter more_than_two (anno_list r)).
Proof.
  assert (Hstruct : forall (fs : Files) (anno_path : string)
            (wsi_obj : option slide) (sect : string) (level mag_factor : Z)
            (r : annotation),
      parse_annotation anno_path wsi_obj sect level mag_factor = Ok r ->
      exists tree delta_x delta_y groups,
        ET_ElementTree anno_path = Ok tree
        /\ Forall2 (Forall2 (fun c pr =>
                      parse_coor mag_factor delta_x delta_y c = Ok pr))
                   tree groups
        /\ anno_list r = globals_of groups
        /\ anno_local_list r = locals_of groups
        /\ Forall2 (fun crds g => length g = length crds) tree (anno_list r)
        /\ Forall2 (fun crds l => length l = length crds) tree (anno_local_list r)
        /\ polygon_list r = Polygon <$> List.filter more_than_two (anno_list r)
        /\ forall g, Polygon g ∈ polygon_list r
                     <-> g ∈ anno_list r /\ (2 < length g)%nat).
  { intros fs anno_path wsi_obj sect level mag_factor r Hr.
    apply parse_annotation_Ok in Hr
      as (tree & Wd & Ht & col & row & groups & Het & _ & _ & _ & Hg & ->).
    exists tree, (col * (Wd `div` SPLIT)), (row * (Ht `div` SPLIT)), groups.
    cbn [polygon_list anno_list anno_local_list].
    repeat (split; [done|]). split; [|split; [|split; [done|]]].
    - unfold globals_of. apply Forall2_fmap_r.
      eapply Forall2_impl; [exact Hg|]. intros crds prs Hprs. cbn.
      rewrite length_fmap. symmetry. by eapply Forall2_length.
    - unfold locals_of. apply Forall2_fmap_r.
      eapply Forall2_impl; [exact Hg|]. intros crds prs Hprs. cbn.
      rewrite length_fmap. symmetry. by eapply Forall2_length.
    - intros g. rewrite list_elem_of_fmap. split.
      + intros (g' & [= ->] & Hin). apply list_elem_of_In, List.filter_In in Hin
          as [Hin Hbig]. split; [by apply list_elem_of_In|].
        unfold more_than_two in Hbig. apply Z.ltb_lt in Hbig. lia.
      + intros [Hin Hbig]. exists g. split; [done|].
        apply list_elem_of_In, List.filter_In. split; [by apply list_elem_of_In|].
        unfold more_than_two. apply Z.ltb_lt. lia. }
  split; [exact Hstruct|].
  intros fs anno_path wsi_obj sect level mag_factor pts dims Het Hd Hm.
  destruct (proj2 (parse_annotation_returns_iff anno_path wsi_obj sect level
                     mag_factor (numeric_doc pts) dims Het Hd)) as [r Hr].
  { unfold numeric_doc. apply Forall_fmap, Forall_forall. intros group _.
    apply Forall_fmap, Forall_forall. intros p _. cbn. split; [|done].
    by exists p.1, p.2. }
  exists r. split; [done|].
  destruct (Hstruct fs anno_path wsi_obj sect level mag_factor r Hr)
    as (tree & dx & dy & groups & Het' & _ & _ & _ & Hl1 & Hl2 & Hpoly & _).
  rewrite Het in Het'. injection Het' as <-.
  unfold numeric_doc in Hl1, Hl2. apply Forall2_fmap_l in Hl1, Hl2.
  split; [|split; [|done]].
  - eapply Forall2_impl; [exact Hl1|]. intros group g Hlen. cbn in Hlen.
    by rewrite length_fmap in Hlen.
  - eapply Forall2_impl; [exact Hl2|]. intros group g Hlen. cbn in Hlen.
    by rewrite length_fmap in Hlen.
Qed.

Lemma C8_witness :
  exists r,
    @parse_annotation ex_files "anno.xml" (Some ex_slide) "10" 1 2 = Ok r
    /\ r = mk_annotation
             [Polygon [(400, 400); (600, 400); (500, 650)]]
             [[(400, 400); (600, 400); (500, 650)]; [(5, 5); (750, 10)]]
             [[(-1, 400); (100, 400); (0, 650)]; [(-1, 5); (250, 10)]]
    /\ exists tree delta_x delta_y groups,
        @ET_ElementTree ex_files "anno.xml" = Ok tree
        /\ Forall2 (Forall2 (fun c pr =>
                      parse_coor 2 delta_x delta_y c = Ok pr))
                   tree groups
        /\ anno_list r = globals_of groups
        /\ anno_local_list r = locals_of groups
        /\ Forall2 (fun crds g => length g = length crds) tree (anno_list r)
        /\ Forall2 (fun crds l => length l = length crds) tree (anno_local_list r)
        /\ polygon_list r = Polygon <$> List.filter more_than_two (anno_list r)
        /\ forall g, Polygon g ∈ polygon_list r
                     <-> g ∈ anno_list r /\ (2 < length g)%nat.
Proof.
  eexists.
  assert (Hr : @parse_annotation ex_files "anno.xml" (Some ex_slide) "10" 1 2
               = Ok _) by (vm_compute; reflexivity).
  split; [exact Hr|]. split; [reflexivity|].
  exact (proj1 C8_groups_kept_polygons_over_two ex_files "anno.xml"
           (Some ex_slide) "10" 1 2 _ Hr).
Defined.

(** ** The disk *)

Lemma io_bind_Ok {A B : Type} (m : io A) (f : A -> io B) (w w1 : world) (a : A) :
  m w = (Ok a, w1) -> (m ≫= f) w = f a w1.
Proof. intros Hm. unfold mbind, io_bind. by rewrite Hm. Qed.

Lemma io_bind_Raise {A B : Type} (m : io A) (f : A -> io B) (w w1 : world) (e : exn) :
  m w = (Raise e, w1) -> (m ≫= f) w = (Raise e, w1).
Proof. intros Hm. unfold mbind, io_bind. by rewrite Hm. Qed.

Lemma foldM_io_preserves {A B S : Type} (obs : world -> S) (body : A -> B -> io A) :
  (forall a x w, obs (body a x w).2 = obs w) ->
  forall l a w, obs (foldM_io body a l w).2 = obs w.
Proof.
  intros Hbody l. induction l as [|x l IH]; intros a w; [done|].
  cbn [foldM_io]. unfold mbind, io_bind.
  specialize (Hbody a x w). destruct (body a x w) as [[a'|e] w1]; cbn [snd] in *.
  - by rewrite IH.
  - done.
Qed.

Lemma csv_written_app_other (w : world) (name : string) (d : file_data) :
  (forall rows, d <> Csv rows) ->
  csv_written (mk_world (dirs w) (files w ++ [(name, d)]) (region_reads w))
  = csv_written w.
Proof.
  intros Hd. unfold csv_written. cbn [files]. rewrite omap_app. cbn.
  destruct d; [by destruct (Hd rows) | |]; by rewrite app_nil_r.
Qed.

Lemma csv_written_app_csv (w : world) (name : string) (rows : list csv_row) :
  csv_written (mk_world (dirs w) (files w ++ [(name, Csv rows)]) (region_reads w))
  = csv_written w ++ [rows].
Proof. unfold csv_written. cbn [files]. by rewrite omap_app. Qed.

Lemma data_frame_fmap (f g : Z * Z -> Q) (coords : list (Z * Z)) :
  data_frame (fst <$> coords) (snd <$> coords) (f <$> coords) (g <$> coords)
  = (fun c => mk_csv_row c.1 c.2 (f c) (g c)) <$> coords.
Proof.
  induction coords as [|c coords IH]; [done|].
  rewrite !fmap_cons. cbn [data_frame]. by rewrite IH.
Qed.

Lemma mapM_dict_get_present {B : Type} (tumor_dict : gmap (Z * Z) Q) (k : Q -> B)
    (coords : list (Z * Z)) :
  (forall c, c ∈ coords -> is_Some (tumor_dict !! c)) ->
  mapM (fun coord => v ← dict_get tumor_dict coord; Ok (k v)) coords
  = Ok ((fun c => k (default 0%Q (tumor_dict !! c))) <$> coords).
Proof.
  induction coords as [|c coords IH]; intros Hall; [done|].
  destruct (Hall c (list_elem_of_here _ _)) as [v Hv].
  assert (Hg : dict_get tumor_dict c = Ok v) by (unfold dict_get; by rewrite Hv).
  cbn [mapM]. rewrite Hg, fmap_cons, Hv. cbn [mbind result_bind]. rewrite IH.
  - done.
  - intros c' Hc'. apply Hall. by apply list_elem_of_further.
Qed.


Ltac io_ok := erewrite io_bind_Ok by reflexivity; cbv beta iota.

(** The two steps of save_to_disk that create the directories. *)
Ltac save_dirs :=
  unfold save_to_disk; cbv zeta;
  io_ok; destruct (bool_decide _); cbn [negb]; io_ok;
  io_ok; destruct (bool_decide _); cbn [negb]; io_ok.

(** The loop of save_to_disk over the patches writes no table. *)
Ltac save_loop :=
  match goal with
  | |- context [(mbind ?k (foldM_io ?body tt ?l)) ?w2] =>
      let Hbody := fresh "Hbody" in
      assert (Hbody : forall a x w, csv_written (body a x w).2 = csv_written w);
      [ intros ? [i patch_] w0; unfold mbind, io_bind, lift;
        destruct (py_index _ i) as [[x_ y_]|?]; [|reflexivity];
        cbn -[append pretty]; rewrite !omap_app; cbn; by rewrite !app_nil_r
      | let Hl := fresh "Hloop" in
        pose proof (foldM_io_preserves csv_written body Hbody l tt w2) as Hl;
        let E := fresh "Eloop" in
        destruct (foldM_io body tt l w2) as [[[]|?] ?] eqn:E;
        [ erewrite io_bind_Ok by exact E | erewrite io_bind_Raise by exact E ];
        cbn [snd] in Hl ]
  end.

Lemma save_to_disk_csv (patches : list (ndarray pixel)) (coords : list (Z * Z))
    (tumor_dict : option (gmap (Z * Z) Q)) (mask : ndarray pixel)
    (slide_ : string) (level : Z) (sect : string) (w : world)
    (rows : list csv_row) :
  match tumor_dict with
  | None => rows = record_without_annotation <$> coords
  | Some d => (forall c, c ∈ coords -> is_Some (d !! c))
              /\ rows = record_with_default d <$> coords
  end ->
  csv_written (save_to_disk patches coords tumor_dict mask slide_ level sect w).2
  = csv_written w ++ [rows].
Proof.
  intros Hrows.
  assert (Hcols : exists areas pcts,
             match tumor_dict with
             | None =>
                 Ok ((fun _ => 0%Q) <$> coords, (fun _ => 0%Q) <$> coords)
             | Some tumor_dict =>
                 tumor_area ← mapM (dict_get tumor_dict) coords;
                 tumor_pct ←
                   mapM (fun coord =>
                           v ← dict_get tumor_dict coord;
                           Ok (v / inject_Z (PATCH_SIZE * PATCH_SIZE))%Q) coords;
                 Ok (tumor_area, tumor_pct)
             end = Ok (areas, pcts)
             /\ data_frame coords.*1 coords.*2 areas pcts = rows).
  { destruct tumor_dict as [d|].
    - destruct Hrows as [Hall ->].
      pose proof (mapM_dict_get_present d (fun v => v) coords Hall) as H1.
      pose proof (mapM_dict_get_present d
                    (fun v => (v / inject_Z (PATCH_SIZE * PATCH_SIZE))%Q)
                    coords Hall) as H2.
      eexists _, _. split.
      + assert (E : mapM (dict_get d) coords
                    = mapM (fun coord => v ← dict_get d coord; Ok v) coords).
        { clear. induction coords as [|c coords IH]; [done|]. cbn [mapM].
          rewrite IH. by destruct (dict_get d c). }
        rewrite E, H1. cbn [mbind result_bind]. rewrite H2. reflexivity.
      + by rewrite data_frame_fmap.
    - subst rows. eexists _, _. split; [reflexivity|]. by rewrite data_frame_fmap. }
  destruct Hcols as (areas & pcts & Hcols & <-).
  save_dirs.
  all: erewrite io_bind_Ok by (unfold lift; rewrite Hcols; reflexivity);
       cbv beta iota; io_ok; save_loop.
  all: try io_ok; unfold write_file; cbn [snd];
       unfold csv_written in *; cbn [files] in *;
       rewrite ?omap_app, Hloop, ?omap_app; cbn [omap list_omap snd];
       by rewrite ?app_nil_r.
Qed.









(** ** The driver *)

Lemma extract_all_annotated `{cv : OpenCV} `{fs : Files} (slide_path : string)
    (level mag_factor : Z) (w : world) :
  extract_all slide_path level mag_factor true w
  = match openSlide_init slide_path level with
    | Ok _ => (Raise (NameError "anno_path"), w)
    | Raise e => (Raise e, w)
    end.
Proof.
  unfold extract_all. cbv zeta. unfold mbind at 1, io_bind at 1, lift at 1.
  destruct (openSlide_init slide_path level) as [wsi_obj|e]; reflexivity.
Qed.

Lemma extract_all_unopened `{cv : OpenCV} `{fs : Files} (slide_path : string)
    (level mag_factor : Z) (pnflag : bool) (w : world) :
  openSlide_init slide_path level = Ok None ->
  extract_all slide_path level mag_factor pnflag w
  = (Raise (if pnflag then NameError "anno_path" else AttributeError), w).
Proof.
  intros Hinit. destruct pnflag.
  - by rewrite extract_all_annotated, Hinit.
  - unfold extract_all. cbv zeta. unfold mbind at 1, io_bind at 1, lift at 1.
    rewrite Hinit. reflexivity.
Qed.

(** C9 (as the code has it).  When OpenSlide refuses the format of the slide,
    openSlide_init catches the error and returns None, so the run does not
    fail with the unsupported-format error; the run for that slide still
    aborts, before any region is read, and nothing is written. *)
Theorem C9_unsupported_slide_aborts `{cv : OpenCV} `{fs : Files}
    (slide_path : string) (level mag_factor : Z) (pnflag : bool) (w : world) :
  OpenSlide slide_path = Raise OpenSlideUnsupportedFormatError ->
  openSlide_init slide_path level = Ok None
  /\ exists e,
      extract_all slide_path level mag_factor pnflag w = (Raise e, w)
      /\ e <> OpenSlideUnsupportedFormatError.
Proof.
  intros Hopen.
  assert (Hinit : openSlide_init slide_path level = Ok None).
  { unfold openSlide_init. by rewrite Hopen. }
  split; [done|]. rewrite (extract_all_unopened _ _ _ _ _ Hinit).
  eexists. split; [reflexivity|]. by destruct pnflag.
Qed.

Lemma C9_witness :
  @openSlide_init ex_files "nope.tif" 1 = Ok None
  /\ exists e,
      @extract_all ex_cv ex_files "nope.tif" 1 2 false ex_world = (Raise e, ex_world)
      /\ e <> OpenSlideUnsupportedFormatError.
Proof.
  apply (C9_unsupported_slide_aborts (cv := ex_cv) (fs := ex_files)
           "nope.tif" 1 2 false ex_world).
  reflexivity.
Defined.

(** A slide that OpenSlide refuses: the run ends with AttributeError, raised
    by the first read through the missing slide object, and not with the
    unsupported-format error. *)
Lemma C9_counterexample :
  @OpenSlide ex_files "nope.tif" = Raise OpenSlideUnsupportedFormatError
  /\ (@extract_all ex_cv ex_files "nope.tif" 1 2 false ex_world).1
     = Raise AttributeError
  /\ (@extract_all ex_cv ex_files "nope.tif" 1 2 false ex_world).1
     <> Raise OpenSlideUnsupportedFormatError.
Proof.
  split; [reflexivity|].
  rewrite (extract_all_unopened (cv := ex_cv) (fs := ex_files) "nope.tif" 1 2
             false ex_world eq_refl).
  split; [reflexivity | discriminate].
Qed.

(** C10 (as the code has it).  A call of extract_all with pnflag set never
    returns, reads no region and writes nothing: when openSlide_init
    returns, the call ends with NameError on anno_path, the first of the
    unbound names of the parse_annotation call; when openSlide_init raises,
    its exception ends the call.  The module binds neither anno_path nor
    anno_sample nor calc_tumorArea. *)
Theorem C10_annotated_path_fails `{cv : OpenCV} `{fs : Files}
    (slide_path : string) (level mag_factor : Z) (w : world) :
  (forall wsi_obj,
      openSlide_init slide_path level = Ok wsi_obj ->
      extract_all slide_path level mag_factor true w
      = (Raise (NameError "anno_path"), w))
  /\ (forall e,
        openSlide_init slide_path level = Raise e ->
        extract_all slide_path level mag_factor true w = (Raise e, w))
  /\ (exists e, extract_all slide_path level mag_factor true w = (Raise e, w))
  /\ is_unbound_name_error (NameError "anno_path") = true
  /\ load_global "anno_path" = Raise (NameError "anno_path")
  /\ load_global "anno_sample" = Raise (NameError "anno_sample")
  /\ load_global "calc_tumorArea" = Raise (NameError "calc_tumorArea")
  /\ extract_all_parse_annotation = Raise (NameError "anno_path")
  /\ extract_all_calc_tumorArea = Raise (NameError "calc_tumorArea").
Proof.
  rewrite extract_all_annotated.
  split; [by intros wsi_obj ->|]. split; [by intros e ->|].
  split; [destruct (openSlide_init slide_path level); by eexists|].
  repeat split; reflexivity.
Qed.

Lemma C10_witness :
  @openSlide_init ex_files "slide.tif" 1 = Ok (Some ex_slide)
  /\ @extract_all ex_cv ex_files "slide.tif" 1 2 true ex_world
     = (Raise (NameError "anno_path"), ex_world).
Proof.
  split; [reflexivity|].
  apply (proj1 (C10_annotated_path_fails (cv := ex_cv) (fs := ex_files)
                  "slide.tif" 1 2 ex_world) (Some ex_slide)).
  reflexivity.
Defined.

(** A level that the slide does not have: openSlide_init raises IndexError
    when it reads the dimensions, and the call with pnflag set ends with
    that exception, which is no unbound-name error. *)
Lemma C10_counterexample :
  level_dimensions ex_slide = [(4000, 4000); (2000, 2000)]
  /\ @openSlide_init ex_files "slide.tif" 7 = Raise IndexError
  /\ (@extract_all ex_cv ex_files "slide.tif" 7 2 true ex_world).1
     = Raise IndexError
  /\ is_unbound_name_error IndexError = false
  /\ ~ (exists e,
         (@extract_all ex_cv ex_files "slide.tif" 7 2 true ex_world).1 = Raise e
         /\ is_unbound_name_error e = true).
Proof.
  split; [reflexivity|]. split; [reflexivity|].
  rewrite (extract_all_annotated (cv := ex_cv) (fs := ex_files)).
  split; [reflexivity|]. split; [reflexivity|].
  intros (e & He & Hn). cbn in He. injection He as <-. discriminate.
Qed.

(** * Further properties *)

(** ** The grid of sections *)

Lemma elem_of_section_list (sect : string) :
  sect ∈ section_list
  <-> exists col row, 0 <= col < 4 /\ 0 <= row < 4 /\ sect = sect_of col row.
Proof.
  split.
  - intros Hin. unfold section_list in Hin.
    repeat (apply elem_of_cons in Hin as [->|Hin]);
      [..|by apply elem_of_nil in Hin].
    all: match goal with
         | |- exists col row, _ /\ _ /\ String ?a (String ?b _) = _ =>
             exists (Z.of_N (N_of_ascii a) - 48), (Z.of_N (N_of_ascii b) - 48)
         end; cbn; repeat split; lia.
  - intros (col & row & Hc & Hr & ->).
    assert (col = 0 \/ col = 1 \/ col = 2 \/ col = 3) as Hcol by lia.
    assert (row = 0 \/ row = 1 \/ row = 2 \/ row = 3) as Hrow by lia.
    clear Hc Hr. destruct Hcol as [-> | [-> | [-> | ->]]], Hrow as [-> | [-> | [-> | ->]]];
      vm_compute; set_solver.
Qed.

Lemma int_at_sect_of (col row : Z) :
  0 <= col < 4 -> 0 <= row < 4 ->
  int_at (sect_of col row) 0 = Ok col /\ int_at (sect_of col row) 1 = Ok row.
Proof.
  intros Hc Hr.
  assert (col = 0 \/ col = 1 \/ col = 2 \/ col = 3) as Hcol by lia.
  assert (row = 0 \/ row = 1 \/ row = 2 \/ row = 3) as Hrow by lia.
  clear Hc Hr. destruct Hcol as [-> | [-> | [-> | ->]]], Hrow as [-> | [-> | [-> | ->]]];
    split; reflexivity.
Qed.

Lemma section_delta_sect_of (wsi_obj : option slide) (level Wd Ht col row : Z) :
  wsi_level_dimensions wsi_obj level = Ok (Wd, Ht) ->
  0 <= col < 4 -> 0 <= row < 4 ->
  section_delta wsi_obj level (sect_of col row)
  = Ok (Wd `div` SPLIT, Ht `div` SPLIT,
        col * (Wd `div` SPLIT), row * (Ht `div` SPLIT)).
Proof.
  intros HW Hc Hr. apply section_delta_Ok.
  destruct (int_at_sect_of col row Hc Hr) as [? ?].
  by exists Wd, Ht, col, row.
Qed.

(** X1.  At a level of dimensions (W, H) every section of section_list has
    an offset, and its rectangle of size (W // SPLIT, H // SPLIT) lies
    inside the level. *)
Theorem X1_sections_inside_level (wsi_obj : option slide) (level Wd Ht : Z)
    (sect : string) :
  wsi_level_dimensions wsi_obj level = Ok (Wd, Ht) ->
  0 <= Wd -> 0 <= Ht ->
  sect ∈ section_list ->
  exists delta_x delta_y,
    section_delta wsi_obj level sect
      = Ok (Wd `div` SPLIT, Ht `div` SPLIT, delta_x, delta_y)
    /\ 0 <= delta_x /\ delta_x + Wd `div` SPLIT <= Wd
    /\ 0 <= delta_y /\ delta_y + Ht `div` SPLIT <= Ht.
Proof.
  intros HW HWd HHt (col & row & Hc & Hr & ->)%elem_of_section_list.
  exists (col * (Wd `div` SPLIT)), (row * (Ht `div` SPLIT)).
  split; [by apply section_delta_sect_of|].
  unfold SPLIT.
  pose proof (Z.mul_div_le Wd 4 ltac:(lia)).
  pose proof (Z.mul_div_le Ht 4 ltac:(lia)).
  pose proof (Z.div_pos Wd 4 HWd ltac:(lia)).
  pose proof (Z.div_pos Ht 4 HHt ltac:(lia)).
  nia.
Qed.

Lemma X1_witness :
  exists delta_x delta_y,
    section_delta (Some ex_slide) 1 "23"
      = Ok (2000 `div` SPLIT, 2000 `div` SPLIT, delta_x, delta_y)
    /\ 0 <= delta_x /\ delta_x + 2000 `div` SPLIT <= 2000
    /\ 0 <= delta_y /\ delta_y + 2000 `div` SPLIT <= 2000.
Proof.
  apply (X1_sections_inside_level (Some ex_slide) 1 2000 2000 "23");
    [reflexivity | lia | lia |].
  vm_compute. set_solver.
Defined.

(** X2.  The sections of section_list tile the level: a pixel (x, y) with
    x < SPLIT * (W // SPLIT) and y < SPLIT * (H // SPLIT) lies in exactly one
    of them, and the strips that no section covers, on the right and at the
    bottom, are narrower than SPLIT pixels. *)
Theorem X2_sections_tile_level (wsi_obj : option slide) (level Wd Ht x y : Z) :
  wsi_level_dimensions wsi_obj level = Ok (Wd, Ht) ->
  0 <= x < SPLIT * (Wd `div` SPLIT) -> 0 <= y < SPLIT * (Ht `div` SPLIT) ->
  (exists sect delta_x delta_y,
      sect ∈ section_list
      /\ section_delta wsi_obj level sect
         = Ok (Wd `div` SPLIT, Ht `div` SPLIT, delta_x, delta_y)
      /\ in_section (Wd `div` SPLIT) (Ht `div` SPLIT) delta_x delta_y x y
      /\ forall sect' delta_x' delta_y',
           sect' ∈ section_list ->
           section_delta wsi_obj level sect'
             = Ok (Wd `div` SPLIT, Ht `div` SPLIT, delta_x', delta_y') ->
           in_section (Wd `div` SPLIT) (Ht `div` SPLIT) delta_x' delta_y' x y ->
           sect' = sect)
  /\ Wd - SPLIT * (Wd `div` SPLIT) < SPLIT
  /\ Ht - SPLIT * (Ht `div` SPLIT) < SPLIT.
Proof.
  intros HW Hx Hy. unfold SPLIT in *.
  set (ws := Wd `div` 4) in *. set (hs := Ht `div` 4) in *.
  assert (Hws : 0 < ws) by lia. assert (Hhs : 0 < hs) by lia.
  split.
  - set (col := x `div` ws). set (row := y `div` hs).
    pose proof (Z.div_mod x ws ltac:(lia)) as Hdx.
    pose proof (Z.mod_pos_bound x ws Hws) as Hmx.
    pose proof (Z.div_mod y hs ltac:(lia)) as Hdy.
    pose proof (Z.mod_pos_bound y hs Hhs) as Hmy.
    fold col in Hdx. fold row in Hdy.
    assert (Hc : 0 <= col < 4) by nia. assert (Hr : 0 <= row < 4) by nia.
    exists (sect_of col row), (col * ws), (row * hs).
    split; [apply elem_of_section_list; by exists col, row|].
    split; [by apply (section_delta_sect_of wsi_obj level Wd Ht)|].
    split; [unfold in_section; nia|].
    intros sect' dx' dy' (col' & row' & Hc' & Hr' & ->)%elem_of_section_list Hd Hin.
    rewrite (section_delta_sect_of wsi_obj level Wd Ht col' row' HW Hc' Hr') in Hd.
    unfold SPLIT in Hd. fold ws hs in Hd. injection Hd as <- <-.
    destruct Hin as [Hin1 Hin2].
    assert (col' = col) as -> by nia. assert (row' = row) as -> by nia. done.
  - pose proof (Z.div_mod Wd 4 ltac:(lia)) as HdW.
    pose proof (Z.mod_pos_bound Wd 4 ltac:(lia)) as HmW.
    pose proof (Z.div_mod Ht 4 ltac:(lia)) as HdH.
    pose proof (Z.mod_pos_bound Ht 4 ltac:(lia)) as HmH.
    fold ws in HdW. fold hs in HdH. lia.
Qed.

Lemma X2_witness :
  (exists sect delta_x delta_y,
      sect ∈ section_list
      /\ section_delta (Some ex_slide) 1 sect
         = Ok (2000 `div` SPLIT, 2000 `div` SPLIT, delta_x, delta_y)
      /\ in_section (2000 `div` SPLIT) (2000 `div` SPLIT) delta_x delta_y 1234 77
      /\ forall sect' delta_x' delta_y',
           sect' ∈ section_list ->
           section_delta (Some ex_slide) 1 sect'
             = Ok (2000 `div` SPLIT, 2000 `div` SPLIT, delta_x', delta_y') ->
           in_section (2000 `div` SPLIT) (2000 `div` SPLIT) delta_x' delta_y'
                      1234 77 ->
           sect' = sect)
  /\ 2000 - SPLIT * (2000 `div` SPLIT) < SPLIT
  /\ 2000 - SPLIT * (2000 `div` SPLIT) < SPLIT.
Proof.
  apply (X2_sections_tile_level (Some ex_slide) 1 2000 2000 1234 77);
    [reflexivity | |]; vm_compute; split; congruence.
Defined.

(** ** Opening and reading the slide *)

(** X3.  openSlide_init returns None exactly when OpenSlide refuses the
    format, returns the slide exactly when OpenSlide opens it and the slide
    has the level, and otherwise raises: the other exceptions of OpenSlide
    pass through, and a level that the slide lacks gives IndexError. *)
Theorem X3_openSlide_init_outcomes `{fs : Files} (tif_file_path : string)
    (level : Z) :
  (openSlide_init tif_file_path level = Ok None
   <-> OpenSlide tif_file_path = Raise OpenSlideUnsupportedFormatError)
  /\ (forall s,
        openSlide_init tif_file_path level = Ok (Some s)
        <-> OpenSlide tif_file_path = Ok s
            /\ exists dims, wsi_level_dimensions (Some s) level = Ok dims)
  /\ (forall e,
        openSlide_init tif_file_path level = Raise e
        <-> (OpenSlide tif_file_path = Raise e
             /\ e <> OpenSlideUnsupportedFormatError)
            \/ (exists s, OpenSlide tif_file_path = Ok s
                  /\ wsi_level_dimensions (Some s) level = Raise e)).
Proof.
  unfold openSlide_init, wsi_level_dimensions.
  destruct (OpenSlide tif_file_path) as [s|e0].
  - destruct (py_index (level_dimensions s) level) as [[w h]|e1] eqn:Ep; simpl.
    + split; [split; intros HH; discriminate HH|]. split.
      * intros s'. split.
        -- intros [= <-]. split; [done|]. by exists (w, h).
        -- by intros [[= <-] _].
      * intros e. split; [intros HH; discriminate HH|].
        intros [[HH _]|(s' & [= <-] & HH)]; congruence.
    + split; [split; intros HH; discriminate HH|]. split.
      * intros s'. split; [intros HH; discriminate HH|].
        intros [[= <-] [? HH]]; congruence.
      * intros e. split.
        -- intros [= <-]. right. by exists s.
        -- intros [[HH _]|(s' & [= <-] & HH)]; congruence.
  - split; [|split].
    + destruct e0; split; congruence.
    + intros s. destruct e0; (split; [intros HH; discriminate HH | by intros [? _]]).
    + intros e. split.
      * destruct e0; intros [= <-]; left; split; congruence.
      * intros [[[= <-] Hne]|(? & ? & _)]; [|discriminate].
        by destruct e0.
Qed.

Lemma read_wsi_eq (s : slide) (level mag_factor : Z) (sect : string)
    (Wd Ht col row : Z) (w : world) :
  wsi_level_dimensions (Some s) level = Ok (Wd, Ht) ->
  int_at sect 0 = Ok col -> int_at sect 1 = Ok row ->
  read_wsi (Some s) level mag_factor sect w
  = (read_region s (col * (Wd `div` SPLIT) * mag_factor,
                    row * (Ht `div` SPLIT) * mag_factor)
                 level (Wd `div` SPLIT, Ht `div` SPLIT),
     mk_world (dirs w) (files w)
              (region_reads w
               ++ [((col * (Wd `div` SPLIT) * mag_factor,
                     row * (Ht `div` SPLIT) * mag_factor),
                    level, (Wd `div` SPLIT, Ht `div` SPLIT))])).
Proof.
  intros HW Hc Hr. unfold read_wsi.
  assert (Hd : section_delta (Some s) level sect
               = Ok (Wd `div` SPLIT, Ht `div` SPLIT,
                     col * (Wd `div` SPLIT), row * (Ht `div` SPLIT))).
  { apply section_delta_Ok. by exists Wd, Ht, col, row. }
  erewrite io_bind_Ok by (unfold lift; rewrite Hd; reflexivity).
  cbv beta iota. erewrite io_bind_Ok by reflexivity. reflexivity.
Qed.

(** X4.  read_wsi reads one region per call: the section's offset times the
    magnification factor as location in level 0, the chosen level, and the
    section size; it returns what the slide returns for that region.  When
    the slide is missing or the section name is malformed it raises before
    any read. *)
Theorem X4_read_wsi_reads_the_section (wsi_obj : option slide)
    (level mag_factor : Z) (sect : string) (w : world) :
  (forall s Wd Ht col row,
      wsi_obj = Some s ->
      wsi_level_dimensions wsi_obj level = Ok (Wd, Ht) ->
      int_at sect 0 = Ok col -> int_at sect 1 = Ok row ->
      (read_wsi wsi_obj level mag_factor sect w).1
        = read_region s (col * (Wd `div` SPLIT) * mag_factor,
                         row * (Ht `div` SPLIT) * mag_factor)
                      level (Wd `div` SPLIT, Ht `div` SPLIT)
      /\ region_reads (read_wsi wsi_obj level mag_factor sect w).2
         = region_reads w
           ++ [((col * (Wd `div` SPLIT) * mag_factor,
                 row * (Ht `div` SPLIT) * mag_factor),
                level, (Wd `div` SPLIT, Ht `div` SPLIT))]
      /\ files (read_wsi wsi_obj level mag_factor sect w).2 = files w)
  /\ (forall e,
        section_delta wsi_obj level sect = Raise e ->
        read_wsi wsi_obj level mag_factor sect w = (Raise e, w))
  /\ (wsi_obj = None ->
      read_wsi wsi_obj level mag_factor sect w = (Raise AttributeError, w)).
Proof.
  split; [|split].
  - intros s Wd Ht col row -> HW Hc Hr.
    by rewrite (read_wsi_eq s level mag_factor sect Wd Ht col row w).
  - intros e He. unfold read_wsi.
    erewrite io_bind_Raise by (unfold lift; rewrite He; reflexivity). done.
  - intros ->. reflexivity.
Qed.

Lemma X4_witness :
  (@read_wsi (Some ex_slide) 1 2 "10" ex_world).1
    = read_region ex_slide (1 * (2000 `div` SPLIT) * 2, 0 * (2000 `div` SPLIT) * 2)
                  1 (2000 `div` SPLIT, 2000 `div` SPLIT)
  /\ region_reads (read_wsi (Some ex_slide) 1 2 "10" ex_world).2
     = region_reads ex_world
       ++ [((1 * (2000 `div` SPLIT) * 2, 0 * (2000 `div` SPLIT) * 2),
            1, (2000 `div` SPLIT, 2000 `div` SPLIT))]
  /\ files (read_wsi (Some ex_slide) 1 2 "10" ex_world).2 = files ex_world.
Proof.
  apply (proj1 (X4_read_wsi_reads_the_section (Some ex_slide) 1 2 "10" ex_world)
           ex_slide 2000 2000 1 0); reflexivity.
Defined.

(** X5.  The region that read_wsi loads and the coordinates that
    construct_bags records agree: for every recorded patch, the global
    coordinate times the magnification factor is the level-0 location of
    the region plus the local coordinate times the magnification factor. *)
Theorem X5_patch_position_in_level0 `{cv : OpenCV} (s : slide)
    (wsi_rgb : ndarray pixel) (contours : list contour) (mask : ndarray pixel)
    (level mag_factor P : Z) (sect : string) (b : bags) (w : world) :
  construct_bags (Some s) wsi_rgb contours mask level mag_factor P sect = Ok b ->
  exists location size,
    region_reads (read_wsi (Some s) level mag_factor sect w).2
      = region_reads w ++ [(location, level, size)]
    /\ Forall2 (fun g l =>
                  (g.1 * mag_factor, g.2 * mag_factor)
                  = (location.1 + l.1 * mag_factor,
                     location.2 + l.2 * mag_factor))
               (patches_coords b) (patches_coords_local b).
Proof.
  intros Hb. apply construct_bags_Ok in Hb
    as (Wd & Ht & col & row & cs & HW & Hc & Hr & _ & _ & ->).
  rewrite (read_wsi_eq s level mag_factor sect Wd Ht col row w HW Hc Hr).
  eexists _, _. split; [reflexivity|].
  cbn [patches_coords patches_coords_local bags_of fst snd].
  induction (List.filter _ cs) as [|c l IH]; [constructor|].
  rewrite fmap_cons. constructor; [|done].
  unfold shift. cbn [fst snd]. f_equal; lia.
Qed.

Lemma X5_witness :
  exists b location size,
    @construct_bags ex_cv (Some ex_slide) ex_rgb ex_contours ex_mask 1 2 4 "10"
      = Ok b
    /\ region_reads (read_wsi (Some ex_slide) 1 2 "10" ex_world).2
       = region_reads ex_world ++ [(location, 1, size)]
    /\ Forall2 (fun g l =>
                  (g.1 * 2, g.2 * 2) = (location.1 + l.1 * 2, location.2 + l.2 * 2))
               (patches_coords b) (patches_coords_local b).
Proof.
  eexists. 
  assert (Hb : @construct_bags ex_cv (Some ex_slide) ex_rgb ex_contours ex_mask
                 1 2 4 "10" = Ok _) by (vm_compute; reflexivity).
  destruct (X5_patch_position_in_level0 (cv := ex_cv) ex_slide ex_rgb ex_contours
              ex_mask 1 2 4 "10" _ ex_world Hb) as (location & size & H1 & H2).
  exists location, size. split; [exact Hb|]. split; [exact H1 | exact H2].
Defined.

(** ** Blocks and colours *)

Lemma window_shape_eq (a : ndarray pixel) (P x y : Z) :
  0 <= x -> 0 <= y -> 0 < P ->
  shape (window a P x y)
  = (Z.max 0 (Z.min P (Z.of_nat (height a) - y)),
     Z.max 0 (Z.min P (Z.of_nat (width a) - x)), 3).
Proof.
  intros Hx Hy HP.
  unfold shape, window, slice2, slice_len, slice_index. cbn [height width].
  destruct (Z.ltb_spec y 0), (Z.ltb_spec (y + P) 0),
           (Z.ltb_spec x 0), (Z.ltb_spec (x + P) 0); try lia.
  apply (f_equal2 pair); [apply (f_equal2 pair)|done]; lia.
Qed.

Lemma window_full_shape_iff (a : ndarray pixel) (P x y : Z) :
  0 <= x -> 0 <= y -> 0 < P ->
  shape (window a P x y) = (P, P, 3)
  <-> x + P <= Z.of_nat (width a) /\ y + P <= Z.of_nat (height a).
Proof.
  intros Hx Hy HP. rewrite window_shape_eq by done. split.
  - intros [= H1 H2]. lia.
  - intros [? ?]. apply (f_equal2 pair); [apply (f_equal2 pair)|done]; lia.
Qed.

(** X6.  For a corner (x, y) >= 0 and P > 0 the block sliced at the corner
    has min(P, H - y) rows and min(P, W - x) columns (none when the corner
    is past the edge), holds the pixels of the array from the corner on,
    and has the full shape (P, P, 3) exactly when it fits in the array. *)
Theorem X6_window_shape (a : ndarray pixel) (P x y : Z) :
  0 <= x -> 0 <= y -> 0 < P ->
  shape (window a P x y)
  = (Z.max 0 (Z.min P (Z.of_nat (height a) - y)),
     Z.max 0 (Z.min P (Z.of_nat (width a) - x)), 3)
  /\ (shape (window a P x y) = (P, P, 3)
      <-> x + P <= Z.of_nat (width a) /\ y + P <= Z.of_nat (height a))
  /\ (x < Z.of_nat (width a) -> y < Z.of_nat (height a) ->
      forall i j, px (window a P x y) i j
                  = px a (Z.to_nat y + i)%nat (Z.to_nat x + j)%nat).
Proof.
  intros Hx Hy HP.
  split; [by apply window_shape_eq|]. split; [by apply window_full_shape_iff|].
  intros Hxw Hyh i j. unfold window, slice2, slice_start, slice_index.
  cbn [px]. destruct (Z.ltb_spec y 0), (Z.ltb_spec x 0); try lia.
  f_equal; lia.
Qed.

Lemma X6_witness :
  shape (window ex_rgb 4 498 494)
  = (Z.max 0 (Z.min 4 (Z.of_nat (height ex_rgb) - 494)),
     Z.max 0 (Z.min 4 (Z.of_nat (width ex_rgb) - 498)), 3)
  /\ (shape (window ex_rgb 4 498 494) = (4, 4, 3)
      <-> 498 + 4 <= Z.of_nat (width ex_rgb) /\ 494 + 4 <= Z.of_nat (height ex_rgb))
  /\ (498 < Z.of_nat (width ex_rgb) -> 494 < Z.of_nat (height ex_rgb) ->
      forall i j, px (window ex_rgb 4 498 494) i j
                  = px ex_rgb (Z.to_nat 494 + i)%nat (Z.to_nat 498 + j)%nat).
Proof. apply (X6_window_shape ex_rgb 4 498 494); lia. Defined.

Lemma rgb2gray_byte (p : pixel) :
  byte_pixel p -> is_byte (rgb2gray p).
Proof.
  destruct p as [[r g] b]. unfold byte_pixel, is_byte, rgb2gray. cbn [fst snd].
  intros (Hr & Hg & Hb). rewrite Z.shiftr_div_pow2 by lia.
  change (2 ^ 14) with 16384. split.
  - apply Z.div_pos; lia.
  - apply Z.lt_succ_r. apply Z.div_lt_upper_bound; lia.
Qed.

Lemma rgb2gray_of_gray (v : Z) : rgb2gray (v, v, v) = v.
Proof.
  unfold rgb2gray. rewrite Z.shiftr_div_pow2 by lia. change (2 ^ 14) with 16384.
  symmetry. apply (Z.div_unique _ _ v 8192); lia.
Qed.

(** X7.  construct_colored_wsi fails on an empty image, with ValueError
    where it unpacks the four channels, and otherwise returns three images
    with the rows and columns of its argument: the RGB image is the argument
    without its alpha channel, and the gray image of 8-bit channels is
    8-bit, a gray pixel (v, v, v) keeping its value v. *)
Theorem X7_construct_colored_wsi `{cv : OpenCV} (rgba_ : ndarray rgba_pixel) :
  (is_empty rgba_ = true -> construct_colored_wsi rgba_ = Raise ValueError)
  /\ (is_empty rgba_ = false ->
      exists wsi_rgb_ wsi_gray_ wsi_hsv_,
        construct_colored_wsi rgba_ = Ok (wsi_rgb_, wsi_gray_, wsi_hsv_)
        /\ height wsi_rgb_ = height rgba_ /\ width wsi_rgb_ = width rgba_
        /\ height wsi_gray_ = height rgba_ /\ width wsi_gray_ = width rgba_
        /\ height wsi_hsv_ = height rgba_ /\ width wsi_hsv_ = width rgba_
        /\ forall i j r g b a,
             px rgba_ i j = (r, g, b, a) ->
             px wsi_rgb_ i j = (r, g, b)
             /\ px wsi_hsv_ i j = cv2_RGB2HSV (r, g, b)
             /\ (is_byte r -> is_byte g -> is_byte b -> is_byte (px wsi_gray_ i j))
             /\ (r = g -> g = b -> px wsi_gray_ i j = r)).
Proof.
  unfold construct_colored_wsi, cv2_split.
  destruct (is_empty rgba_) eqn:Hempty; split; try done; intros _.
  unfold cv2_cvtColor_RGB2GRAY, cv2_cvtColor_RGB2HSV, cv2_merge.
  unfold is_empty in *. cbn [height width px] in *. rewrite Hempty.
  cbn [mbind result_bind]. eexists _, _, _. split; [reflexivity|].
  cbn [height width px]. repeat (split; [done|]).
  intros i j r g b a ->. cbn [fst snd]. split; [done|]. split; [done|]. split.
  - intros Hr Hg Hb. by apply rgb2gray_byte.
  - intros -> ->. apply rgb2gray_of_gray.
Qed.

Lemma X7_witness :
  exists wsi_rgb_ wsi_gray_ wsi_hsv_,
    @construct_colored_wsi ex_cv
      (mk_ndarray 2 3 (fun _ _ => (200, 180, 160, 255)))
      = Ok (wsi_rgb_, wsi_gray_, wsi_hsv_)
    /\ height wsi_rgb_ = 2%nat /\ width wsi_rgb_ = 3%nat
    /\ height wsi_gray_ = 2%nat /\ width wsi_gray_ = 3%nat
    /\ height wsi_hsv_ = 2%nat /\ width wsi_hsv_ = 3%nat
    /\ forall i j r g b a,
         (200, 180, 160, 255) = (r, g, b, a) ->
         px wsi_rgb_ i j = (r, g, b)
         /\ px wsi_hsv_ i j = @cv2_RGB2HSV ex_cv (r, g, b)
         /\ (is_byte r -> is_byte g -> is_byte b -> is_byte (px wsi_gray_ i j))
         /\ (r = g -> g = b -> px wsi_gray_ i j = r).
Proof.
  apply (proj2 (X7_construct_colored_wsi (cv := ex_cv)
                  (mk_ndarray 2 3 (fun _ _ => (200, 180, 160, 255))))).
  reflexivity.
Defined.

Lemma count_px_ext {A B : Type} (f : A -> bool) (g : B -> bool)
    (a : ndarray A) (b : ndarray B) :
  height a = height b -> width a = width b ->
  (forall i j, f (px a i j) = g (px b i j)) ->
  count_px f a = count_px g b.
Proof.
  intros Hh Hw Hfg. apply Z.le_antisymm.
  - apply count_px_mono; [done..|]. intros i j. by rewrite Hfg.
  - apply count_px_mono; [done..|]. intros i j. by rewrite Hfg.
Qed.

Lemma pixel_and_white (p : pixel) :
  byte_pixel p -> pixel_and p (PIXEL_WHITE, PIXEL_WHITE, PIXEL_WHITE) = p.
Proof.
  destruct p as [[r g] b]. unfold byte_pixel, is_byte, pixel_and, PIXEL_WHITE.
  cbn [fst snd]. intros (Hr & Hg & Hb).
  change 255 with (Z.ones 8). rewrite !Z.land_ones by lia.
  change (2 ^ 8) with 256. rewrite !Z.mod_small by lia. done.
Qed.

(** X8.  With a mask of black and white pixels of the shape of the image,
    and an image of 8-bit pixels none of which converts to gray 0, the
    count that decides acceptance is the number of mask pixels in the block:
    a corner is accepted exactly when its block has the full shape and the
    mask covers at least half of it. *)
Theorem X8_acceptance_is_mask_coverage `{cv : OpenCV}
    (wsi_rgb mask : ndarray pixel) (P x y : Z) :
  height mask = height wsi_rgb -> width mask = width wsi_rgb ->
  binary_mask mask ->
  (forall i j, byte_pixel (px wsi_rgb i j) /\ rgb2gray (px wsi_rgb i j) <> 0) ->
  0 < P ->
  (accepted wsi_rgb mask P x y
   <-> shape (window wsi_rgb P x y) = (P, P, 3)
       /\ P * P <= 2 * mask_covered (window mask P x y))
  /\ (accepts wsi_rgb mask P (x, y) = true
      <-> shape (window wsi_rgb P x y) = (P, P, 3)
          /\ P * P <= 2 * mask_covered (window mask P x y)).
Proof.
  intros Hh Hw Hbin Hrgb HP.
  assert (Hiff : accepted wsi_rgb mask P x y
            <-> shape (window wsi_rgb P x y) = (P, P, 3)
                /\ P * P <= 2 * mask_covered (window mask P x y)).
  { split.
    - intros Hacc. split; [by destruct Hacc as (? & ? & _ & _ & _ & ?)|].
      by apply (accepted_mask_covered wsi_rgb).
    - intros [Hshape Hcov]. unfold accepted.
      rewrite (cv2_bitwise_and_aligned wsi_rgb mask P x y Hh Hw).
      assert (Hdh : height (window wsi_rgb P x y) = height (window mask P x y)).
      { unfold window, slice2. cbn [height]. by rewrite Hh. }
      assert (Hdw : width (window wsi_rgb P x y) = width (window mask P x y)).
      { unfold window, slice2. cbn [width]. by rewrite Hw. }
      set (bw := mk_ndarray (height (window wsi_rgb P x y))
                            (width (window wsi_rgb P x y))
                            (fun i j => pixel_and (px (window wsi_rgb P x y) i j)
                                                  (px (window mask P x y) i j))).
      set (gr := mk_ndarray (height bw) (width bw)
                            (fun i j => rgb2gray (px bw i j))).
      exists bw, gr. split; [reflexivity|].
      split.
      { unfold cv2_cvtColor_RGB2GRAY, is_empty. cbn [height width bw].
        assert (Hsh : Z.of_nat (height (window wsi_rgb P x y)) = P)
          by (unfold shape in Hshape; congruence).
        assert (Hsw : Z.of_nat (width (window wsi_rgb P x y)) = P)
          by (unfold shape in Hshape; congruence).
        destruct (Nat.eqb_spec (height (window wsi_rgb P x y)) 0) as [E|_]; [lia|].
        destruct (Nat.eqb_spec (width (window wsi_rgb P x y)) 0) as [E|_]; [lia|].
        reflexivity. }
      split; [|done].
      assert (Hcnt : cv2_countNonZero gr = mask_covered (window mask P x y)).
      { unfold cv2_countNonZero, mask_covered.
        apply count_px_ext; [done..|]. intros i j. cbn [px gr bw].
        unfold window, slice2. cbn [px].
        set (p := px wsi_rgb _ _). set (m := px mask _ _).
        destruct (Hrgb (slice_start (height wsi_rgb) y + i)%nat
                       (slice_start (width wsi_rgb) x + j)%nat) as [Hb Hg].
        fold p in Hb, Hg.
        destruct (Hbin (slice_start (height mask) y + i)%nat
                       (slice_start (width mask) x + j)%nat) as [Hm|Hm];
          fold m in Hm; rewrite Hm.
        - rewrite rgb2gray_and_uncovered. reflexivity.
        - rewrite pixel_and_white by done. unfold nonzero.
          destruct (Z.eqb_spec (rgb2gray p) 0); [done|]. reflexivity. }
      rewrite Hcnt. done. }
  split; [done|]. by rewrite accepts_iff.
Qed.

Lemma X8_witness :
  (@accepted ex_cv ex_rgb ex_mask 4 496 494
   <-> shape (window ex_rgb 4 496 494) = (4, 4, 3)
       /\ 4 * 4 <= 2 * mask_covered (window ex_mask 4 496 494))
  /\ (@accepts ex_cv ex_rgb ex_mask 4 (496, 494) = true
      <-> shape (window ex_rgb 4 496 494) = (4, 4, 3)
          /\ 4 * 4 <= 2 * mask_covered (window ex_mask 4 496 494)).
Proof.
  apply (X8_acceptance_is_mask_coverage (cv := ex_cv) ex_rgb ex_mask 4 496 494);
    [reflexivity | reflexivity | | | lia].
  - intros i j. unfold ex_mask. cbn [px].
    destruct (_ && _); [by right | by left].
  - intros i j. split; [|discriminate].
    unfold byte_pixel, is_byte. cbn. lia.
Defined.

(** ** construct_bags at its edges *)

(** X9.  Without contours construct_bags returns three empty lists, whatever
    the images and the patch size; the slide and the section name are read
    first, so a missing slide or a malformed section name raises also
    then. *)
Theorem X9_no_contours_no_patches `{cv : OpenCV} (wsi_obj : option slide)
    (wsi_rgb mask : ndarray pixel) (level mag_factor P : Z) (sect : string) :
  (forall dims, section_delta wsi_obj level sect = Ok dims ->
      construct_bags wsi_obj wsi_rgb [] mask level mag_factor P sect
      = Ok bags_empty)
  /\ (forall e contours,
        section_delta wsi_obj level sect = Raise e ->
        construct_bags wsi_obj wsi_rgb contours mask level mag_factor P sect
        = Raise e)
  /\ (forall contours,
        wsi_obj = None ->
        construct_bags wsi_obj wsi_rgb contours mask level mag_factor P sect
        = Raise AttributeError).
Proof.
  unfold construct_bags. split; [|split].
  - intros [[[ws hs] dx] dy] ->. reflexivity.
  - intros e contours ->. reflexivity.
  - intros contours ->. reflexivity.
Qed.

Lemma X9_witness :
  @construct_bags ex_cv (Some ex_slide) ex_rgb [] ex_mask 1 2 0 "10"
  = Ok bags_empty.
Proof.
  apply (proj1 (X9_no_contours_no_patches (cv := ex_cv) (Some ex_slide) ex_rgb
                  ex_mask 1 2 0 "10") (500, 500, 500, 0)).
  reflexivity.
Defined.

Lemma kept_regions_nonempty `{cv : OpenCV} (contours : list contour) :
  contours <> [] -> exists c regions, kept_regions contours = c :: regions.
Proof.
  intros Hne. unfold kept_regions.
  pose proof (Permutation_length (sorted_reverse_Permutation cv2_contourArea contours))
    as Hlen.
  destruct (sorted_reverse cv2_contourArea contours) as [|c r].
  - destruct contours; [done | discriminate].
  - by exists c, (take 4 r).
Qed.

(** X10.  With a patch size of 0 or 1 the step of the grid is 0: as soon as
    there is a contour, construct_bags raises ZeroDivisionError. *)
Theorem X10_patch_size_below_two `{cv : OpenCV} (wsi_obj : option slide)
    (wsi_rgb : ndarray pixel) (contours : list contour) (mask : ndarray pixel)
    (level mag_factor P : Z) (sect : string) (dims : Z * Z * Z * Z) :
  section_delta wsi_obj level sect = Ok dims ->
  Forall (fun c => exists box, cv2_boundingRect (np_squeeze c) = Ok box) contours ->
  contours <> [] ->
  0 <= P < 2 ->
  construct_bags wsi_obj wsi_rgb contours mask level mag_factor P sect
  = Raise ZeroDivisionError.
Proof.
  intros Hd Hboxes Hne HP. unfold construct_bags. rewrite Hd.
  destruct dims as [[[ws hs] dx] dy]. cbn [mbind result_bind].
  fold (kept_regions contours).
  destruct (kept_regions_nonempty contours Hne) as (c & regions & Hk).
  pose proof (Forall_kept_regions _ contours Hboxes) as Hkept.
  rewrite Hk in Hkept |- *. apply Forall_cons in Hkept as [[[[[b0 b1] b2] b3] Hbox] _].
  cbn [foldM]. rewrite sample_region_eq. unfold region_corners.
  rewrite Hbox. cbn [mbind result_bind].
  assert (Hstep : P `div` 2 = 0) by (apply Z.div_small; lia).
  rewrite Hstep. reflexivity.
Qed.

Lemma X10_witness :
  @construct_bags ex_cv (Some ex_slide) ex_rgb ex_contours ex_mask 1 2 1 "10"
  = Raise ZeroDivisionError.
Proof.
  apply (X10_patch_size_below_two (cv := ex_cv) (Some ex_slide) ex_rgb
           ex_contours ex_mask 1 2 1 "10" (500, 500, 500, 0));
    [reflexivity | | discriminate | lia].
  repeat constructor. by eexists.
Defined.

Lemma np_arange_backwards (start len step : Z) :
  0 <= len -> step < 0 -> np_arange start (start + len) step = Ok [].
Proof.
  intros Hlen Hstep. unfold np_arange.
  destruct (Z.eqb_spec step 0) as [|_]; [lia|].
  assert (Hq : 0 <= (start - (start + len)) `div` step).
  { replace (start - (start + len)) with (- len) by lia.
    rewrite <- (Z.div_opp_opp (- len) step) by lia.
    apply Z.div_pos; lia. }
  rewrite Z.max_l by lia. reflexivity.
Qed.

Lemma corners_nil_l (Y : list Z) : corners [] Y = [].
Proof. unfold corners. induction Y as [|y Y IH]; [done|]. cbn. exact IH. Qed.

(** X11.  With a negative patch size the grids are empty (the ranges run
    backwards): construct_bags visits no corner and returns three empty
    lists. *)
Theorem X11_negative_patch_size `{cv : OpenCV} (wsi_obj : option slide)
    (wsi_rgb : ndarray pixel) (contours : list contour) (mask : ndarray pixel)
    (level mag_factor P : Z) (sect : string) (dims : Z * Z * Z * Z) :
  section_delta wsi_obj level sect = Ok dims ->
  Forall (fun c => exists bx by_ bw bh,
            cv2_boundingRect (np_squeeze c) = Ok (bx, by_, bw, bh)
            /\ 0 <= bw /\ 0 <= bh) contours ->
  P < 0 ->
  regions_corners P (kept_regions contours) = Ok []
  /\ construct_bags wsi_obj wsi_rgb contours mask level mag_factor P sect
     = Ok bags_empty.
Proof.
  intros Hd Hboxes HP.
  assert (Hstep : P `div` 2 < 0) by (apply Z.div_lt_upper_bound; lia).
  assert (Hcs : regions_corners P (kept_regions contours) = Ok []).
  { pose proof (Forall_kept_regions _ contours Hboxes) as Hkept.
    induction Hkept as [|c regions Hc _ IH]; [done|].
    destruct Hc as (bx & by_ & bw & bh & Hbox & Hbw & Hbh).
    cbn [regions_corners]. unfold region_corners. rewrite Hbox.
    cbn [mbind result_bind]. rewrite !np_arange_backwards by done.
    cbn [mbind result_bind]. rewrite IH. reflexivity. }
  split; [done|].
  destruct dims as [[[ws hs] dx] dy].
  apply section_delta_Ok in Hd as (Wd & Ht & col & row & HW & Hc & Hr & _).
  apply construct_bags_Ok. exists Wd, Ht, col, row, []. done.
Qed.

Lemma X11_witness :
  @regions_corners ex_cv (-4) (@kept_regions ex_cv ex_contours) = Ok []
  /\ @construct_bags ex_cv (Some ex_slide) ex_rgb ex_contours ex_mask 1 2 (-4) "10"
     = Ok bags_empty.
Proof.
  apply (X11_negative_patch_size (cv := ex_cv) (Some ex_slide) ex_rgb
           ex_contours ex_mask 1 2 (-4) "10" (500, 500, 500, 0));
    [reflexivity | | lia].
  repeat constructor. exists 494, 494, 6, 6. repeat split; (reflexivity || lia).
Defined.

Lemma region_corners_in_box `{cv : OpenCV} (P : Z) (box_ : contour)
    (bx by_ bw bh : Z) (cs : list (Z * Z)) :
  cv2_boundingRect (np_squeeze box_) = Ok (bx, by_, bw, bh) ->
  0 < P `div` 2 ->
  region_corners P box_ = Ok cs ->
  Forall (fun c => bx <= c.1 < bx + bw /\ by_ <= c.2 < by_ + bh) cs.
Proof.
  intros Hbox Hstep Hcs.
  destruct (np_arange_pos bx (bx + bw) _ Hstep) as (X & HX & _ & HinX).
  destruct (np_arange_pos by_ (by_ + bh) _ Hstep) as (Y & HY & _ & HinY).
  unfold region_corners in Hcs. rewrite Hbox in Hcs. cbn [mbind result_bind] in Hcs.
  rewrite HX in Hcs. cbn [mbind result_bind] in Hcs. rewrite HY in Hcs.
  injection Hcs as <-.
  apply Forall_forall. intros [x y] [Hx Hy]%elem_of_corners.
  apply HinX in Hx as (k & ? & -> & ?). apply HinY in Hy as (k' & ? & -> & ?).
  cbn [fst snd]. nia.
Qed.

Lemma regions_corners_nonneg `{cv : OpenCV} (P : Z) (regions : list contour)
    (cs : list (Z * Z)) :
  Forall (fun c => forall bx by_ bw bh,
            cv2_boundingRect (np_squeeze c) = Ok (bx, by_, bw, bh) ->
            0 <= bx /\ 0 <= by_) regions ->
  0 < P `div` 2 ->
  regions_corners P regions = Ok cs ->
  Forall (fun c => 0 <= c.1 /\ 0 <= c.2) cs.
Proof.
  intros Hall Hstep. revert cs.
  induction Hall as [|box_ regions Hbox _ IH]; intros cs Hcs.
  - injection Hcs as <-. constructor.
  - cbn [regions_corners] in Hcs.
    destruct (region_corners P box_) as [cs1|] eqn:E1; [|done].
    cbn [mbind result_bind] in Hcs.
    destruct (regions_corners P regions) as [cs2|] eqn:E2; [|done].
    injection Hcs as <-. apply Forall_app. split; [|by apply IH].
    assert (Hb : exists bx by_ bw bh,
               cv2_boundingRect (np_squeeze box_) = Ok (bx, by_, bw, bh)).
    { unfold region_corners in E1.
      destruct (cv2_boundingRect (np_squeeze box_)) as [[[[bx by_] bw] bh]|]; [|done].
      by exists bx, by_, bw, bh. }
    destruct Hb as (bx & by_ & bw & bh & Hb).
    destruct (Hbox bx by_ bw bh Hb) as [? ?].
    eapply Forall_impl; [exact (region_corners_in_box P box_ bx by_ bw bh cs1 Hb Hstep E1)|].
    intros c [? ?]. lia.
Qed.

(** X12.  When the bounding boxes start at non-negative coordinates and the
    patch size is at least 2, every patch that construct_bags records lies
    inside the image: its corner (x, y) satisfies 0 <= x, x + P <= WIDTH,
    0 <= y, y + P <= HEIGHT, and the patch is the P-by-P block of the image
    from that corner on. *)
Theorem X12_recorded_patches_inside_image `{cv : OpenCV}
    (wsi_obj : option slide) (wsi_rgb : ndarray pixel) (contours : list contour)
    (mask : ndarray pixel) (level mag_factor P : Z) (sect : string) (b : bags) :
  construct_bags wsi_obj wsi_rgb contours mask level mag_factor P sect = Ok b ->
  Forall (fun c => forall bx by_ bw bh,
            cv2_boundingRect (np_squeeze c) = Ok (bx, by_, bw, bh) ->
            0 <= bx /\ 0 <= by_) contours ->
  0 < P `div` 2 ->
  Forall2 (fun patch_arr l =>
             0 <= l.1 /\ l.1 + P <= Z.of_nat (width wsi_rgb)
             /\ 0 <= l.2 /\ l.2 + P <= Z.of_nat (height wsi_rgb)
             /\ Z.of_nat (height patch_arr) = P /\ Z.of_nat (width patch_arr) = P
             /\ forall i j, px patch_arr i j
                            = px wsi_rgb (Z.to_nat l.2 + i)%nat (Z.to_nat l.1 + j)%nat)
          (patches b) (patches_coords_local b).
Proof.
  intros Hb Hboxes Hstep.
  assert (HP : 0 < P).
  { destruct (Z.ltb_spec 0 P); [done|].
    assert (P `div` 2 <= 0); [|lia]. apply Z.div_le_upper_bound; lia. }
  apply construct_bags_Ok in Hb
    as (Wd & Ht & col & row & cs & _ & _ & _ & Hcs & _ & ->).
  pose proof (regions_corners_nonneg P _ cs
                (Forall_kept_regions _ contours Hboxes) Hstep Hcs) as Hnn.
  cbn [patches patches_coords_local bags_of].
  apply Forall2_fmap_l, Forall_Forall2_diag, Forall_forall.
  intros [x y] Hin. apply list_elem_of_In, List.filter_In in Hin as [Hin Hacc].
  apply list_elem_of_In in Hin. rewrite Forall_forall in Hnn.
  destruct (Hnn _ Hin) as [Hx Hy]. cbn [fst snd] in Hx, Hy.
  unfold compose. cbn [fst snd].
  apply accepts_iff in Hacc as (_ & _ & _ & _ & _ & Hshape).
  pose proof (proj1 (window_full_shape_iff wsi_rgb P x y Hx Hy HP) Hshape) as [? ?].
  repeat (split; [done|]).
  split; [unfold shape in Hshape; congruence|].
  split; [unfold shape in Hshape; congruence|].
  intros i j. unfold window, slice2, slice_start, slice_index. cbn [px].
  destruct (Z.ltb_spec y 0), (Z.ltb_spec x 0); try lia. f_equal; lia.
Qed.

Lemma X12_witness :
  exists b,
    @construct_bags ex_cv (Some ex_slide) ex_rgb ex_contours ex_mask 1 2 4 "10"
      = Ok b
    /\ Forall2 (fun patch_arr l =>
                 0 <= l.1 /\ l.1 + 4 <= Z.of_nat (width ex_rgb)
                 /\ 0 <= l.2 /\ l.2 + 4 <= Z.of_nat (height ex_rgb)
                 /\ Z.of_nat (height patch_arr) = 4 /\ Z.of_nat (width patch_arr) = 4
                 /\ forall i j, px patch_arr i j
                                = px ex_rgb (Z.to_nat l.2 + i)%nat
                                            (Z.to_nat l.1 + j)%nat)
               (patches b) (patches_coords_local b).
Proof.
  eexists.
  assert (Hb : @construct_bags ex_cv (Some ex_slide) ex_rgb ex_contours ex_mask
                 1 2 4 "10" = Ok _) by (vm_compute; reflexivity).
  split; [exact Hb|].
  apply (X12_recorded_patches_inside_image (cv := ex_cv) (Some ex_slide) ex_rgb
           ex_contours ex_mask 1 2 4 "10" _ Hb); [|reflexivity].
  constructor; [|constructor]. intros bx by_ bw bh [= <- <- _ _]. lia.
Defined.

(** ** The kept regions *)

(** X13.  The kept regions are the first min(5, n) contours of the
    descending ranking by area of the n contours: no more than five, each
    one a contour of the list, none smaller than a contour left out, and all
    of the contours when there are five or fewer. *)
Theorem X13_kept_regions_are_largest `{cv : OpenCV} (contours : list contour) :
  exists rest,
    sorted_reverse cv2_contourArea contours = kept_regions contours ++ rest
    /\ kept_regions contours ++ rest ≡ₚ contours
    /\ length (kept_regions contours) = Nat.min 5 (length contours)
    /\ descending cv2_contourArea (kept_regions contours)
    /\ (forall k r, k ∈ kept_regions contours -> r ∈ rest ->
                    (cv2_contourArea r <= cv2_contourArea k)%Q)
    /\ ((length contours <= 5)%nat -> rest = []).
Proof.
  exists (drop 5 (sorted_reverse cv2_contourArea contours)).
  unfold kept_regions.
  pose proof (sorted_reverse_Permutation cv2_contourArea contours) as Hperm.
  pose proof (sorted_reverse_descending cv2_contourArea contours) as Hdesc.
  rewrite take_drop. split; [done|]. split; [done|]. split.
  { rewrite length_take. by rewrite (Permutation_length Hperm). }
  rewrite <- (take_drop 5 (sorted_reverse cv2_contourArea contours)) in Hdesc.
  unfold descending in *.
  apply StronglySorted_app in Hdesc as (Hcross & Hkept & _).
  split; [done|]. split.
  - intros k r Hk Hr. apply Qle_bool_iff. by apply Hcross.
  - intros Hlen. apply drop_ge. by rewrite (Permutation_length Hperm).
Qed.

(** ** parse_annotation at its edges *)

(** X14.  With the annotation file, the slide and the section name in
    order, parse_annotation returns exactly when every attribute X and Y of
    the document is numeric and, if the document has a point at all, the
    magnification factor is not 0: one absent or non-numeric attribute makes
    the whole parse raise, no group is skipped. *)
Theorem X14_parse_annotation_returns_iff `{fs : Files} (anno_path : string)
    (wsi_obj : option slide) (sect : string) (level mag_factor : Z)
    (tree : list (list coor)) (dims : Z * Z * Z * Z) :
  ET_ElementTree anno_path = Ok tree ->
  section_delta wsi_obj level sect = Ok dims ->
  (exists r, parse_annotation anno_path wsi_obj sect level mag_factor = Ok r)
  <-> Forall (Forall (fun c => numeric_coor c /\ mag_factor <> 0)) tree.
Proof. apply parse_annotation_returns_iff. Qed.

Lemma X14_witness :
  (exists r, @parse_annotation ex_files "anno.xml" (Some ex_slide) "10" 1 2 = Ok r)
  <-> Forall (Forall (fun c => numeric_coor c /\ 2 <> 0)) ex_doc.
Proof.
  apply (X14_parse_annotation_returns_iff (fs := ex_files) "anno.xml"
           (Some ex_slide) "10" 1 2 ex_doc (500, 500, 500, 0)); reflexivity.
Defined.

Lemma parse_coor_local (mag_factor delta_x delta_y : Z) (c : coor)
    (g l : Z * Z) :
  parse_coor mag_factor delta_x delta_y c = Ok (g, l) ->
  l = local_point delta_x delta_y g.
Proof.
  unfold parse_coor. intros Hpr.
  destruct (float_attrib (attrib_X c)) as [fx|]; [|done].
  destruct (float_attrib (attrib_Y c)) as [fy|]; [|done].
  cbn [mbind result_bind] in Hpr.
  destruct (true_div (int_of_float fx) mag_factor) as [qx|]; [|done].
  destruct (true_div (int_of_float fy) mag_factor) as [qy|]; [|done].
  cbn [mbind result_bind] in Hpr. by injection Hpr as <- <-.
Qed.

(** X15.  In the result of parse_annotation every local coordinate belongs
    to the global coordinate at the same place: each of its components is
    either -1, when the global component lies before the section offset, or
    non-negative, and then the global component is the local one plus the
    offset. *)
Theorem X15_local_coordinates_of_annotation `{fs : Files} (anno_path : string)
    (wsi_obj : option slide) (sect : string) (level mag_factor : Z)
    (r : annotation) :
  parse_annotation anno_path wsi_obj sect level mag_factor = Ok r ->
  exists ws hs delta_x delta_y,
    section_delta wsi_obj level sect = Ok (ws, hs, delta_x, delta_y)
    /\ Forall2 (Forall2 (fun g l =>
                  (l.1 = -1 /\ g.1 < delta_x \/ 0 <= l.1 /\ g.1 = l.1 + delta_x)
                  /\ (l.2 = -1 /\ g.2 < delta_y
                      \/ 0 <= l.2 /\ g.2 = l.2 + delta_y)))
               (anno_list r) (anno_local_list r).
Proof.
  intros Hr. apply parse_annotation_Ok in Hr
    as (tree & Wd & Ht & col & row & groups & _ & HW & Hc & Hr & Hg & ->).
  eexists _, _, _, _. split.
  { apply section_delta_Ok. by exists Wd, Ht, col, row. }
  cbn [anno_list anno_local_list]. unfold globals_of, locals_of.
  apply Forall2_fmap, Forall_Forall2_diag, Forall_forall. intros prs Hprs.
  apply Forall2_fmap, Forall_Forall2_diag, Forall_forall. intros [g l] Hgl.
  cbn [fst snd].
  assert (Hl : l = local_point (col * (Wd `div` SPLIT)) (row * (Ht `div` SPLIT)) g).
  { apply list_elem_of_lookup in Hprs as [i Hi].
    destruct (Forall2_lookup_r _ _ _ _ _ Hg Hi) as (crds & _ & Hcrds).
    apply list_elem_of_lookup in Hgl as [j Hj].
    destruct (Forall2_lookup_r _ _ _ _ _ Hcrds Hj) as (c & _ & Hc0).
    by eapply parse_coor_local. }
  subst l. unfold local_point, sentinel. cbn [fst snd].
  destruct (Z.ltb_spec (g.1 - col * (Wd `div` SPLIT)) 0),
           (Z.ltb_spec (g.2 - row * (Ht `div` SPLIT)) 0); lia.
Qed.

Lemma X15_witness :
  exists r ws hs delta_x delta_y,
    @parse_annotation ex_files "anno.xml" (Some ex_slide) "10" 1 2 = Ok r
    /\ section_delta (Some ex_slide) 1 "10" = Ok (ws, hs, delta_x, delta_y)
    /\ Forall2 (Forall2 (fun g l =>
                  (l.1 = -1 /\ g.1 < delta_x \/ 0 <= l.1 /\ g.1 = l.1 + delta_x)
                  /\ (l.2 = -1 /\ g.2 < delta_y
                      \/ 0 <= l.2 /\ g.2 = l.2 + delta_y)))
               (anno_list r) (anno_local_list r).
Proof.
  eexists.
  assert (Hr : @parse_annotation ex_files "anno.xml" (Some ex_slide) "10" 1 2
               = Ok _) by (vm_compute; reflexivity).
  destruct (X15_local_coordinates_of_annotation (fs := ex_files) "anno.xml"
              (Some ex_slide) "10" 1 2 _ Hr) as (ws & hs & dx & dy & Hd & Hall).
  exists ws, hs, dx, dy. split; [exact Hr|]. split; [exact Hd | exact Hall].
Defined.

(** ** save_to_disk: files, outcome and directories *)

Lemma py_index_of_nat {A : Type} (l : list A) (k : nat) :
  py_index l (Z.of_nat k)
  = match l !! k with Some a => Ok a | None => Raise IndexError end.
Proof.
  unfold py_index. destruct (Z.ltb_spec (Z.of_nat k) 0) as [|_]; [lia|].
  destruct (Z.ltb_spec (Z.of_nat k) 0) as [|_]; [lia|]. cbn [orb].
  rewrite Nat2Z.id.
  destruct (Z.leb_spec (Z.of_nat (length l)) (Z.of_nat k)) as [Hle|Hlt].
  - rewrite lookup_ge_None_2; [done | lia].
  - done.
Qed.

Lemma world_eta (w : world) :
  mk_world (dirs w) (files w) (region_reads w) = w.
Proof. by destruct w. Qed.

(** The loop of save_to_disk over the patches, from patch number [k] on. *)
Lemma save_to_disk_loop (array_file : string) (coords : list (Z * Z))
    (patches : list (ndarray pixel)) (k : nat) (w : world) :
  foldM_io (fun (_ : unit) '(i, patch_) =>
              '(x_, y_) ← lift (py_index coords i);
              let patch_name := array_file +:+ pretty i +:+ "_"
                                +:+ pretty x_ +:+ "_" +:+ pretty y_ in
              _ ← write_file (patch_name +:+ ".npy") (Npy [patch_]);
              write_file (patch_name +:+ ".jpeg") (Jpeg patch_))
           tt (zip (Z.of_nat <$> seq k (length patches)) patches) w
  = (if decide (length patches <= length (drop k coords))%nat
     then Ok tt else Raise IndexError,
     mk_world (dirs w)
              (files w ++ saved_patches array_file k patches (drop k coords))
              (region_reads w)).
Proof.
  revert k w. induction patches as [|p patches IH]; intros k w.
  - cbn [length seq fmap list_fmap zip zip_with foldM_io saved_patches].
    rewrite decide_True by lia. rewrite app_nil_r, world_eta. done.
  - cbn [length seq fmap list_fmap zip zip_with foldM_io].
    unfold mbind at 1, io_bind at 1. unfold mbind at 1, io_bind at 1.
    unfold lift at 1. rewrite py_index_of_nat.
    destruct (coords !! k) as [[x_ y_]|] eqn:Ek.
    + rewrite (drop_S _ _ _ Ek). cbv zeta.
      unfold mbind at 1, io_bind at 1, write_file at 1 2.
      cbn [dirs files region_reads].
      fold (@fmap list _ nat Z Z.of_nat (seq (S k) (length patches))).
      fold (zip (Z.of_nat <$> seq (S k) (length patches)) patches).
      rewrite IH. cbn [dirs files region_reads length saved_patches].
      f_equal.
      * destruct (decide (length patches <= length (drop (S k) coords))%nat),
          (decide (S (length patches) <= S (length (drop (S k) coords)))%nat);
          (done || lia).
      * f_equal. unfold patch_files. cbn [fst snd].
        by rewrite <- !(assoc_L (++)).
    + rewrite drop_ge by by apply lookup_ge_None_1.
      cbn [length saved_patches]. rewrite decide_False by lia.
      by rewrite app_nil_r, world_eta.
Qed.

Lemma save_to_disk_columns (tumor_dict : option (gmap (Z * Z) Q))
    (coords : list (Z * Z)) :
  (forall d c, tumor_dict = Some d -> c ∈ coords -> is_Some (d !! c)) ->
  exists areas pcts,
    match tumor_dict with
    | None => Ok ((fun _ => 0%Q) <$> coords, (fun _ => 0%Q) <$> coords)
    | Some tumor_dict =>
        tumor_area ← mapM (dict_get tumor_dict) coords;
        tumor_pct ←
          mapM (fun coord =>
                  v ← dict_get tumor_dict coord;
                  Ok (v / inject_Z (PATCH_SIZE * PATCH_SIZE))%Q) coords;
        Ok (tumor_area, tumor_pct)
    end = Ok (areas, pcts)
    /\ data_frame coords.*1 coords.*2 areas pcts = table_of tumor_dict coords.
Proof.
  intros Hall. destruct tumor_dict as [d|]; cbn [table_of].
  - specialize (Hall d).
    pose proof (mapM_dict_get_present d (fun v => v) coords
                  (fun c Hc => Hall c eq_refl Hc)) as H1.
    pose proof (mapM_dict_get_present d
                  (fun v => (v / inject_Z (PATCH_SIZE * PATCH_SIZE))%Q)
                  coords (fun c Hc => Hall c eq_refl Hc)) as H2.
    eexists _, _. split.
    + assert (E : mapM (dict_get d) coords
                  = mapM (fun coord => v ← dict_get d coord; Ok v) coords).
      { clear. induction coords as [|c coords IH]; [done|]. cbn [mapM].
        rewrite IH. by destruct (dict_get d c). }
      rewrite E, H1. cbn [mbind result_bind]. rewrite H2. reflexivity.
    + by rewrite data_frame_fmap.
  - eexists _, _. split; [reflexivity|]. by rewrite data_frame_fmap.
Qed.

Lemma save_to_disk_outcome (patches : list (ndarray pixel))
    (coords : list (Z * Z)) (tumor_dict : option (gmap (Z * Z) Q))
    (mask : ndarray pixel) (slide_ : string) (level : Z) (sect : string)
    (w : world) :
  (forall d c, tumor_dict = Some d -> c ∈ coords -> is_Some (d !! c)) ->
  let dir := prefix_dir slide_ level sect in
  let fits := bool_decide (length patches <= length coords)%nat in
  let out := save_to_disk patches coords tumor_dict mask slide_ level sect w in
  out.1 = (if fits then Ok tt else Raise IndexError)
  /\ files out.2
     = files w
       ++ [(dir +:+ "patch_coords" +:+ sect +:+ ".csv",
            Csv (table_of tumor_dict coords))]
       ++ saved_patches (patch_array_dst slide_ level sect +:+ "patch_") 0
                        patches coords
       ++ (if fits
           then [((dir +:+ "patch_whole" +:+ sect) +:+ ".npy", Npy patches);
                 ((dir +:+ "mask") +:+ ".npy", Npy [mask])]
           else []).
Proof.
  intros Hall dir fits out.
  destruct (save_to_disk_columns tumor_dict coords Hall)
    as (areas & pcts & Hcols & Hrows).
  subst out fits dir.
  destruct (decide (length patches <= length coords)%nat) as [Hfit|Hfit];
    [rewrite !bool_decide_true by done | rewrite !bool_decide_false by done].
  all: unfold prefix_dir, patch_array_dst, case_name; save_dirs.
  all: erewrite io_bind_Ok by (unfold lift; rewrite Hcols; reflexivity);
       cbv beta iota; io_ok; rewrite Hrows.
  all: unfold enumerate.
  all: try (erewrite io_bind_Ok
              by (rewrite save_to_disk_loop, drop_0, decide_True by done;
                  reflexivity);
            io_ok; unfold write_file; cbn [fst snd dirs files region_reads];
            split; [done|]; by rewrite <- !(assoc_L (++))).
  all: erewrite io_bind_Raise
         by (rewrite save_to_disk_loop, drop_0, decide_False by done;
             reflexivity);
       unfold write_file; cbn [fst snd dirs files region_reads];
       split; [done|]; by rewrite app_nil_r, <- !(assoc_L (++)).
Qed.



Lemma string_app_assoc (a b c : string) : (a +:+ b) +:+ c = a +:+ (b +:+ c).
Proof.
  induction a as [|x a IH]; [done|].
  change (String x ((a +:+ b) +:+ c) = String x (a +:+ (b +:+ c))).
  by rewrite IH.
Qed.

Lemma dir_prefixes_slash (a : string) : a +:+ "/" ∈ dir_prefixes (a +:+ "/").
Proof.
  induction a as [|c a IH].
  - cbn. apply list_elem_of_here.
  - cbn [append dir_prefixes]. apply elem_of_app. right.
    apply list_elem_of_fmap. by exists (a +:+ "/").
Qed.

Lemma prefix_dir_slash (slide_ : string) (level : Z) (sect : string) :
  exists a, prefix_dir slide_ level sect = a +:+ "/".
Proof.
  exists ("./dataset_patches/" +:+ case_name slide_
          +:+ "/level" +:+ pretty level +:+ "/" +:+ sect).
  unfold prefix_dir. by rewrite !string_app_assoc.
Qed.

Lemma patch_array_dst_slash (slide_ : string) (level : Z) (sect : string) :
  exists a, patch_array_dst slide_ level sect = a +:+ "/".
Proof.
  exists ("./dataset_patches/" +:+ case_name slide_
          +:+ "/level" +:+ pretty level +:+ "/" +:+ sect +:+ "/patches").
  unfold patch_array_dst. by rewrite !string_app_assoc.
Qed.

Lemma under_app (dir name s : string) : under dir name -> under dir (name +:+ s).
Proof. intros [r ->]. exists (r +:+ s). apply string_app_assoc. Qed.

Lemma under_patch_array_dst (slide_ : string) (level : Z) (sect : string) :
  under (prefix_dir slide_ level sect) (patch_array_dst slide_ level sect).
Proof.
  exists "patches/". unfold prefix_dir, patch_array_dst.
  by rewrite !string_app_assoc.
Qed.

Lemma keeps_bind {A B : Type} (I : world -> Prop) (m : io A) (f : A -> io B) :
  keeps I m -> (forall a, keeps I (f a)) -> keeps I (m ≫= f).
Proof.
  intros Hm Hf w Hw. unfold mbind, io_bind. specialize (Hm w Hw).
  destruct (m w) as [[a|e] w1]; cbn [snd] in *; [by apply Hf | done].
Qed.

Lemma keeps_lift {A : Type} (I : world -> Prop) (r : result A) :
  keeps I (lift r).
Proof. by intros w Hw. Qed.

Lemma keeps_ret {A : Type} (I : world -> Prop) (a : A) : keeps I (mret a).
Proof. by intros w Hw. Qed.

Lemma keeps_foldM_io {A B : Type} (I : world -> Prop) (body : A -> B -> io A)
    (l : list B) :
  (forall a x, keeps I (body a x)) -> forall a, keeps I (foldM_io body a l).
Proof.
  intros Hbody. induction l as [|x l IH]; intros a; cbn [foldM_io].
  - apply keeps_ret.
  - by apply keeps_bind.
Qed.

Lemma keeps_write_file (slide_ : string) (level : Z) (sect : string)
    (w : world) (name : string) (d : file_data) :
  under (prefix_dir slide_ level sect) name ->
  keeps (saved_from slide_ level sect w) (write_file name d).
Proof.
  intros Hname w1 (Hd & Hp & Ha & Hr & new & Hf & Hnew).
  unfold write_file. cbn [snd]. repeat split; cbn [dirs files region_reads];
    try done.
  exists (new ++ [(name, d)]). split.
  - by rewrite Hf, (assoc_L (++)).
  - apply Forall_app. split; [done|]. by constructor.
Qed.

Lemma save_to_disk_saved_from (patches : list (ndarray pixel))
    (coords : list (Z * Z)) (tumor_dict : option (gmap (Z * Z) Q))
    (mask : ndarray pixel) (slide_ : string) (level : Z) (sect : string)
    (w : world) :
  saved_from slide_ level sect w
    (save_to_disk patches coords tumor_dict mask slide_ level sect w).2.
Proof.
  pose proof (under_patch_array_dst slide_ level sect) as Hpad.
  destruct (prefix_dir_slash slide_ level sect) as [a Ha].
  destruct (patch_array_dst_slash slide_ level sect) as [b Hb].
  pose proof (dir_prefixes_slash a) as Hina. rewrite <- Ha in Hina.
  pose proof (dir_prefixes_slash b) as Hinb. rewrite <- Hb in Hinb.
  clear a Ha b Hb.
  unfold save_to_disk. cbv zeta.
  fold (case_name slide_). fold (patch_array_dst slide_ level sect).
  fold (prefix_dir slide_ level sect).
  io_ok.
  destruct (bool_decide (patch_array_dst slide_ level sect ∈ dirs w)) eqn:E1;
    cbn [negb]; io_ok; io_ok.
  all: match goal with
       | |- context [bool_decide (?p ∈ ?d)] =>
           destruct (bool_decide (p ∈ d)) eqn:E2
       end; cbn [negb]; io_ok.
  all: try apply bool_decide_eq_true in E1; try apply bool_decide_eq_true in E2.
  all: match goal with
       | |- saved_from _ _ _ _ ((mbind ?f ?m) ?w2).2 =>
           apply (keeps_bind (saved_from slide_ level sect w) m f)
       end.
  all: try apply keeps_lift.
  all: try (intros [areas pcts]; apply keeps_bind;
            [ apply keeps_write_file; by eexists
            | intros _; apply keeps_bind;
              [ apply keeps_foldM_io; intros _ [i patch_]; apply keeps_bind;
                [ apply keeps_lift
                | intros [x_ y_]; cbv zeta; apply keeps_bind;
                  [ apply keeps_write_file; by do 3 apply under_app
                  | intros _; apply keeps_write_file;
                    by do 3 apply under_app ] ]
              | intros _; apply keeps_bind;
                [ apply keeps_write_file; apply under_app; by eexists
                | intros _; apply keeps_write_file; apply under_app;
                  by eexists ] ] ]).
  all: unfold saved_from, os_makedirs in *;
       cbn [snd dirs files region_reads] in *.
  all: split; [intros x Hx; rewrite ?elem_of_union; tauto|].
  all: rewrite ?elem_of_union, ?elem_of_list_to_set in *.
  all: split; [tauto|]; split; [tauto|]; split; [reflexivity|].
  all: exists []; split; [by rewrite app_nil_r | constructor].
Qed.

(** X17.  Whatever its arguments and whether it returns or raises,
    save_to_disk leaves both output directories in existence, removes no
    directory, reads nothing from the slide, keeps the files that were there
    in front of the ones it writes, and writes every file under the output
    directory of the slide, level and section. *)
Theorem X17_save_to_disk_directories (patches : list (ndarray pixel))
    (coords : list (Z * Z)) (tumor_dict : option (gmap (Z * Z) Q))
    (mask : ndarray pixel) (slide_ : string) (level : Z) (sect : string)
    (w w' : world) :
  w' = (save_to_disk patches coords tumor_dict mask slide_ level sect w).2 ->
  dirs w ⊆ dirs w'
  /\ prefix_dir slide_ level sect ∈ dirs w'
  /\ patch_array_dst slide_ level sect ∈ dirs w'
  /\ region_reads w' = region_reads w
  /\ exists new,
       files w' = files w ++ new
       /\ Forall (fun f => exists rest,
                            f.1 = prefix_dir slide_ level sect +:+ rest) new.
Proof. intros ->. exact (save_to_disk_saved_from _ _ _ _ _ _ _ _). Qed.

Lemma X17_witness :
  exists w',
    w' = (save_to_disk [ex_rgb] [(994, 494)] None ex_mask "slide.tif" 1 "10"
                       ex_world).2
    /\ dirs ex_world ⊆ dirs w'
    /\ prefix_dir "slide.tif" 1 "10" ∈ dirs w'
    /\ patch_array_dst "slide.tif" 1 "10" ∈ dirs w'
    /\ region_reads w' = region_reads ex_world
    /\ exists new,
         files w' = files ex_world ++ new
         /\ Forall (fun f => exists rest,
                              f.1 = prefix_dir "slide.tif" 1 "10" +:+ rest) new.
Proof.
  eexists. split; [reflexivity|].
  apply (X17_save_to_disk_directories [ex_rgb] [(994, 494)] None ex_mask
           "slide.tif" 1 "10" ex_world).
  reflexivity.
Defined.

(** ** The case name of a slide path *)

Lemma py_split_cons (sep : ascii) (s : string) :
  exists w ws, py_split sep s = w :: ws.
Proof.
  destruct s as [|c s]; cbn [py_split]; [by eexists _, _|].
  destruct (Ascii.eqb c sep); [by eexists _, _|].
  destruct (py_split sep s); by eexists _, _.
Qed.

Lemma py_split_has_char (sep c : ascii) (s : string) :
  (c = sep \/ has_char c s = false) ->
  Forall (fun w => has_char c w = false) (py_split sep s).
Proof.
  induction s as [|x s IH]; intros Hc; cbn [py_split].
  - by repeat constructor.
  - destruct (Ascii.eqb_spec x sep) as [->|Hx].
    + constructor; [done|]. apply IH. destruct Hc as [Hc|Hc]; [by left|].
      right. cbn [has_char] in Hc. by apply orb_false_elim in Hc as [_ Hc].
    + assert (Hxc : Ascii.eqb x c = false).
      { destruct Hc as [->|Hc]; [by apply Ascii.eqb_neq|].
        cbn [has_char] in Hc. by apply orb_false_elim in Hc as [Hc _]. }
      assert (Hs : c = sep \/ has_char c s = false).
      { destruct Hc as [Hc|Hc]; [by left|]. right. cbn [has_char] in Hc.
        by apply orb_false_elim in Hc as [_ Hc]. }
      specialize (IH Hs). destruct (py_split sep s) as [|w ws].
      * repeat constructor. cbn [has_char]. by rewrite Hxc.
      * apply Forall_cons in IH as [Hw Hws]. constructor; [|done].
        cbn [has_char]. by rewrite Hxc, Hw.
Qed.

Lemma Forall_last_hd {A : Type} (P : A -> Prop) (l : list A) (d : A) :
  P d -> Forall P l -> P (List.last l d) /\ P (List.hd d l).
Proof.
  intros Hd Hl. split; [|by destruct Hl].
  induction Hl as [|x l Hx Hl IH]; [done|]. cbn [List.last].
  by destruct l.
Qed.

(** X18.  The case name that save_to_disk takes from the slide path holds no
    slash and no dot, whatever the path: it never names the parent
    directory, and it adds no further level of directories below
    ./dataset_patches/. *)
Theorem X18_case_name_has_no_separator (slide_ : string) :
  has_char "/" (case_name slide_) = false
  /\ has_char "." (case_name slide_) = false.
Proof.
  unfold case_name.
  assert (Hlast : has_char "/" (List.last (py_split "/" slide_) "") = false).
  { apply (Forall_last_hd (fun w => has_char "/" w = false)); [done|].
    apply py_split_has_char. by left. }
  split.
  - apply (Forall_last_hd (fun w => has_char "/" w = false)); [done|].
    apply py_split_has_char. by right.
  - apply (Forall_last_hd (fun w => has_char "." w = false)); [done|].
    apply py_split_has_char. by left.
Qed.

Lemma py_split_app (sep : ascii) (a b : string) :
  py_split sep (a +:+ String sep b) = py_split sep a ++ py_split sep b.
Proof.
  induction a as [|c a IH].
  - change ("" +:+ String sep b) with (String sep b). cbn [py_split].
    by rewrite Ascii.eqb_refl.
  - change (String c a +:+ String sep b) with (String c (a +:+ String sep b)).
    cbn [py_split]. rewrite IH. destruct (Ascii.eqb c sep); [done|].
    by destruct (py_split_cons sep a) as (w & ws & ->).
Qed.

Lemma py_split_absent (sep : ascii) (s : string) :
  has_char sep s = false -> py_split sep s = [s].
Proof.
  induction s as [|c s IH]; [done|]. cbn [has_char py_split].
  intros [Hc Hs]%orb_false_elim. rewrite Hc, (IH Hs). done.
Qed.

Lemma has_char_app (c : ascii) (a b : string) :
  has_char c (a +:+ b) = has_char c a || has_char c b.
Proof.
  induction a as [|x a IH]; [done|].
  change (String x a +:+ b) with (String x (a +:+ b)). cbn [has_char].
  by rewrite IH, orb_assoc.
Qed.

(** X19.  For a slide path made of a directory part (empty or ending in a
    slash), a base name without slash and dot, a dot and an extension
    without slash, the case name is the base name: the directory and
    everything from the first dot of the file name on are dropped, so slides
    that differ only there share one output directory. *)
Theorem X19_case_name_is_base_name (pre base ext : string) :
  (pre = "" \/ exists dir, pre = dir +:+ "/") ->
  has_char "/" base = false ->
  has_char "." base = false ->
  has_char "/" ext = false ->
  case_name (pre +:+ base +:+ "." +:+ ext) = base.
Proof.
  intros Hpre Hb1 Hb2 He. unfold case_name.
  assert (Hfile : has_char "/" (base +:+ "." +:+ ext) = false).
  { rewrite !has_char_app, Hb1, He. done. }
  assert (Hlast : List.last (py_split "/" (pre +:+ base +:+ "." +:+ ext)) ""
                  = base +:+ "." +:+ ext).
  { destruct Hpre as [->|[dir ->]].
    - change ("" +:+ base +:+ "." +:+ ext) with (base +:+ "." +:+ ext).
      by rewrite (py_split_absent _ _ Hfile).
    - rewrite string_app_assoc.
      change ("/" +:+ base +:+ "." +:+ ext)
        with (String "/" (base +:+ "." +:+ ext)).
      rewrite py_split_app, (py_split_absent _ _ Hfile). apply last_last. }
  rewrite Hlast. change ("." +:+ ext) with (String "." ext).
  rewrite py_split_app, (py_split_absent _ _ Hb2). done.
Qed.

Lemma X19_witness :
  case_name ("/data/slides/" +:+ "tumor_001" +:+ "." +:+ "ome.tif")
  = "tumor_001".
Proof.
  apply (X19_case_name_is_base_name "/data/slides/" "tumor_001" "ome.tif").
  - right. by exists "/data/slides".
  - reflexivity.
  - reflexivity.
  - reflexivity.
Defined.

(** ** extract_all on a slide without annotation *)

Lemma extract_all_section_step `{cv : OpenCV} `{fs : Files}
    (slide_path : string) (level mag_factor : Z) (pnflag : bool) :
  extract_all slide_path level mag_factor pnflag
  = (wsi_obj ← lift (openSlide_init slide_path level);
     polygons ← (if pnflag then lift (Some <$> extract_all_parse_annotation)
                 else mret None);
     foldM_io (section_step wsi_obj slide_path level mag_factor pnflag)
              [] section_list).
Proof. reflexivity. Qed.

Lemma section_list_grid :
  section_list = (fun cr : Z * Z => sect_of cr.1 cr.2) <$> section_grid.
Proof. reflexivity. Qed.

Lemma elem_of_section_grid (cr : Z * Z) :
  cr ∈ section_grid -> 0 <= cr.1 < 4 /\ 0 <= cr.2 < 4.
Proof.
  unfold section_grid. intros Hin.
  apply list_elem_of_bind in Hin as (col & Hin & Hcol).
  apply list_elem_of_bind in Hin as (row & Hin & Hrow).
  apply list_elem_of_singleton in Hin as ->. cbn [fst snd].
  apply elem_of_seqZ in Hcol, Hrow. unfold SPLIT in *. lia.
Qed.

Lemma io_bind_Ok_inv {A B : Type} (m : io A) (f : A -> io B) (w w' : world)
    (b : B) :
  (m ≫= f) w = (Ok b, w') ->
  exists a w1, m w = (Ok a, w1) /\ f a w1 = (Ok b, w').
Proof.
  unfold mbind, io_bind. destruct (m w) as [[a|e] w1]; [|done].
  intros Hf. by exists a, w1.
Qed.

Lemma lift_Ok_inv {A : Type} (r : result A) (w w' : world) (a : A) :
  lift r w = (Ok a, w') -> r = Ok a /\ w' = w.
Proof. unfold lift. by intros [= -> ->]. Qed.

Lemma read_wsi_files (wsi_obj : option slide) (level mag_factor : Z)
    (sect : string) (w : world) :
  files (read_wsi wsi_obj level mag_factor sect w).2 = files w.
Proof.
  unfold read_wsi, mbind, io_bind, lift.
  destruct (section_delta wsi_obj level sect) as [[[[ws hs] dx] dy]|e]; [|done].
  destruct wsi_obj as [s|]; [|done]. cbn [log_read].
  by destruct (read_region s _ _ _).
Qed.

Lemma saved_patches_length (array_file : string) (i : nat)
    (patches : list (ndarray pixel)) (coords : list (Z * Z)) :
  length patches = length coords ->
  length (saved_patches array_file i patches coords) = (2 * length patches)%nat.
Proof.
  revert i coords. induction patches as [|p patches IH]; intros i [|c coords] Hlen;
    try done.
  cbn [saved_patches patch_files length app]. rewrite (IH (S i) coords); [lia|].
  cbn [length] in Hlen. lia.
Qed.

Lemma construct_bags_lengths `{cv : OpenCV} wsi_obj wsi_rgb contours mask level
    mag P sect b :
  construct_bags wsi_obj wsi_rgb contours mask level mag P sect = Ok b ->
  length (patches_coords b) = length (patches b).
Proof.
  intros Hb. apply construct_bags_Ok in Hb
    as (Wd & Ht & col & row & cs & _ & _ & _ & _ & _ & ->).
  unfold bags_of. cbn [patches patches_coords]. by rewrite !length_fmap.
Qed.

(** One turn of the loop that returns: either nothing is written and the
    list is as before, or the section gave patches, which are appended to
    the list and saved. *)
Lemma section_step_Ok `{cv : OpenCV} (wsi_obj : option slide)
    (slide_path : string) (level mag_factor : Z)
    (acc acc' : list (list (ndarray pixel))) (sect : string) (w0 w w' : world) :
  section_step wsi_obj slide_path level mag_factor false acc sect w
  = (Ok acc', w') ->
  run_summary w0 acc w -> run_summary w0 acc' w'.
Proof.
  unfold section_step. intros Hstep Hsum.
  apply io_bind_Ok_inv in Hstep as (rgba & w1 & Hread & Hstep).
  assert (Hf1 : files w1 = files w).
  { pose proof (read_wsi_files wsi_obj level mag_factor sect w) as Hf.
    by rewrite Hread in Hf. }
  clear Hread.
  apply io_bind_Ok_inv in Hstep as ([[rgb gray] hsv] & w2 & Hcol & Hstep).
  apply lift_Ok_inv in Hcol as [_ ->].
  apply io_bind_Ok_inv in Hstep as ([[[bb cc] contours] mask] & w2 & Hseg & Hstep).
  apply lift_Ok_inv in Hseg as [_ ->].
  apply io_bind_Ok_inv in Hstep as (b & w2 & Hb & Hstep).
  apply lift_Ok_inv in Hb as [Hb ->].
  apply construct_bags_lengths in Hb.
  destruct (Nat.eqb_spec (length (patches b)) 0) as [Hz|Hnz]; cbn [negb] in Hstep.
  { injection Hstep as <- <-.
    destruct Hsum as (Hne & (new & Hnew & Hlen) & tables & Hcsv & Htab).
    split; [done|]. split; [exists new; by rewrite Hf1|]. exists tables.
    split; [|done]. unfold csv_written in *. by rewrite Hf1. }
  cbv zeta in Hstep.
  apply io_bind_Ok_inv in Hstep as (td & w2 & Htd & Hstep).
  injection Htd as <- <-.
  apply io_bind_Ok_inv in Hstep as ([] & w2 & Hsave & Hstep).
  injection Hstep as <- <-.
  destruct (save_to_disk_outcome (patches b) (patches_coords b) None mask
              slide_path level sect w1) as [_ Hfiles]; [done|].
  pose proof (save_to_disk_csv (patches b) (patches_coords b) None mask
                slide_path level sect w1 _ eq_refl) as Hcsv2.
  rewrite Hsave in Hfiles, Hcsv2. cbn [snd] in Hfiles, Hcsv2.
  rewrite bool_decide_true in Hfiles by lia.
  destruct Hsum as (Hne & (new & Hnew & Hlen) & tables & Hcsv & Htab).
  split; [|split].
  - apply Forall_app. split; [done|]. constructor; [|done].
    intros Hnil. by rewrite Hnil in Hnz.
  - eexists. split.
    + rewrite Hfiles, Hf1, Hnew, <- (assoc_L (++)). reflexivity.
    + rewrite !length_app, saved_patches_length by done.
      rewrite Hlen, fmap_app, sum_list_with_app.
      cbn [length fmap list_fmap sum_list]. cbv [id]. lia.
  - exists (tables ++ [record_without_annotation <$> patches_coords b]). split.
    + rewrite Hcsv2. unfold csv_written in *. rewrite Hf1, Hcsv.
      by rewrite (assoc_L (++)).
    + apply Forall2_app; [done|]. constructor; [|done]. split.
      * by rewrite length_fmap.
      * apply Forall_fmap, Forall_forall. by intros c _.
Qed.

Lemma foldM_io_Ok_inv {A B : Type} (Inv : A -> world -> Prop)
    (body : A -> B -> io A) (l : list B) :
  (forall a x w a' w', body a x w = (Ok a', w') -> Inv a w -> Inv a' w') ->
  forall a w a' w',
    foldM_io body a l w = (Ok a', w') -> Inv a w -> Inv a' w'.
Proof.
  intros Hbody. induction l as [|x l IH]; intros a w a' w' Hfold Hinv.
  - by injection Hfold as <- <-.
  - cbn [foldM_io] in Hfold.
    apply io_bind_Ok_inv in Hfold as (a1 & w1 & Hx & Hfold).
    eapply IH; [exact Hfold|]. by eapply Hbody.
Qed.

Lemma extract_all_summary `{cv : OpenCV} `{fs : Files} (slide_path : string)
    (level mag_factor : Z) (w w' : world) (r : list (list (ndarray pixel))) :
  extract_all slide_path level mag_factor false w = (Ok r, w') ->
  run_summary w r w'.
Proof.
  rewrite extract_all_section_step. intros Hrun.
  apply io_bind_Ok_inv in Hrun as (wsi_obj & w1 & Hinit & Hrun).
  apply lift_Ok_inv in Hinit as [_ ->].
  apply io_bind_Ok_inv in Hrun as (pl & w1 & Hpl & Hrun).
  injection Hpl as _ <-.
  eapply (foldM_io_Ok_inv (run_summary w)); [|exact Hrun|].
  - intros a x w0 a' w0'. apply section_step_Ok.
  - split; [done|]. split; [exists []; by rewrite app_nil_r|].
    exists []. by rewrite app_nil_r.
Qed.

(** X21.  When extract_all returns on a slide without annotation, no entry
    of the list it returns is empty, the files that were on disk are still
    there, an entry of n patches stands for 2 n + 3 new files, and the run
    wrote one coordinate table per entry, with one record per patch and
    tumor_area 0 and tumor_% 0 in every record. *)
Theorem X21_unannotated_run_output `{cv : OpenCV} `{fs : Files}
    (slide_path : string) (level mag_factor : Z) (w w' : world)
    (r : list (list (ndarray pixel))) :
  extract_all slide_path level mag_factor false w = (Ok r, w') ->
  Forall (fun ps => ps <> []) r
  /\ (exists new,
        files w' = files w ++ new
        /\ length new = sum_list ((fun ps => 2 * length ps + 3)%nat <$> r))
  /\ exists tables,
       csv_written w' = csv_written w ++ tables
       /\ Forall2 (fun (ps : list (ndarray pixel)) (rows : list csv_row) =>
                     length rows = length ps
                     /\ Forall (fun row => tumor_area row = 0%Q
                                           /\ tumor_pct row = 0%Q) rows)
                  r tables.
Proof. apply extract_all_summary. Qed.

Lemma X21_witness :
  exists r w',
    @extract_all ex_cv_tissue ex_files_tissue "tissue.tif" 1 2 false ex_world
    = (Ok r, w')
    /\ length r = 1%nat
    /\ Forall (fun ps => ps <> []) r
    /\ (exists new,
          files w' = files ex_world ++ new
          /\ length new = sum_list ((fun ps => 2 * length ps + 3)%nat <$> r))
    /\ exists tables,
         csv_written w' = csv_written ex_world ++ tables
         /\ Forall2 (fun (ps : list (ndarray pixel)) (rows : list csv_row) =>
                       length rows = length ps
                       /\ Forall (fun row => tumor_area row = 0%Q
                                             /\ tumor_pct row = 0%Q) rows)
                    r tables.
Proof.
  eexists _, _.
  assert (Hrun : @extract_all ex_cv_tissue ex_files_tissue "tissue.tif" 1 2
                   false ex_world = (Ok _, _)) by (vm_compute; reflexivity).
  split; [exact Hrun|]. split; [reflexivity|].
  exact (X21_unannotated_run_output (cv := ex_cv_tissue) (fs := ex_files_tissue)
           "tissue.tif" 1 2 ex_world _ _ Hrun).
Defined.

Lemma foldM_io_trace {A B C T : Type} (obs : world -> list T) (t : C -> T)
    (g : C -> B) (body : A -> B -> io A) (l : list C) :
  (forall a c w, c ∈ l -> obs (body a (g c) w).2 = obs w ++ [t c]) ->
  forall a w,
    exists k, (k <= length l)%nat
      /\ obs (foldM_io body a (g <$> l) w).2 = obs w ++ take k (t <$> l)
      /\ (l <> [] -> (1 <= k)%nat)
      /\ (forall a', (foldM_io body a (g <$> l) w).1 = Ok a' -> k = length l).
Proof.
  induction l as [|c l IH]; intros Hbody a w.
  - exists 0%nat. cbn. by rewrite app_nil_r.
  - cbn [fmap list_fmap foldM_io]. fold (@fmap list _ C B g l).
    pose proof (Hbody a c w (list_elem_of_here _ _)) as Hc.
    destruct (body a (g c) w) as [[a1|e] w1] eqn:E; cbn [snd] in Hc.
    + rewrite (io_bind_Ok _ _ _ _ _ E).
      destruct (IH (fun a c w Hin => Hbody a c w (list_elem_of_further _ _ _ Hin))
                  a1 w1) as (k & Hk & Hobs & _ & Hret).
      exists (S k). cbn [length take]. split; [lia|]. split.
      { rewrite Hobs, Hc. by rewrite <- (assoc_L (++)). }
      split; [lia|]. intros a' Ha'. f_equal. exact (Hret a' Ha').
    + rewrite (io_bind_Raise _ _ _ _ _ E).
      exists 1%nat. cbn [length take fst snd]. split; [lia|]. split.
      { by rewrite take_0. }
      split; [lia|]. intros a' [=].
Qed.

Lemma section_step_reads `{cv : OpenCV} (s : slide) (slide_path : string)
    (level mag_factor Wd Ht : Z) (pnflag : bool)
    (acc : list (list (ndarray pixel))) (cr : Z * Z) (w : world) :
  wsi_level_dimensions (Some s) level = Ok (Wd, Ht) ->
  0 <= cr.1 < 4 -> 0 <= cr.2 < 4 ->
  region_reads (section_step (Some s) slide_path level mag_factor pnflag acc
                             (sect_of cr.1 cr.2) w).2
  = region_reads w ++ [section_region Wd Ht level mag_factor cr].
Proof.
  intros HW Hc Hr. destruct (int_at_sect_of cr.1 cr.2 Hc Hr) as [Hc' Hr'].
  unfold section_step. unfold mbind at 1, io_bind at 1.
  rewrite (read_wsi_eq s level mag_factor _ Wd Ht cr.1 cr.2 w HW Hc' Hr').
  fold (section_region Wd Ht level mag_factor cr).
  destruct (read_region s _ level _) as [rgba|e]; [|done].
  set (rs := region_reads w ++ [section_region Wd Ht level mag_factor cr]).
  set (I := fun w' : world => region_reads w' = rs).
  match goal with |- region_reads ?t = _ => change (I t) end.
  apply (keeps_bind I); [apply keeps_lift| |done].
  intros [[rgb gray] hsv]. apply keeps_bind; [apply keeps_lift|].
  intros [[[bb cc] contours] mask]. apply keeps_bind; [apply keeps_lift|].
  intros b. destruct (negb _); [|apply keeps_ret]. cbv zeta.
  apply keeps_bind; [destruct pnflag; [apply keeps_lift | apply keeps_ret]|].
  intros td. apply keeps_bind; [|intros _; apply keeps_ret].
  intros w1 Hw1.
  destruct (save_to_disk_saved_from (patches b) (patches_coords b) td mask
              slide_path level (sect_of cr.1 cr.2) w1) as (_ & _ & _ & Hreads & _).
  unfold I in *. by rewrite Hreads.
Qed.

(** X20.  On a slide that opens, a run of extract_all without annotation
    reads the sections one after the other in the order of section_list,
    column by column: the regions it has requested are the first k of the
    sixteen section regions, for some k from 1 to 16, and all sixteen when
    the run returns.  No region is read twice and none out of order. *)
Theorem X20_unannotated_run_reads `{cv : OpenCV} `{fs : Files}
    (slide_path : string) (level mag_factor : Z) (s : slide) (w : world) :
  openSlide_init slide_path level = Ok (Some s) ->
  exists Wd Ht k,
    py_index (level_dimensions s) level = Ok (Wd, Ht)
    /\ (1 <= k <= 16)%nat
    /\ region_reads (extract_all slide_path level mag_factor false w).2
       = region_reads w
         ++ take k (section_region Wd Ht level mag_factor <$> section_grid)
    /\ (forall r, (extract_all slide_path level mag_factor false w).1 = Ok r ->
                  k = 16%nat).
Proof.
  intros Hinit.
  assert (HW : exists Wd Ht, py_index (level_dimensions s) level = Ok (Wd, Ht)).
  { unfold openSlide_init in Hinit.
    destruct (OpenSlide slide_path) as [s'|e]; [|by destruct e].
    destruct (py_index (level_dimensions s') level) as [[Wd Ht]|e] eqn:E;
      [|done].
    cbn [mbind result_bind] in Hinit. injection Hinit as ->. by exists Wd, Ht. }
  destruct HW as (Wd & Ht & HW). exists Wd, Ht.
  rewrite extract_all_section_step.
  erewrite io_bind_Ok by (unfold lift; rewrite Hinit; reflexivity).
  erewrite io_bind_Ok by reflexivity. rewrite section_list_grid.
  destruct (foldM_io_trace region_reads (section_region Wd Ht level mag_factor)
              (fun cr : Z * Z => sect_of cr.1 cr.2)
              (section_step (Some s) slide_path level mag_factor false)
              section_grid) with (a := @nil (list (ndarray pixel))) (w := w)
    as (k & Hk & Hobs & Hpos & Hret).
  { intros a cr w0 Hin. apply elem_of_section_grid in Hin as [Hc Hr].
    by apply section_step_reads. }
  exists k. split; [done|]. split.
  { split; [by apply Hpos | exact Hk]. }
  split; [exact Hobs|]. intros r Hr. by apply Hret in Hr.
Qed.

Lemma X20_witness :
  exists Wd Ht k,
    py_index (level_dimensions ex_slide) 1 = Ok (Wd, Ht)
    /\ (1 <= k <= 16)%nat
    /\ region_reads (@extract_all ex_cv ex_files "slide.tif" 1 2 false ex_world).2
       = region_reads ex_world
         ++ take k (section_region Wd Ht 1 2 <$> section_grid)
    /\ (forall r, (@extract_all ex_cv ex_files "slide.tif" 1 2 false ex_world).1
                  = Ok r -> k = 16%nat).
Proof.
  apply (X20_unannotated_run_reads (cv := ex_cv) (fs := ex_files)
           "slide.tif" 1 2 ex_slide ex_world).
  reflexivity.
Defined.

(** ** The segmentation step *)

Lemma mapM_Ok_Forall2 {A B : Type} (f : A -> result B) (l : list A)
    (k : list B) :
  mapM f l = Ok k <-> Forall2 (fun a b => f a = Ok b) l k.
Proof.
  revert k. induction l as [|a l IH]; intros k; cbn [mapM].
  - split; [intros [= <-]; constructor | by intros ->%Forall2_nil_inv_l].
  - split.
    + intros Hk. apply bind_Ok_inv in Hk as (b & Hb & Hk).
      apply bind_Ok_inv in Hk as (k' & Hk' & [= <-]).
      constructor; [done|]. by apply IH.
    + intros (b & k' & Hb & Hk' & ->)%Forall2_cons_inv_l.
      rewrite Hb. cbn [mbind result_bind]. apply IH in Hk'. rewrite Hk'. done.
Qed.

(** X22.  When drawing contours keeps the size of the array it draws on,
    the mask that segmentation_hsv returns has the height and width of the
    RGB image it was given, so that construct_bags can combine blocks of the
    two; the bounding boxes are those of the contours, one per contour and
    in the same order, and the contour coordinates are the squeezed
    contours. *)
Theorem X22_segmentation_result `{cv : OpenCV} (wsi_hsv_ wsi_rgb_ : ndarray pixel)
    (bounding_boxes : list rect) (contour_coords contours : list contour)
    (mask : ndarray pixel) :
  (forall m l colour,
     height (cv2_drawContours m l colour) = height m
     /\ width (cv2_drawContours m l colour) = width m) ->
  segmentation_hsv wsi_hsv_ wsi_rgb_
  = Ok (bounding_boxes, contour_coords, contours, mask) ->
  height mask = height wsi_rgb_ /\ width mask = width wsi_rgb_
  /\ Forall2 (fun c b => cv2_boundingRect c = Ok b) contours bounding_boxes
  /\ contour_coords = np_squeeze <$> contours.
Proof.
  intros Hdraw Hseg. unfold segmentation_hsv, get_contours in Hseg. cbv zeta in Hseg.
  apply bind_Ok_inv in Hseg as (boxes & Hboxes & Hret).
  match type of Hboxes with
  | mapM _ ?l = _ => generalize dependent l; intros cs Hboxes Hret
  end.
  injection Hret as Hb Hcc Hcs Hm. subst bounding_boxes contour_coords mask cs.
  destruct (Hdraw (np_zeros (shape wsi_rgb_)) contours
              (PIXEL_WHITE, PIXEL_WHITE, PIXEL_WHITE)) as [Hh Hw].
  unfold np_zeros, shape in Hh, Hw. cbn [height width] in Hh, Hw.
  rewrite !Nat2Z.id in Hh, Hw. rewrite ?Nat2Z.id.
  split; [exact Hh|]. split; [exact Hw|]. split; [|done].
  by apply mapM_Ok_Forall2.
Qed.

Lemma X22_witness :
  exists bounding_boxes contour_coords contours mask,
    @segmentation_hsv ex_cv_tissue ex_rgb ex_rgb
    = Ok (bounding_boxes, contour_coords, contours, mask)
    /\ bounding_boxes = [(0, 0, 250, 250)]
    /\ height mask = height ex_rgb /\ width mask = width ex_rgb
    /\ Forall2 (fun c b => @cv2_boundingRect ex_cv_tissue c = Ok b)
               contours bounding_boxes
    /\ contour_coords = @np_squeeze ex_cv_tissue <$> contours.
Proof.
  eexists _, _, _, _.
  assert (Hseg : @segmentation_hsv ex_cv_tissue ex_rgb ex_rgb
                 = Ok (_, _, _, _)) by (vm_compute; reflexivity).
  split; [exact Hseg|]. split; [reflexivity|].
  apply (X22_segmentation_result (cv := ex_cv_tissue) ex_rgb ex_rgb _ _ _ _);
    [|exact Hseg].
  intros m l colour. cbn. by destruct l.
Defined.
